(** * WhisperT2: transcription formatting and export

    A shallow embedding of [src/transcription/formatter.py]
    (class [TranscriptionFormatter]) and of [src/export/document.py]
    (class [DocumentExporter]), with the properties of their outputs.

    Conventions of the embedding.
    - A Python [float] is a primitive binary64 [float]; the arithmetic of
      the source is IEEE arithmetic on it, the C library functions it goes
      through ([modf], [fmod], [floor], [round]) are computed exactly on
      the decoded mantissa and exponent.
    - A Python [int] is a [Z].
    - A Python [str] is a [string] of code points below 256: [isspace],
      [isalnum], [strip] and the check of the document library on the
      texts it stores are those of Python on that range; [upper] and
      [title] are the case mappings of Python on ASCII text (a character
      outside [a-z] and [A-Z] is kept as it is).  The literals of the
      source with characters above that range (the arrow, the icons)
      stand as their UTF-8 bytes.
    - A raised exception is the [Raise] branch of [Result]; [st.error]
      calls are collected in a log.
    - A dictionary read with [d.get(key, default)] is a record of
      optional fields. *)

From Stdlib Require Import ZArith List String Ascii Bool Lia Floats.
From Stdlib Require Import DecimalString DecimalPos DecimalN.
Import ListNotations.

Local Open Scope Z_scope.
Local Open Scope string_scope.

(** ** Exceptions and results *)

(** The exceptions (subclasses of [Exception]) that the modelled code can
    raise; [LibraryError] stands for any exception that the document
    library raises when it serialises a document. *)
Inductive exn : Type :=
| OverflowError
| ValueError
| ZeroDivisionError
| LibraryError (msg : string).

Inductive Result (A : Type) : Type :=
| Ok (value : A)
| Raise (e : exn).

Arguments Ok {A} value.
Arguments Raise {A} e.

Definition bind {A B : Type} (r : Result A) (k : A -> Result B) : Result B :=
  match r with
  | Ok v => k v
  | Raise e => Raise e
  end.

Notation "x <- r ;; k" := (bind r (fun x => k))
  (at level 61, r at next level, right associativity).

Definition returns {A : Type} (r : Result A) : Prop :=
  exists v, r = Ok v.

(** ** Binary64 helpers: the C functions behind the Python operators *)

Module PyFloat.

Local Open Scope float_scope.

(** [float(n)] for an integer [n]: round to nearest, ties to even. *)
Definition of_Z (n : Z) : float :=
  SF2Prim (binary_normalize prec emax n 0%Z false).

(** [int(x)], [PyLong_FromDouble]: truncation toward zero; infinities
    and NaN raise. *)
Definition to_Z (x : float) : Result Z :=
  match Prim2SF x with
  | S754_zero _ => Ok 0%Z
  | S754_infinity _ => Raise OverflowError
  | S754_nan => Raise ValueError
  | S754_finite s m e =>
      let mag := match e with
                 | Zneg p => Z.shiftr (Zpos m) (Zpos p)
                 | _ => Z.shiftl (Zpos m) e
                 end in
      Ok (if s then Z.opp mag else mag)
  end.

(** [floor(x)] on a finite value, as an integer. *)
Definition floor_Z (s : bool) (m : positive) (e : Z) : Z :=
  match e with
  | Zneg p => Z.shiftr (if s then Zneg m else Zpos m) (Zpos p)
  | _ => Z.shiftl (if s then Zneg m else Zpos m) e
  end.

(** C [floor]. *)
Definition floor (x : float) : float :=
  match Prim2SF x with
  | S754_finite s m e =>
      let n := floor_Z s m e in
      if (n =? 0)%Z then (if s then neg_zero else zero) else of_Z n
  | _ => x
  end.

(** C [round]: to the nearest integer, halfway cases away from zero. *)
Definition round (x : float) : float :=
  match Prim2SF x with
  | S754_finite s m e =>
      let mag := match e with
                 | Zneg p =>
                     Z.shiftr (Zpos m + Z.shiftl 1 (Zpos p - 1)) (Zpos p)
                 | _ => Z.shiftl (Zpos m) e
                 end in
      if (mag =? 0)%Z then (if s then neg_zero else zero)
      else of_Z (if s then Z.opp mag else mag)
  | _ => x
  end.

(** C [fmod]: the exact remainder of the truncated quotient, with the
    sign of [x]. *)
Definition fmod (x y : float) : float :=
  match Prim2SF x, Prim2SF y with
  | S754_nan, _ | _, S754_nan => nan
  | S754_infinity _, _ => nan
  | _, S754_zero _ => nan
  | S754_zero _, _ => x
  | S754_finite _ _ _, S754_infinity _ => x
  | S754_finite sx mx ex, S754_finite _ my ey =>
      let e := Z.min ex ey in
      let r := Z.rem (Z.shiftl (Zpos mx) (ex - e)) (Z.shiftl (Zpos my) (ey - e)) in
      if (r =? 0)%Z then (if sx then neg_zero else zero)
      else SF2Prim (binary_normalize prec emax (if sx then Z.opp r else r) e false)
  end.

(** [a / b] on integers ([long_true_divide]): the correctly rounded
    quotient. *)
Definition truediv_Z (a b : Z) : Result float :=
  match a, b with
  | _, Z0 => Raise ZeroDivisionError
  | Z0, _ => Ok (if (b <? 0)%Z then neg_zero else zero)
  | _, _ =>
      let s := xorb (a <? 0)%Z (b <? 0)%Z in
      let '(q, e, l) := SFdiv_core_binary prec emax (Z.abs a) 0 (Z.abs b) 0 in
      match binary_round_aux prec emax s q e l with
      | S754_infinity _ => Raise OverflowError
      | r => Ok (SF2Prim r)
      end
  end.

(** [x % y] on floats ([float_rem]). *)
Definition rem (vx wx : float) : Result float :=
  if wx =? 0 then Raise ZeroDivisionError
  else
    let mod_ := fmod vx wx in
    Ok (if negb (mod_ =? 0)
        then (if xorb (wx <? 0) (mod_ <? 0) then mod_ + wx else mod_)
        else (if get_sign wx then neg_zero else zero)).

(** [divmod(x, y)] on floats ([float_divmod]). *)
Definition divmod (vx wx : float) : Result (float * float) :=
  if wx =? 0 then Raise ZeroDivisionError
  else
    let mod0 := fmod vx wx in
    let div0 := (vx - mod0) / wx in
    let adjust := negb (mod0 =? 0) && xorb (wx <? 0) (mod0 <? 0) in
    let mod_ := if negb (mod0 =? 0)
                then (if adjust then mod0 + wx else mod0)
                else (if get_sign wx then neg_zero else zero) in
    let div_ := if adjust then div0 - 1 else div0 in
    let floordiv :=
      if negb (div_ =? 0)
      then (let f := floor div_ in if 0.5 <? div_ - f then f + 1 else f)
      else (if get_sign (vx / wx) then neg_zero else zero) in
    Ok (floordiv, mod_).

End PyFloat.

(** ** [datetime.timedelta(seconds=...)] and [total_seconds()] *)

Module Timedelta.

Local Open Scope float_scope.

(** A [timedelta] is its whole number of microseconds. *)
Definition max_days : Z := 999999999.
Definition us_per_second : Z := 1000000.
Definition us_per_day : Z := 86400 * us_per_second.

(** The rounding of the fraction of a microsecond left over by the
    conversion: to the nearest microsecond, a tie to the even total. *)
Definition round_leftover (x : Z) (leftover_us : float) : Result Z :=
  if leftover_us =? 0 then Ok x
  else
    let whole_us := PyFloat.round leftover_us in
    let whole_us :=
      if abs (whole_us - leftover_us) =? 0.5
      then
        let x_is_odd := PyFloat.of_Z (Z.land x 1) in
        2 * PyFloat.round ((leftover_us + x_is_odd) * 0.5) - x_is_odd
      else whole_us in
    w <- PyFloat.to_Z whole_us ;;
    Ok (x + w)%Z.

(** [timedelta(seconds=seconds)] for a float argument: the integer
    part is converted exactly, the fraction is scaled to microseconds
    in floating point and rounded; a day count beyond [max_days]
    raises [OverflowError]. *)
Definition of_seconds (seconds : float) : Result Z :=
  intpart <- PyFloat.to_Z seconds ;;
  let fracpart := seconds - PyFloat.of_Z intpart in
  let sum := (intpart * us_per_second)%Z in
  x <- (if fracpart =? 0 then Ok sum
        else
          let dnum := PyFloat.of_Z us_per_second * fracpart in
          intpart' <- PyFloat.to_Z dnum ;;
          round_leftover (sum + intpart')%Z (dnum - PyFloat.of_Z intpart')) ;;
  let days := (x / us_per_day)%Z in
  if ((- max_days <=? days) && (days <=? max_days))%Z then Ok x
  else Raise OverflowError.

(** [td.total_seconds()]: microseconds / 10**6. *)
Definition total_seconds (td : Z) : Result float :=
  PyFloat.truediv_Z td us_per_second.

End Timedelta.

(** ** Python string operations *)

Definition nl : string := String (ascii_of_nat 10) EmptyString.
Definition dquote : string := String (ascii_of_nat 34) EmptyString.

(** [sep.join(parts)] *)
Definition join (sep : string) (parts : list string) : string :=
  String.concat sep parts.

(** [c * n] for a one-character string *)
Fixpoint repeat_char (c : ascii) (n : nat) : string :=
  match n with
  | O => EmptyString
  | S k => String c (repeat_char c k)
  end.

(** [str(n)] for an integer *)
Definition str_of_Z (n : Z) : string :=
  NilZero.string_of_int (Z.to_int n).

(** The digits of [|n|]. *)
Definition digits_of_Z (n : Z) : string :=
  NilZero.string_of_uint (N.to_uint (Z.abs_N n)).

(** [format(n, '0<width>d')]: sign, then the digits padded with zeros
    up to [width] characters in all; never truncated. *)
Definition format_0d (width : nat) (n : Z) : string :=
  let ds := digits_of_Z n in
  if (n <? 0)%Z
  then "-" ++ repeat_char "0" (width - 1 - String.length ds) ++ ds
  else repeat_char "0" (width - String.length ds) ++ ds.

(** ** [TranscriptionFormatter.format_timestamp] *)

(** The four integers that the format string prints:
    [int(hours)], [int(minutes)], [int(seconds)], [milliseconds]. *)
Definition timestamp_fields (seconds : float) : Result (Z * Z * Z * Z) :=
  td <- Timedelta.of_seconds seconds ;;
  total <- Timedelta.total_seconds td ;;
  hr <- PyFloat.divmod total 3600 ;;
  let '(hours, remainder) := hr in
  ms <- PyFloat.divmod remainder 60 ;;
  let '(minutes, seconds) := ms in
  frac <- PyFloat.rem seconds 1 ;;
  milliseconds <- PyFloat.to_Z (frac * 1000)%float ;;
  h <- PyFloat.to_Z hours ;;
  m <- PyFloat.to_Z minutes ;;
  s <- PyFloat.to_Z seconds ;;
  Ok (h, m, s, milliseconds).

Definition render_timestamp (f : Z * Z * Z * Z) : string :=
  let '(h, m, s, ms) := f in
  format_0d 2 h ++ ":" ++ format_0d 2 m ++ ":" ++ format_0d 2 s
    ++ "." ++ format_0d 3 ms.

Definition format_timestamp (seconds : float) : Result string :=
  f <- timestamp_fields seconds ;;
  Ok (render_timestamp f).

(** ** More string operations *)

Definition is_empty (s : string) : bool :=
  match s with
  | EmptyString => true
  | String _ _ => false
  end.

Definition is_nil {A : Type} (l : list A) : bool :=
  match l with
  | [] => true
  | _ :: _ => false
  end.

(** [c.isspace()], which is also the set that [strip] removes: the
    ASCII whitespace and separators, NEXT LINE (133) and NO-BREAK SPACE
    (160). *)
Definition isspace (c : ascii) : bool :=
  let n := nat_of_ascii c in
  ((9 <=? n) && (n <=? 13) || (28 <=? n) && (n <=? 32)
   || (n =? 133) || (n =? 160))%nat.

(** [c.isalnum()]: the ASCII digits and letters, and above them the
    ordinal indicators (170, 186), the superscript digits (178, 179,
    185), the micro sign (181), the fractions (188 to 190) and the
    letters from 192 to 255 but the multiplication sign (215) and the
    division sign (247). *)
Definition isalnum (c : ascii) : bool :=
  let n := nat_of_ascii c in
  ((48 <=? n) && (n <=? 57) || (65 <=? n) && (n <=? 90)
   || (97 <=? n) && (n <=? 122)
   || (n =? 170) || (178 <=? n) && (n <=? 179) || (n =? 181)
   || (185 <=? n) && (n <=? 186) || (188 <=? n) && (n <=? 190)
   || (192 <=? n) && (n <=? 214) || (216 <=? n) && (n <=? 246)
   || (248 <=? n) && (n <=? 255))%nat.

Fixpoint lstrip (s : string) : string :=
  match s with
  | EmptyString => EmptyString
  | String c rest => if isspace c then lstrip rest else s
  end.

Fixpoint rstrip (s : string) : string :=
  match s with
  | EmptyString => EmptyString
  | String c rest =>
      let rest' := rstrip rest in
      if isspace c && is_empty rest' then EmptyString else String c rest'
  end.

(** [s.strip()] *)
Definition strip (s : string) : string := rstrip (lstrip s).

(** [s.upper()] *)
Definition upper_char (c : ascii) : ascii :=
  let n := nat_of_ascii c in
  if ((97 <=? n) && (n <=? 122))%nat then ascii_of_nat (n - 32) else c.

Fixpoint upper (s : string) : string :=
  match s with
  | EmptyString => EmptyString
  | String c rest => String (upper_char c) (upper rest)
  end.

(** [s.replace(old, new)] for one-character [old] and [new] *)
Fixpoint replace (old new : ascii) (s : string) : string :=
  match s with
  | EmptyString => EmptyString
  | String c rest =>
      String (if Ascii.eqb c old then new else c) (replace old new rest)
  end.

(** ["".join(c for c in s if keep(c))] *)
Fixpoint filter_chars (keep : ascii -> bool) (s : string) : string :=
  match s with
  | EmptyString => EmptyString
  | String c rest =>
      if keep c then String c (filter_chars keep rest)
      else filter_chars keep rest
  end.

(** [s.endswith(c)] for a one-character [c] *)
Fixpoint endswith (c : ascii) (s : string) : bool :=
  match s with
  | EmptyString => false
  | String a EmptyString => Ascii.eqb a c
  | String _ rest => endswith c rest
  end.

(** The digits of a number with a comma before every group of three
    counted from the right. *)
Fixpoint group_thousands (ds : string) : string :=
  match ds with
  | EmptyString => EmptyString
  | String c rest =>
      let n := String.length rest in
      String c ((if (0 <? n)%nat && (n mod 3 =? 0)%nat then "," else EmptyString)
                ++ group_thousands rest)
  end.

(** [format(n, ',')] for an integer *)
Definition format_thousands (n : Z) : string :=
  (if (n <? 0)%Z then "-" else EmptyString) ++ group_thousands (digits_of_Z n).

(** [content.encode('utf-8')] on code points below 256. *)
Definition utf8_of_char (c : ascii) : list Byte.byte :=
  let n := N_of_ascii c in
  if (n <? 128)%N then [byte_of_ascii c]
  else [byte_of_ascii (ascii_of_N (N.lor 192 (N.shiftr n 6)));
        byte_of_ascii (ascii_of_N (N.lor 128 (N.land n 63)))].

Fixpoint encode_utf8 (s : string) : list Byte.byte :=
  match s with
  | EmptyString => []
  | String c rest => utf8_of_char c ++ encode_utf8 rest
  end.

(** ** Loops *)

(** [for x in xs: state = body(state, x)], stopping at the first
    exception. *)
Fixpoint for_each {S A : Type} (body : S -> A -> Result S) (xs : list A)
  (state : S) : Result S :=
  match xs with
  | [] => Ok state
  | x :: rest => state' <- body state x ;; for_each body rest state'
  end.

(** [lines.append(a); lines.append(b); ...] *)
Definition extend {A : Type} (lines items : list A) : list A :=
  List.app lines items.

(** [range(0, stop, step)] *)
Definition range_step (stop step : nat) : list nat :=
  map (fun k => (k * step)%nat) (seq 0 ((stop + step - 1) / step)).

(** [xs[i:j]] *)
Definition slice {A : Type} (xs : list A) (i j : nat) : list A :=
  firstn (j - i) (skipn i xs).

(** [enumerate(xs, 1)] *)
Definition enumerate1 {A : Type} (xs : list A) : list (nat * A) :=
  combine (seq 1 (List.length xs)) xs.

(** ** The transcription result and its parts *)

(** [d.get(key, default)] *)
Definition get {A : Type} (field : option A) (default : A) : A :=
  match field with
  | Some v => v
  | None => default
  end.

Record WordData : Type := {
  w_word : option string;
  w_start : option float;
  w_end : option float
}.

Record Segment : Type := {
  seg_start : option float;
  seg_end : option float;
  seg_text : option string
}.

Record TranscriptionData : Type := {
  text : option string;
  words : option (list WordData);
  segments : option (list Segment);
  language : option string;
  duration : option float;
  word_count : option Z;
  segment_count : option Z
}.

Definition empty_data : TranscriptionData :=
  {| text := None; words := None; segments := None; language := None;
     duration := None; word_count := None; segment_count := None |}.

(** ** [TranscriptionFormatter] *)

Module TranscriptionFormatter.

Definition format_plain_text (transcription_data : TranscriptionData) : string :=
  strip (get (text transcription_data) EmptyString).

Definition words_per_line : nat := 8.

(** The body of the inner loop over the words of one line. *)
Definition word_step (word_entries : list string) (word_data : WordData)
  : Result (list string) :=
  let word := strip (get (w_word word_data) EmptyString) in
  let start := get (w_start word_data) 0%float in
  let end_ := get (w_end word_data) 0%float in
  if is_empty word then Ok word_entries
  else
    start_ts <- format_timestamp start ;;
    end_ts <- format_timestamp end_ ;;
    Ok (extend word_entries
          [dquote ++ word ++ dquote ++ " [" ++ start_ts ++ "-" ++ end_ts ++ "]"]).

(** The body of the outer loop over the line starts [i]. *)
Definition line_step (words : list WordData) (formatted_lines : list string)
  (i : nat) : Result (list string) :=
  let line_words := slice words i (i + words_per_line) in
  word_entries <- for_each word_step line_words [] ;;
  if is_nil word_entries then Ok formatted_lines
  else Ok (extend formatted_lines [join " | " word_entries; EmptyString]).

Definition word_header : list string :=
  ["WORD-LEVEL TIMESTAMPS"; repeat_char "=" 50;
   "Each word shown with individual timestamps"; EmptyString].

Definition format_word_timestamps (transcription_data : TranscriptionData)
  : Result string :=
  let words := get (words transcription_data) [] in
  if is_nil words then Ok "No word-level timestamps available."
  else
    formatted_lines <-
      for_each (line_step words)
        (range_step (List.length words) words_per_line) word_header ;;
    Ok (join nl formatted_lines).

Definition segment_header : list string :=
  ["SEGMENT-LEVEL TIMESTAMPS"; repeat_char "=" 50; EmptyString].

Definition segment_step (formatted_lines : list string) (entry : nat * Segment)
  : Result (list string) :=
  let '(i, segment) := entry in
  let start := get (seg_start segment) 0%float in
  let end_ := get (seg_end segment) 0%float in
  let text := strip (get (seg_text segment) EmptyString) in
  if is_empty text then Ok formatted_lines
  else
    start_ts <- format_timestamp start ;;
    end_ts <- format_timestamp end_ ;;
    Ok (extend formatted_lines
          ["Segment " ++ format_0d 3 (Z.of_nat i);
           "Time: " ++ start_ts ++ " --> " ++ end_ts;
           "Text: " ++ text;
           repeat_char "-" 40]).

Definition format_segment_timestamps (transcription_data : TranscriptionData)
  : Result string :=
  let segments := get (segments transcription_data) [] in
  if is_nil segments then Ok "No segment-level timestamps available."
  else
    formatted_lines <-
      for_each segment_step (enumerate1 segments) segment_header ;;
    Ok (join nl formatted_lines).

(** [format_timestamp(x).replace('.', ',')] *)
Definition srt_timestamp (x : float) : Result string :=
  ts <- format_timestamp x ;;
  Ok (replace "." "," ts).

Definition srt_step (srt_lines : list string) (entry : nat * Segment)
  : Result (list string) :=
  let '(i, segment) := entry in
  let start := get (seg_start segment) 0%float in
  let end_ := get (seg_end segment) 0%float in
  let text := strip (get (seg_text segment) EmptyString) in
  if is_empty text then Ok srt_lines
  else
    start_ts <- srt_timestamp start ;;
    end_ts <- srt_timestamp end_ ;;
    Ok (extend srt_lines
          [str_of_Z (Z.of_nat i);
           start_ts ++ " --> " ++ end_ts;
           text;
           EmptyString]).

Definition format_srt_subtitles (transcription_data : TranscriptionData)
  : Result string :=
  let segments := get (segments transcription_data) [] in
  if is_nil segments then Ok "No segments available for SRT format."
  else
    srt_lines <- for_each srt_step (enumerate1 segments) [] ;;
    Ok (join nl srt_lines).

Definition vtt_step (vtt_lines : list string) (segment : Segment)
  : Result (list string) :=
  let start := get (seg_start segment) 0%float in
  let end_ := get (seg_end segment) 0%float in
  let text := strip (get (seg_text segment) EmptyString) in
  if is_empty text then Ok vtt_lines
  else
    start_ts <- format_timestamp start ;;
    end_ts <- format_timestamp end_ ;;
    Ok (extend vtt_lines [start_ts ++ " --> " ++ end_ts; text; EmptyString]).

Definition format_vtt_subtitles (transcription_data : TranscriptionData)
  : Result string :=
  let segments := get (segments transcription_data) [] in
  if is_nil segments then Ok "No segments available for VTT format."
  else
    vtt_lines <- for_each vtt_step segments ["WEBVTT"; EmptyString] ;;
    Ok (join nl vtt_lines).

(** [float(n)] for a Python integer: too large a value raises. *)
Definition float_of_int (n : Z) : Result float :=
  let x := PyFloat.of_Z n in
  if is_infinity x then Raise OverflowError else Ok x.

(** [int(word_count / (duration / 60)) if duration > 0 else 0] *)
Definition words_per_minute (word_count : Z) (duration : float) : Result Z :=
  if (0 <? duration)%float
  then
    a <- float_of_int word_count ;;
    let b := (duration / 60)%float in
    if (b =? 0)%float then Raise ZeroDivisionError
    else PyFloat.to_Z (a / b)%float
  else Ok 0%Z.

(** The summary: a dictionary, as the list of its items in insertion
    order. *)
Definition get_transcription_summary (transcription_data : TranscriptionData)
  : Result (list (string * string)) :=
  let duration := get (duration transcription_data) 0%float in
  let word_count := get (word_count transcription_data) 0%Z in
  let segment_count := get (segment_count transcription_data) 0%Z in
  let language := get (language transcription_data) "unknown" in
  wpm <- words_per_minute word_count duration ;;
  duration_ts <- format_timestamp duration ;;
  Ok [("Duration", duration_ts);
      ("Word Count", format_thousands word_count);
      ("Segments", str_of_Z segment_count);
      ("Language", upper language);
      ("Words per Minute", str_of_Z wpm);
      ("Characters",
        format_thousands
          (Z.of_nat (String.length (get (text transcription_data) EmptyString))))].

End TranscriptionFormatter.

(** ** Slices of strings *)

(** The first [n] characters of a string, all of it when it is shorter. *)
Fixpoint take (n : nat) (s : string) : string :=
  match n, s with
  | O, _ => EmptyString
  | S _, EmptyString => EmptyString
  | S k, String c rest => String c (take k rest)
  end.

(** [s[:stop]] for an integer [stop]: a negative [stop] counts from the
    end of the string. *)
Definition slice_to (s : string) (stop : Z) : string :=
  take (Z.to_nat (if (stop <? 0)%Z then Z.of_nat (String.length s) + stop
                  else stop)) s.

(** ** Whitespace at the ends of a string *)

Definition starts_with_space (s : string) : bool :=
  match s with
  | EmptyString => false
  | String c _ => isspace c
  end.

Fixpoint ends_with_space (s : string) : bool :=
  match s with
  | EmptyString => false
  | String c EmptyString => isspace c
  | String _ rest => ends_with_space rest
  end.

(** ** [str.title] and dictionaries with string keys *)

Definition is_lower (c : ascii) : bool :=
  let n := nat_of_ascii c in ((97 <=? n) && (n <=? 122))%nat.

Definition is_upper (c : ascii) : bool :=
  let n := nat_of_ascii c in ((65 <=? n) && (n <=? 90))%nat.

(** A cased character: a letter. *)
Definition is_cased (c : ascii) : bool := is_upper c || is_lower c.

Definition lower_char (c : ascii) : ascii :=
  if is_upper c then ascii_of_nat (nat_of_ascii c + 32) else c.

(** [s.title()]: a letter that follows a letter is lowered, any other
    letter is raised; [previous_is_cased] tells whether the character
    before was a letter. *)
Fixpoint title_from (previous_is_cased : bool) (s : string) : string :=
  match s with
  | EmptyString => EmptyString
  | String c rest =>
      String (if previous_is_cased then lower_char c else upper_char c)
        (title_from (is_cased c) rest)
  end.

Definition title (s : string) : string := title_from false s.

(** A text of ASCII characters: the texts on which [upper] and [title]
    are the methods of Python. *)
Fixpoint is_ascii (s : string) : bool :=
  match s with
  | EmptyString => true
  | String c rest => (nat_of_ascii c <? 128)%nat && is_ascii rest
  end.

(** [d.get(key, default)] for a dictionary given by its items. *)
Fixpoint dict_get (items : list (string * string)) (key default : string) : string :=
  match items with
  | [] => default
  | (k, v) :: rest => if String.eqb k key then v else dict_get rest key default
  end.

(** ** [config] *)

Module config.
Definition DEFAULT_FILENAME_PREFIX : string := "transcription".
Definition MAX_DISPLAY_LENGTH : Z := 10000.
End config.

(** ** [TranscriptionFormatter.truncate_for_display] *)

(** [max_length] is [None] when the caller leaves it out. *)
Definition truncate_for_display (text : string) (max_length : option Z) : string :=
  let max_length :=
    match max_length with
    | None => config.MAX_DISPLAY_LENGTH
    | Some n => n
    end in
  if (Z.of_nat (String.length text) <=? max_length)%Z then text
  else slice_to text max_length ++ nl ++ nl ++ "... (truncated for display)".

(** ** [DocumentExporter] *)

(** What the exporter asks of the document library: the blocks added to
    a document, in order. *)
Inductive Block : Type :=
| Heading (level : nat) (centered : bool) (text : string)
| Paragraph (text : string)
| RunParagraph (italic bold : bool) (text : string)
| BlankParagraph
| Table (style : string) (rows : list (string * string))
| PageBreak.

Definition Document : Type := list Block.

(** A call of [st.error(prefix + str(e))]. *)
Inductive UiEvent : Type :=
| st_error (prefix : string) (cause : exn).

(** ** The document library

    The exporter adds its blocks through the document library, which
    stores every text in an XML tree: a text with a character that XML
    does not allow (a control character other than tab, newline and
    carriage return) is refused with [ValueError] by the call that
    would store it. *)

Definition xml_char (c : ascii) : bool :=
  let n := nat_of_ascii c in
  ((32 <=? n) || (n =? 9) || (n =? 10) || (n =? 13))%nat.

Fixpoint xml_compatible (text : string) : bool :=
  match text with
  | EmptyString => true
  | String c rest => xml_char c && xml_compatible rest
  end.

(** A call that stores [text] and adds [blocks]. *)
Definition add_text (doc : Document) (text : string) (blocks : list Block)
  : Result Document :=
  if xml_compatible text then Ok (extend doc blocks) else Raise ValueError.

(** [doc.add_heading(text, level)] *)
Definition add_heading (doc : Document) (text : string) (level : nat)
  : Result Document :=
  add_text doc text [Heading level false text].

(** [doc.add_paragraph(text)] *)
Definition add_paragraph (doc : Document) (text : string) : Result Document :=
  add_text doc text [Paragraph text].

(** [doc.add_paragraph().add_run(text)], with the [italic] and [bold] of
    the run. *)
Definition add_run_paragraph (doc : Document) (italic bold : bool) (text : string)
  : Result Document :=
  add_text doc text [RunParagraph italic bold text].

(** [doc.add_table(rows, cols=2)] with its style and the texts of its
    cells, set row by row. *)
Definition add_table (doc : Document) (style : string)
  (rows : list (string * string)) : Result Document :=
  checked <-
    for_each
      (fun (seen : unit) (row : string * string) =>
         if xml_compatible (fst row) && xml_compatible (snd row)
         then Ok seen else Raise ValueError)
      rows tt ;;
  Ok (extend doc [Table style rows]).

Module DocumentExporter.

Import TranscriptionFormatter.

(** The separator of a time range in a document, as the source file
    spells it. *)
Definition arrow : string := "â†’".

Definition create_text_download (content filename : string) : list Byte.byte :=
  encode_utf8 content.

Definition get_filename (base_name format_type file_format : string) : string :=
  let base_name :=
    if is_empty base_name then config.DEFAULT_FILENAME_PREFIX else base_name in
  let clean_name :=
    filter_chars
      (fun c => isalnum c || Ascii.eqb c " " || Ascii.eqb c "-" || Ascii.eqb c "_")
      base_name in
  let clean_name := replace " " "_" clean_name in
  clean_name ++ "_" ++ format_type ++ "." ++ file_format.

Definition _add_summary_section (doc : Document)
  (transcription_data : TranscriptionData) : Result Document :=
  doc <- add_heading doc "Summary" 1 ;;
  summary <- get_transcription_summary transcription_data ;;
  doc <- add_table doc "Table Grid" summary ;;
  Ok (extend doc [PageBreak]).

Definition _add_plain_text_section (doc : Document)
  (transcription_data : TranscriptionData) : Result Document :=
  doc <- add_heading doc "Transcription" 1 ;;
  let text := format_plain_text transcription_data in
  add_paragraph doc text.

Definition _add_timestamped_paragraph (doc : Document) (words : list string)
  (start_time end_time : float) : Result Document :=
  let line_text := join " " words in
  start_ts <- format_timestamp start_time ;;
  end_ts <- format_timestamp end_time ;;
  doc <- add_run_paragraph doc true true
           ("[" ++ start_ts ++ " " ++ arrow ++ " " ++ end_ts ++ "]") ;;
  doc <- add_paragraph doc line_text ;;
  Ok (extend doc [BlankParagraph]).

(** The state of the loop of [_add_word_timestamps_section]:
    the document, [current_line] and [line_start_time]. *)
Definition word_section_step
  (state : Document * list string * option float) (word_data : WordData)
  : Result (Document * list string * option float) :=
  let '(doc, current_line, line_start_time) := state in
  let word := strip (get (w_word word_data) EmptyString) in
  let start := get (w_start word_data) 0%float in
  let end_ := get (w_end word_data) 0%float in
  if is_empty word then Ok state
  else
    let line_start_time :=
      match line_start_time with
      | None => start
      | Some t => t
      end in
    let current_line := extend current_line [word] in
    if (10 <=? List.length current_line)%nat
       || endswith "." word || endswith "!" word || endswith "?" word
    then
      doc <- _add_timestamped_paragraph doc current_line line_start_time end_ ;;
      Ok (doc, [], None)
    else Ok (doc, current_line, Some line_start_time).

Definition _add_word_timestamps_section (doc : Document)
  (transcription_data : TranscriptionData) : Result Document :=
  doc <- add_heading doc "Word-Level Timestamps" 1 ;;
  let words := get (words transcription_data) [] in
  if is_nil words
  then add_paragraph doc "No word-level timestamps available."
  else
    state <- for_each word_section_step words (doc, [], None) ;;
    let '(doc, current_line, line_start_time) := state in
    if is_nil current_line then Ok doc
    else
      let end_time :=
        match last (map Some words) None with
        | Some w => get (w_end w) 0%float
        | None => 0%float
        end in
      let start_time :=
        match line_start_time with
        | Some t => if (t =? 0)%float then 0%float else t
        | None => 0%float
        end in
      _add_timestamped_paragraph doc current_line start_time end_time.

Definition segment_section_step (doc : Document) (entry : nat * Segment)
  : Result Document :=
  let '(i, segment) := entry in
  let start := get (seg_start segment) 0%float in
  let end_ := get (seg_end segment) 0%float in
  let text := strip (get (seg_text segment) EmptyString) in
  if is_empty text then Ok doc
  else
    doc <- add_heading doc ("Segment " ++ format_0d 3 (Z.of_nat i)) 2 ;;
    start_ts <- format_timestamp start ;;
    end_ts <- format_timestamp end_ ;;
    doc <- add_run_paragraph doc true false
             ("Time: " ++ start_ts ++ " " ++ arrow ++ " " ++ end_ts) ;;
    doc <- add_paragraph doc text ;;
    Ok (extend doc [BlankParagraph]).

Definition _add_segment_timestamps_section (doc : Document)
  (transcription_data : TranscriptionData) : Result Document :=
  doc <- add_heading doc "Segment-Level Timestamps" 1 ;;
  let segments := get (segments transcription_data) [] in
  if is_nil segments
  then add_paragraph doc "No segment-level timestamps available."
  else for_each segment_section_step (enumerate1 segments) doc.

(** The body of the [try] block of [create_docx_download], up to
    [doc.save]. *)
Definition assemble_docx (transcription_data : TranscriptionData)
  (format_type : string) : Result Document :=
  doc <- add_text [] "Audio Transcription Report"
           [Heading 0 true "Audio Transcription Report"] ;;
  doc <- _add_summary_section doc transcription_data ;;
  if String.eqb format_type "word_timestamps"
  then _add_word_timestamps_section doc transcription_data
  else if String.eqb format_type "segment_timestamps"
  then _add_segment_timestamps_section doc transcription_data
  else _add_plain_text_section doc transcription_data.

(** [try: ... except Exception as e: st.error(...); return None] *)
Definition try_export (prefix : string) (body : Result (option (list Byte.byte)))
  : option (list Byte.byte) * list UiEvent :=
  match body with
  | Ok payload => (payload, [])
  | Raise e => (None, [st_error prefix e])
  end.

Section Docx.

(** [doc.save(doc_io)] followed by [doc_io.getvalue()]: the
    serialisation of the document library, which may raise. *)
Variable save : Document -> Result (list Byte.byte).

Definition create_docx_download (transcription_data : TranscriptionData)
  (format_type filename : string) : option (list Byte.byte) * list UiEvent :=
  try_export "Error creating DOCX document: "
    (doc <- assemble_docx transcription_data format_type ;;
     payload <- save doc ;;
     Ok (Some payload)).

End Docx.

Definition create_subtitle_download (transcription_data : TranscriptionData)
  (subtitle_format : string) : option (list Byte.byte) * list UiEvent :=
  try_export "Error creating subtitle file: "
    (if String.eqb subtitle_format "srt"
     then content <- format_srt_subtitles transcription_data ;;
          Ok (Some (encode_utf8 content))
     else if String.eqb subtitle_format "vtt"
     then content <- format_vtt_subtitles transcription_data ;;
          Ok (Some (encode_utf8 content))
     else Ok None).

(** The icon of the label, as the source file spells it. *)
Definition label_icon : string := "ðŸ“„".

Definition format_names : list (string * string) :=
  [("plain_text", "Plain Text");
   ("word_timestamps", "Word Timestamps");
   ("segment_timestamps", "Segment Timestamps")].

Definition get_download_button_label (format_type file_format : string) : string :=
  let format_name := dict_get format_names format_type (title format_type) in
  let extension := upper file_format in
  label_icon ++ " Download " ++ format_name ++ " (" ++ extension ++ ")".

End DocumentExporter.

(** ** The renderers read as maps over the items they emit *)

(** [[f(x) for x in xs]], stopping at the first exception. *)
Fixpoint mapM {A B : Type} (f : A -> Result B) (xs : list A) : Result (list B) :=
  match xs with
  | [] => Ok []
  | x :: rest => y <- f x ;; ys <- mapM f rest ;; Ok (y :: ys)
  end.

Module Rendering.

Import TranscriptionFormatter.

(** A segment is emitted when its stripped text is not empty. *)
Definition has_text (segment : Segment) : bool :=
  negb (is_empty (strip (get (seg_text segment) EmptyString))).

Definition stripped_text (segment : Segment) : string :=
  strip (get (seg_text segment) EmptyString).

(** The emitted segments, each with its 1-based position in the whole
    segment list. *)
Definition emitted_segments (segments : list Segment) : list (nat * Segment) :=
  filter (fun entry => has_text (snd entry)) (enumerate1 segments).

(** The number of segments of a list that are not emitted. *)
Definition count_skipped (segments : list Segment) : nat :=
  List.length (filter (fun s => negb (has_text s)) segments).

Definition srt_block (entry : nat * Segment) : Result (list string) :=
  start_ts <- srt_timestamp (get (seg_start (snd entry)) 0%float) ;;
  end_ts <- srt_timestamp (get (seg_end (snd entry)) 0%float) ;;
  Ok [str_of_Z (Z.of_nat (fst entry));
      start_ts ++ " --> " ++ end_ts;
      stripped_text (snd entry);
      EmptyString].

Definition vtt_block (segment : Segment) : Result (list string) :=
  start_ts <- format_timestamp (get (seg_start segment) 0%float) ;;
  end_ts <- format_timestamp (get (seg_end segment) 0%float) ;;
  Ok [start_ts ++ " --> " ++ end_ts; stripped_text segment; EmptyString].

Definition segment_block (entry : nat * Segment) : Result (list string) :=
  start_ts <- format_timestamp (get (seg_start (snd entry)) 0%float) ;;
  end_ts <- format_timestamp (get (seg_end (snd entry)) 0%float) ;;
  Ok ["Segment " ++ format_0d 3 (Z.of_nat (fst entry));
      "Time: " ++ start_ts ++ " --> " ++ end_ts;
      "Text: " ++ stripped_text (snd entry);
      repeat_char "-" 40].

(** A word is rendered when its stripped text is not empty. *)
Definition has_word (word_data : WordData) : bool :=
  negb (is_empty (strip (get (w_word word_data) EmptyString))).

Definition word_entry (word_data : WordData) : Result string :=
  start_ts <- format_timestamp (get (w_start word_data) 0%float) ;;
  end_ts <- format_timestamp (get (w_end word_data) 0%float) ;;
  Ok (dquote ++ strip (get (w_word word_data) EmptyString) ++ dquote
        ++ " [" ++ start_ts ++ "-" ++ end_ts ++ "]").

(** The words in consecutive groups of [words_per_line]. *)
Definition word_groups (words : list WordData) : list (list WordData) :=
  map (fun i => slice words i (i + words_per_line))
    (range_step (List.length words) words_per_line).

(** The lines a group contributes: its entries joined, then a blank
    line; nothing when no word of the group is rendered. *)
Definition group_lines (group : list WordData) : Result (list string) :=
  entries <- mapM word_entry (filter has_word group) ;;
  Ok (if is_nil entries then [] else [join " | " entries; EmptyString]).

End Rendering.

(** ** Reading a rendered number back *)

Definition is_digit (c : ascii) : bool :=
  let n := nat_of_ascii c in ((48 <=? n) && (n <=? 57))%nat.

Fixpoint all_chars (p : ascii -> bool) (s : string) : bool :=
  match s with
  | EmptyString => true
  | String c rest => p c && all_chars p rest
  end.

(** The number a string of decimal digits denotes. *)
Definition value_of_digits (s : string) : option N :=
  option_map N.of_uint (NilEmpty.uint_of_string s).

(** ** The readings of the specification that the code is compared with *)

Module Claimed.

(** The four fields of a timestamp taken by flooring the exact value
    of a non-negative [seconds]: whole hours, minutes and seconds, and
    the floor of the fractional seconds times 1000. *)
Definition timestamp_fields (seconds : float) : option (Z * Z * Z * Z) :=
  let fields (total_ms : Z) :=
    (total_ms / 3600000, (total_ms / 60000) mod 60,
     (total_ms / 1000) mod 60, total_ms mod 1000) in
  match Prim2SF seconds with
  | S754_zero _ => Some (fields 0)
  | S754_finite false m e =>
      Some (fields (PyFloat.floor_Z false (m * 1000) e))
  | _ => None
  end.

(** Word timestamps with a two-line banner before the first group
    and the groups joined by blank lines. *)
Definition word_rendering (group_texts : list string) : string :=
  join nl ["WORD-LEVEL TIMESTAMPS"; repeat_char "=" 50;
           join (nl ++ nl) group_texts].

End Claimed.

(** ** Sample inputs *)

Set Warnings "-inexact-float".

Module Samples.

(** The sample of [test_formatter] in [src/test_app.py]. *)
Definition sample_data : TranscriptionData :=
  {| text := Some "Hello world test";
     words := Some
       [ {| w_word := Some "Hello"; w_start := Some 0.0%float; w_end := Some 0.5%float |};
         {| w_word := Some "world"; w_start := Some 0.6%float; w_end := Some 1.0%float |};
         {| w_word := Some "test"; w_start := Some 1.1%float; w_end := Some 1.5%float |} ];
     segments := Some
       [ {| seg_start := Some 0.0%float; seg_end := Some 1.5%float;
            seg_text := Some "Hello world test" |} ];
     language := Some "en";
     duration := Some 1.5%float;
     word_count := Some 3;
     segment_count := Some 1 |}.

(** Two segments, the first with blank text. *)
Definition blank_then_hello : TranscriptionData :=
  {| text := Some "Hello";
     words := None;
     segments := Some
       [ {| seg_start := Some 0.0%float; seg_end := Some 0.5%float;
            seg_text := Some "  " |};
         {| seg_start := Some 0.5%float; seg_end := Some 1.5%float;
            seg_text := Some "Hello" |} ];
     language := Some "en";
     duration := Some 1.5%float;
     word_count := Some 1;
     segment_count := Some 2 |}.

(** One segment that starts after a billion days. *)
Definition late_segment : TranscriptionData :=
  {| text := None; words := None;
     segments := Some
       [ {| seg_start := Some 1e14%float; seg_end := None;
            seg_text := Some "late" |} ];
     language := None; duration := None; word_count := None;
     segment_count := None |}.

(** Only a duration and a word count, the duration a billion days. *)
Definition long_duration : TranscriptionData :=
  {| text := None; words := None; segments := None; language := None;
     duration := Some 1e14%float; word_count := Some 3;
     segment_count := None |}.

(** Only a duration and a word count, the duration the smallest
    positive float. *)
Definition tiny_duration : TranscriptionData :=
  {| text := None; words := None; segments := None; language := None;
     duration := Some 5e-324%float; word_count := Some 3;
     segment_count := None |}.

(** A text with the control character U+0001, as the text of the
    result, of its only segment and of its only word. *)
Definition control_character : TranscriptionData :=
  let a_b := String "a" (String "001" "b") in
  {| text := Some a_b;
     words := Some
       [ {| w_word := Some a_b; w_start := Some 0.0%float; w_end := Some 0.5%float |} ];
     segments := Some
       [ {| seg_start := Some 0.0%float; seg_end := Some 0.5%float;
            seg_text := Some a_b |} ];
     language := Some "en";
     duration := Some 0.5%float;
     word_count := Some 1;
     segment_count := Some 1 |}.

End Samples.

(** ** Inputs on which every timestamp can be formatted *)

Definition accepted (seconds : float) : Prop :=
  returns (format_timestamp seconds).

(** A time field that is missing, or present and accepted. *)
Definition present_accepted (field : option float) : Prop :=
  match field with
  | Some seconds => accepted seconds
  | None => True
  end.

Definition segment_times_accepted (segment : Segment) : Prop :=
  present_accepted (seg_start segment) /\ present_accepted (seg_end segment).

Definition word_times_accepted (word_data : WordData) : Prop :=
  present_accepted (w_start word_data) /\ present_accepted (w_end word_data).

Definition times_accepted (d : TranscriptionData) : Prop :=
  Forall segment_times_accepted (get (segments d) [])
  /\ Forall word_times_accepted (get (words d) []).

(** [sub in s] *)
Definition contains (sub s : string) : Prop :=
  exists before after, s = before ++ sub ++ after.

(** ** The sections of a document read as maps over the items they emit *)

Module DocxRendering.

Import TranscriptionFormatter.

(** The blocks of an emitted segment in the segment section: the times
    are formatted before the text is stored. *)
Definition segment_blocks (entry : nat * Segment) : Result (list Block) :=
  start_ts <- format_timestamp (get (seg_start (snd entry)) 0%float) ;;
  end_ts <- format_timestamp (get (seg_end (snd entry)) 0%float) ;;
  if xml_compatible (Rendering.stripped_text (snd entry))
  then
    Ok [Heading 2 false ("Segment " ++ format_0d 3 (Z.of_nat (fst entry)));
        RunParagraph true false
          ("Time: " ++ start_ts ++ " " ++ DocumentExporter.arrow ++ " " ++ end_ts);
        Paragraph (Rendering.stripped_text (snd entry));
        BlankParagraph]
  else Raise ValueError.

(** The texts that the segment section stores are all accepted. *)
Definition texts_storable (segments : list Segment) : bool :=
  forallb (fun entry => xml_compatible (Rendering.stripped_text (snd entry)))
    (Rendering.emitted_segments segments).

(** The outcome of two computations, without their values. *)
Definition same_outcome {A B : Type} (r : Result A) (r' : Result B) : Prop :=
  match r, r' with
  | Ok _, Ok _ => True
  | Raise e, Raise e' => e = e'
  | _, _ => False
  end.

(** The stripped text of a word. *)
Definition word_text (word_data : WordData) : string :=
  strip (get (w_word word_data) EmptyString).

(** A word that ends a sentence closes its line. *)
Definition ends_sentence (word : string) : bool :=
  endswith "." word || endswith "!" word || endswith "?" word.

(** The start of the first word and the end of the last word of a list
    of words; [0] for the empty list. *)
Definition line_start (line : list WordData) : float :=
  match line with
  | word_data :: _ => get (w_start word_data) 0%float
  | [] => 0%float
  end.

Definition line_end (line : list WordData) : float :=
  match last (map Some line) None with
  | Some word_data => get (w_end word_data) 0%float
  | None => 0%float
  end.

(** [line_start_time] while [line] is being gathered. *)
Definition start_of (line : list WordData) : option float :=
  match line with
  | [] => None
  | word_data :: _ => Some (get (w_start word_data) 0%float)
  end.

(** [t or 0] for a float [t]. *)
Definition or_zero (t : float) : float :=
  if (t =? 0)%float then 0%float else t.

(** The three blocks of a line of words in the word section. *)
Definition line_blocks (line : list WordData) (start_time end_time : float)
  : Result (list Block) :=
  DocumentExporter._add_timestamped_paragraph [] (map word_text line)
    start_time end_time.

(** A line that the loop has closed: at most ten rendered words, the
    last one the tenth or the first to end a sentence. *)
Definition closed_line (line : list WordData) : Prop :=
  line <> []
  /\ (List.length line <= 10)%nat
  /\ Forall (fun w => Rendering.has_word w = true) line
  /\ Forall (fun w => ends_sentence (word_text w) = false) (removelast line)
  /\ (List.length line = 10%nat
      \/ ends_sentence (last (map word_text line) EmptyString) = true).

(** The words gathered since the last closed line. *)
Definition open_line (line : list WordData) : Prop :=
  (List.length line < 10)%nat
  /\ Forall (fun w => Rendering.has_word w = true) line
  /\ Forall (fun w => ends_sentence (word_text w) = false) line.

End DocxRendering.

(** ** Binary64 values and bounds

    The statements about the range of a computed float measure a
    mantissa and exponent by the integer [m * 2^(e + 4096)]. *)

(** The value [m * 2^e], scaled by [2^4096]: an integer for every
    exponent that the operations of binary64 go through. *)
Definition sv (m e : Z) : Z := m * 2 ^ (e + 4096).

(** A float of sign [s], or a zero, of value at most [b]. *)
Definition at_most (s : bool) (b : Z) (x : spec_float) : Prop :=
  (exists sz, x = S754_zero sz)
  \/ exists m e, x = S754_finite s m e /\ -4096 <= e /\ sv (Zpos m) e <= sv b 0.

(** A float of sign [s], or a zero, of value below [b]. *)
Definition below (s : bool) (b : Z) (x : spec_float) : Prop :=
  (exists sz, x = S754_zero sz)
  \/ exists m e, x = S754_finite s m e /\ -4096 <= e /\ sv (Zpos m) e < sv b 0.

(** The bits lost by a shifted mantissa. *)
Definition inexact (mrs : shr_record) : bool := shr_r mrs || shr_s mrs.

(** What [k] steps of [shr_1] do to a non-negative mantissa. *)
Definition shifted (k : Z) (x y : shr_record) : Prop :=
  shr_m y = shr_m x / 2 ^ k
  /\ (inexact y = true -> inexact x = true \/ shr_m x mod 2 ^ k <> 0)
  /\ (shr_r y = true -> Z.odd (shr_m x / 2 ^ (k - 1)) = true).

(** * Properties *)

(** ** Strings *)

Section StringFacts.

Lemma string_app_assoc (a b c : string) : (a ++ b) ++ c = a ++ (b ++ c).
Proof. induction a as [|x a IH]; simpl; [reflexivity | now rewrite IH]. Qed.

Lemma string_app_nil_r (a : string) : a ++ EmptyString = a.
Proof. induction a as [|x a IH]; simpl; [reflexivity | now rewrite IH]. Qed.

Lemma length_app (a b : string) :
  String.length (a ++ b) = (String.length a + String.length b)%nat.
Proof. induction a as [|x a IH]; simpl; [reflexivity | now rewrite IH]. Qed.

Lemma all_chars_app (p : ascii -> bool) (a b : string) :
  all_chars p (a ++ b) = all_chars p a && all_chars p b.
Proof.
  induction a as [|x a IH]; simpl; [reflexivity |].
  now rewrite IH, andb_assoc.
Qed.

Lemma all_chars_weaken (p q : ascii -> bool) (s : string) :
  (forall c, p c = true -> q c = true) ->
  all_chars p s = true -> all_chars q s = true.
Proof.
  intros Hpq. induction s as [|x s IH]; simpl; [reflexivity |].
  intros H. apply andb_prop in H as [Hx Hs].
  now rewrite (Hpq _ Hx), IH.
Qed.

Lemma replace_app (old new : ascii) (a b : string) :
  replace old new (a ++ b) = replace old new a ++ replace old new b.
Proof. induction a as [|x a IH]; simpl; [reflexivity | now rewrite IH]. Qed.

Lemma replace_absent (old new : ascii) (s : string) :
  all_chars (fun c => negb (Ascii.eqb c old)) s = true ->
  replace old new s = s.
Proof.
  induction s as [|x s IH]; simpl; [reflexivity |].
  intros H. apply andb_prop in H as [Hx Hs].
  apply negb_true_iff in Hx. now rewrite Hx, IH.
Qed.

Lemma repeat_char_length (c : ascii) (n : nat) :
  String.length (repeat_char c n) = n.
Proof. induction n as [|n IH]; simpl; [reflexivity | now rewrite IH]. Qed.

Lemma repeat_char_all (p : ascii -> bool) (c : ascii) (n : nat) :
  p c = true -> all_chars p (repeat_char c n) = true.
Proof. intros Hc. induction n as [|n IH]; simpl; [reflexivity | now rewrite Hc, IH]. Qed.

Lemma is_empty_true (s : string) : is_empty s = true <-> s = EmptyString.
Proof. destruct s; simpl; split; congruence. Qed.

Lemma is_nil_true {A : Type} (l : list A) : is_nil l = true <-> l = [].
Proof. destruct l; simpl; split; congruence. Qed.

End StringFacts.

(** ** Decimal rendering *)

Section DecimalFacts.

Lemma uint_digits (d : Decimal.uint) :
  all_chars is_digit (NilEmpty.string_of_uint d) = true.
Proof. induction d; simpl; auto. Qed.

Lemma to_uint_not_nil (n : N) : N.to_uint n <> Decimal.Nil.
Proof.
  destruct n as [|p]; simpl; [discriminate |].
  apply DecimalPos.Unsigned.to_uint_nonnil.
Qed.

Lemma digits_of_Z_eq (n : Z) :
  digits_of_Z n = NilEmpty.string_of_uint (N.to_uint (Z.abs_N n)).
Proof.
  unfold digits_of_Z, NilZero.string_of_uint.
  pose proof (to_uint_not_nil (Z.abs_N n)) as H.
  destruct (N.to_uint (Z.abs_N n)); congruence.
Qed.

Lemma digits_of_Z_digits (n : Z) : all_chars is_digit (digits_of_Z n) = true.
Proof. rewrite digits_of_Z_eq. apply uint_digits. Qed.

Lemma digits_of_Z_nonempty (n : Z) : (1 <= String.length (digits_of_Z n))%nat.
Proof.
  rewrite digits_of_Z_eq.
  pose proof (to_uint_not_nil (Z.abs_N n)) as H.
  destruct (N.to_uint (Z.abs_N n)); simpl; try congruence; lia.
Qed.

Lemma uint_of_zeros (k : nat) (s : string) (d : Decimal.uint) :
  NilEmpty.uint_of_string s = Some d ->
  exists d', NilEmpty.uint_of_string (repeat_char "0" k ++ s) = Some d'
             /\ N.of_uint d' = N.of_uint d.
Proof.
  intros Hs. induction k as [|k [d' [H1 H2]]]; simpl.
  - now exists d.
  - rewrite H1. simpl. exists (Decimal.D0 d'). split; [reflexivity | exact H2].
Qed.

(** A padded number reads back as the number: padding never drops a
    digit. *)
Lemma value_of_padded (k : nat) (n : Z) :
  value_of_digits (repeat_char "0" k ++ digits_of_Z n) = Some (Z.abs_N n).
Proof.
  unfold value_of_digits. rewrite digits_of_Z_eq.
  destruct (uint_of_zeros k _ _ (NilEmpty.usu (N.to_uint (Z.abs_N n))))
    as [d' [H1 H2]].
  rewrite H1. simpl. now rewrite H2, DecimalN.Unsigned.of_to.
Qed.

Lemma format_0d_nonneg (width : nat) (n : Z) :
  0 <= n ->
  format_0d width n
  = repeat_char "0" (width - String.length (digits_of_Z n)) ++ digits_of_Z n.
Proof.
  intros Hn. unfold format_0d.
  destruct (Z.ltb_spec n 0); [lia | reflexivity].
Qed.

Lemma format_0d_digits (width : nat) (n : Z) :
  0 <= n -> all_chars is_digit (format_0d width n) = true.
Proof.
  intros Hn. rewrite format_0d_nonneg by exact Hn.
  rewrite all_chars_app, digits_of_Z_digits, repeat_char_all; reflexivity.
Qed.

Lemma format_0d_value (width : nat) (n : Z) :
  0 <= n -> value_of_digits (format_0d width n) = Some (Z.to_N n).
Proof.
  intros Hn. rewrite format_0d_nonneg by exact Hn.
  rewrite value_of_padded. f_equal. lia.
Qed.

Lemma format_0d_length (width : nat) (n : Z) :
  0 <= n ->
  String.length (format_0d width n)
  = Nat.max width (String.length (digits_of_Z n)).
Proof.
  intros Hn. rewrite format_0d_nonneg by exact Hn.
  rewrite length_app, repeat_char_length. lia.
Qed.

(** The characters of a rendered integer: digits and the sign. *)
Lemma format_0d_chars (width : nat) (n : Z) :
  all_chars (fun c => is_digit c || Ascii.eqb c "-") (format_0d width n) = true.
Proof.
  assert (Hd : forall s, all_chars is_digit s = true ->
               all_chars (fun c => is_digit c || Ascii.eqb c "-") s = true).
  { intros s. apply all_chars_weaken. intros c Hc. now rewrite Hc. }
  unfold format_0d. destruct (n <? 0)%Z.
  - simpl. rewrite all_chars_app. rewrite !Hd; auto using digits_of_Z_digits.
    now apply repeat_char_all.
  - rewrite all_chars_app. rewrite !Hd; auto using digits_of_Z_digits.
    now apply repeat_char_all.
Qed.

(** Numbers below [10^k] have at most [k] digits: checked on the
    numbers themselves. *)
Lemma digits_below_1000 (n : Z) :
  0 <= n < 1000 ->
  (String.length (digits_of_Z n) <= 3)%nat
  /\ (n < 100 -> (String.length (digits_of_Z n) <= 2)%nat).
Proof.
  intros Hn.
  assert (Hall : forallb (fun k =>
             let s := digits_of_Z (Z.of_nat k) in
             (String.length s <=? 3)%nat
             && ((100 <=? k)%nat || (String.length s <=? 2)%nat))
           (seq 0 1000) = true) by (vm_compute; reflexivity).
  rewrite forallb_forall in Hall.
  specialize (Hall (Z.to_nat n)).
  rewrite Z2Nat.id in Hall by lia.
  assert (Hin : In (Z.to_nat n) (seq 0 1000)) by (apply in_seq; lia).
  apply Hall in Hin. cbv zeta in Hin.
  apply andb_prop in Hin as [H3 H2].
  apply Nat.leb_le in H3. split; [exact H3 |].
  intros Hlt. apply orb_prop in H2 as [H2 | H2].
  - apply Nat.leb_le in H2. lia.
  - now apply Nat.leb_le in H2.
Qed.

Lemma digits_from_100 (n : Z) :
  100 <= n -> (3 <= String.length (digits_of_Z n))%nat.
Proof.
  intros Hn.
  destruct (Nat.le_gt_cases 3 (String.length (digits_of_Z n))) as [H | H];
    [exact H | exfalso].
  pose proof (value_of_padded 0 n) as Hv. simpl in Hv.
  pose proof (digits_of_Z_digits n) as Hd.
  assert (Hfin : forall v : N, Some v = Some (Z.abs_N n) -> (v < 100)%N -> False).
  { intros v Hv' Hlt. injection Hv' as Hv'.
    apply (f_equal Z.of_N) in Hv'. rewrite N2Z.inj_abs_N in Hv'. lia. }
  destruct (digits_of_Z n) as [|a [|b [|c s]]]; simpl in H; try lia;
    unfold value_of_digits in Hv; simpl in Hv, Hd.
  - apply (Hfin _ Hv). reflexivity.
  - destruct a as [[|] [|] [|] [|] [|] [|] [|] [|]]; simpl in Hd, Hv;
      try discriminate Hd; apply (Hfin _ Hv); reflexivity.
  - apply andb_prop in Hd as [Ha Hb].
    apply andb_prop in Hb as [Hb _].
    destruct b as [[|] [|] [|] [|] [|] [|] [|] [|]]; simpl in Hb;
      try discriminate Hb;
      destruct a as [[|] [|] [|] [|] [|] [|] [|] [|]]; simpl in Ha, Hv;
      try discriminate Ha; apply (Hfin _ Hv); reflexivity.
Qed.

End DecimalFacts.

(** ** Timestamps *)

Section Timestamps.

Import TranscriptionFormatter.

Lemma format_timestamp_fields (x : float) (s : string) :
  format_timestamp x = Ok s ->
  exists h m sec ms,
    timestamp_fields x = Ok (h, m, sec, ms)
    /\ s = format_0d 2 h ++ ":" ++ format_0d 2 m ++ ":" ++ format_0d 2 sec
             ++ "." ++ format_0d 3 ms.
Proof.
  unfold format_timestamp. destruct (timestamp_fields x) as [[[[h m] sec] ms]|e];
    simpl; [| discriminate].
  intros [= <-]. now exists h, m, sec, ms.
Qed.

(** Neither a point nor a comma occurs in a rendered integer. *)
Lemma format_0d_no_separator (width : nat) (n : Z) :
  all_chars (fun c => negb (Ascii.eqb c ".") && negb (Ascii.eqb c ","))
    (format_0d width n) = true.
Proof.
  apply all_chars_weaken with (2 := format_0d_chars width n).
  intros c. unfold is_digit.
  destruct c as [[|] [|] [|] [|] [|] [|] [|] [|]]; simpl; intros H;
    try reflexivity; discriminate H.
Qed.

Lemma no_separator_app (a b : string) :
  all_chars (fun c => negb (Ascii.eqb c ".") && negb (Ascii.eqb c ",")) a = true ->
  all_chars (fun c => negb (Ascii.eqb c ".") && negb (Ascii.eqb c ",")) b = true ->
  all_chars (fun c => negb (Ascii.eqb c ".") && negb (Ascii.eqb c ",")) (a ++ b) = true.
Proof. intros Ha Hb. now rewrite all_chars_app, Ha, Hb. Qed.

Lemma replace_no_separator (s : string) :
  all_chars (fun c => negb (Ascii.eqb c ".") && negb (Ascii.eqb c ",")) s = true ->
  replace "." "," s = s.
Proof.
  intros H. apply replace_absent.
  apply all_chars_weaken with (2 := H).
  intros c Hc. now apply andb_prop in Hc as [Hc _].
Qed.

Lemma accepted_default (field : option float) :
  present_accepted field -> accepted (get field 0%float).
Proof.
  destruct field as [x|]; simpl; [trivial |].
  intros _. eexists. vm_compute. reflexivity.
Qed.

(** The two parts of a timestamp around its decimal separator. *)
Lemma format_timestamp_parts (x : float) (s : string) :
  format_timestamp x = Ok s ->
  exists hms mmm,
    s = hms ++ "." ++ mmm
    /\ all_chars (fun c => negb (Ascii.eqb c ".") && negb (Ascii.eqb c ",")) hms = true
    /\ all_chars (fun c => negb (Ascii.eqb c ".") && negb (Ascii.eqb c ",")) mmm = true.
Proof.
  intros H. apply format_timestamp_fields in H as (h & m & sec & ms & _ & ->).
  exists (format_0d 2 h ++ ":" ++ format_0d 2 m ++ ":" ++ format_0d 2 sec),
    (format_0d 3 ms).
  split; [| split].
  - now rewrite !string_app_assoc.
  - repeat apply no_separator_app; auto using format_0d_no_separator.
  - apply format_0d_no_separator.
Qed.

Lemma srt_timestamp_of_parts (x : float) (hms mmm : string) :
  format_timestamp x = Ok (hms ++ "." ++ mmm) ->
  all_chars (fun c => negb (Ascii.eqb c ".") && negb (Ascii.eqb c ",")) hms = true ->
  all_chars (fun c => negb (Ascii.eqb c ".") && negb (Ascii.eqb c ",")) mmm = true ->
  srt_timestamp x = Ok (hms ++ "," ++ mmm).
Proof.
  intros H Hh Hm. unfold srt_timestamp. rewrite H. simpl.
  rewrite !replace_app. simpl.
  now rewrite !replace_no_separator by assumption.
Qed.

(** The block of a segment in the SRT output against its block in the
    VTT output. *)
Lemma srt_block_of_vtt_block (i : nat) (segment : Segment) :
  match Rendering.vtt_block segment with
  | Ok lines =>
      exists range text,
        lines = [range; text; EmptyString]
        /\ Rendering.srt_block (i, segment)
           = Ok [str_of_Z (Z.of_nat i); replace "." "," range; text; EmptyString]
  | Raise e => Rendering.srt_block (i, segment) = Raise e
  end.
Proof.
  unfold Rendering.vtt_block, Rendering.srt_block, srt_timestamp. cbn [fst snd].
  destruct (format_timestamp (get (seg_start segment) 0%float)) as [s|e];
    cbn [bind]; [| reflexivity].
  destruct (format_timestamp (get (seg_end segment) 0%float)) as [t|e];
    cbn [bind]; [| reflexivity].
  eexists _, _. split; [reflexivity |].
  now rewrite !replace_app.
Qed.

End Timestamps.

(** ** Powers of two and binary digits *)

Section Digits.

Lemma digits2_pos_bounds (m : positive) :
  2 ^ (Zpos (digits2_pos m) - 1) <= Zpos m < 2 ^ Zpos (digits2_pos m).
Proof.
  induction m as [m IH | m IH |]; cbn [digits2_pos].
  - rewrite Pos2Z.inj_succ.
    replace (Z.succ (Zpos (digits2_pos m)) - 1) with (Z.succ (Zpos (digits2_pos m) - 1)) by lia.
    rewrite !Z.pow_succ_r by lia. lia.
  - rewrite Pos2Z.inj_succ.
    replace (Z.succ (Zpos (digits2_pos m)) - 1) with (Z.succ (Zpos (digits2_pos m) - 1)) by lia.
    rewrite !Z.pow_succ_r by lia. lia.
  - simpl. lia.
Qed.

(** The number of digits is determined by the bounds. *)
Lemma digits2_pos_unique (m : positive) (d : Z) :
  2 ^ (d - 1) <= Zpos m < 2 ^ d -> 0 < d -> Zpos (digits2_pos m) = d.
Proof.
  intros [Hlo Hhi] Hd.
  pose proof (digits2_pos_bounds m) as [Hlo' Hhi'].
  destruct (Z.lt_trichotomy (Zpos (digits2_pos m)) d) as [H | [H | H]]; [| exact H |].
  - exfalso.
    assert (2 ^ Zpos (digits2_pos m) <= 2 ^ (d - 1)) by (apply Z.pow_le_mono_r; lia).
    lia.
  - exfalso.
    assert (2 ^ d <= 2 ^ (Zpos (digits2_pos m) - 1)) by (apply Z.pow_le_mono_r; lia).
    lia.
Qed.

Lemma iter_xO_value (m d : positive) :
  Zpos (Pos.iter xO m d) = Zpos m * 2 ^ Zpos d.
Proof.
  revert m. induction d as [|d IH] using Pos.peano_ind; intros m.
  - simpl. lia.
  - rewrite Pos.iter_succ, Pos2Z.inj_succ, Z.pow_succ_r by lia.
    rewrite Pos2Z.inj_xO, IH. lia.
Qed.

Lemma digits2_pos_shift (m d : positive) :
  Zpos (digits2_pos (Pos.iter xO m d)) = Zpos (digits2_pos m) + Zpos d.
Proof.
  apply digits2_pos_unique; [| lia].
  rewrite iter_xO_value.
  pose proof (digits2_pos_bounds m) as [Hlo Hhi].
  replace (Zpos (digits2_pos m) + Zpos d - 1) with ((Zpos (digits2_pos m) - 1) + Zpos d) by lia.
  rewrite !Z.pow_add_r by lia.
  assert (0 < 2 ^ Zpos d) by (apply Z.pow_pos_nonneg; lia).
  nia.
Qed.

End Digits.

Section Exact.

Lemma fexp_eq (d : Z) : fexp prec emax d = Z.max (d - 53) (-1074).
Proof. reflexivity. Qed.

Lemma binary_round_aux_canonical (s : bool) (mz : positive) (ez : Z) :
  fexp prec emax (Zpos (digits2_pos mz) + ez) = ez -> ez <= 971 ->
  binary_round_aux prec emax s (Zpos mz) ez loc_Exact = S754_finite s mz ez.
Proof.
  intros Hc He. unfold binary_round_aux, shr_fexp.
  cbn [Zdigits2]. rewrite Hc, Z.sub_diag. cbn [shr shr_record_of_loc].
  cbn [shr_m loc_of_shr_record round_nearest_even Zdigits2].
  rewrite Hc, Z.sub_diag. cbn [shr shr_record_of_loc shr_m].
  replace (emax - prec) with 971 by reflexivity.
  destruct (Z.leb_spec ez 971); [reflexivity | lia].
Qed.

Lemma binary_round_exact (s : bool) (r : positive) (e : Z) :
  Zpos (digits2_pos r) <= 53 -> -1074 <= e <= 971 ->
  exists r' e',
    binary_round prec emax s r e = S754_finite s r' e'
    /\ valid_binary (S754_finite s r' e') = true
    /\ e' <= e /\ Zpos r' = Zpos r * 2 ^ (e - e').
Proof.
  intros Hd He. unfold binary_round.
  pose proof (fexp_eq (Zpos (digits2_pos r) + e)) as Hg.
  remember (fexp prec emax (Zpos (digits2_pos r) + e)) as g eqn:Hgdef.
  assert (Hge : g <= e) by lia.
  unfold shl_align.
  destruct (g - e) as [|p|p] eqn:Hsub; try lia.
  - assert (Hc : fexp prec emax (Zpos (digits2_pos r) + e) = e) by (rewrite <- Hgdef; lia).
    clear Hgdef.
    exists r, e. rewrite (binary_round_aux_canonical s r e Hc) by lia.
    split; [reflexivity |]. split.
    + cbn [SpecFloat.valid_binary bounded canonical_mantissa].
      replace (emax - prec) with 971 by reflexivity.
      apply andb_true_intro. split; [apply Z.eqb_eq; exact Hc | apply Z.leb_le; unfold emax, prec; lia].
    + split; [lia |]. rewrite Z.sub_diag. simpl. lia.
  - assert (Hc : fexp prec emax (Zpos (digits2_pos (Pos.iter xO r p)) + g) = g).
    { rewrite digits2_pos_shift, fexp_eq.
      replace (Zpos (digits2_pos r) + Zpos p + g) with (Zpos (digits2_pos r) + e) by lia.
      lia. }
    clear Hgdef.
    exists (Pos.iter xO r p), g. rewrite binary_round_aux_canonical by lia.
    split; [reflexivity |]. split.
    + cbn [SpecFloat.valid_binary bounded canonical_mantissa].
      replace (emax - prec) with 971 by reflexivity.
      apply andb_true_intro. split; [apply Z.eqb_eq; exact Hc | apply Z.leb_le; unfold emax, prec; lia].
    + split; [lia |]. rewrite iter_xO_value. f_equal. f_equal. lia.
Qed.

Lemma binary_normalize_exact (s : bool) (r : positive) (e : Z) :
  Zpos (digits2_pos r) <= 53 -> -1074 <= e <= 971 ->
  exists r' e',
    binary_normalize prec emax (if s then Zneg r else Zpos r) e false
    = S754_finite s r' e'
    /\ valid_binary (S754_finite s r' e') = true
    /\ e' <= e /\ Zpos r' = Zpos r * 2 ^ (e - e').
Proof.
  intros Hd He. destruct s; cbn [binary_normalize];
    now apply binary_round_exact.
Qed.

(** What validity says of the mantissa and exponent. *)
Lemma valid_finite (s : bool) (m : positive) (e : Z) :
  valid_binary (S754_finite s m e) = true ->
  Zpos (digits2_pos m) <= 53 /\ -1074 <= e <= 971.
Proof.
  cbn [SpecFloat.valid_binary bounded canonical_mantissa].
  replace (emax - prec) with 971 by reflexivity.
  intros H. apply andb_prop in H as [Hc He].
  apply Z.eqb_eq in Hc. apply Z.leb_le in He. rewrite fexp_eq in Hc.
  unfold emax, prec in He. lia.
Qed.

Lemma digits_le_53 (m : positive) :
  Zpos m < 2 ^ 53 -> Zpos (digits2_pos m) <= 53.
Proof.
  intros H. pose proof (digits2_pos_bounds m) as [Hlo _].
  destruct (Z.le_gt_cases (Zpos (digits2_pos m)) 53) as [Hle | Hgt]; [exact Hle |].
  assert (2 ^ 53 <= 2 ^ (Zpos (digits2_pos m) - 1)) by (apply Z.pow_le_mono_r; lia).
  lia.
Qed.

Lemma digits_53_lt (m : positive) :
  Zpos (digits2_pos m) <= 53 -> Zpos m < 2 ^ 53.
Proof.
  intros H. pose proof (digits2_pos_bounds m) as [_ Hhi].
  assert (2 ^ Zpos (digits2_pos m) <= 2 ^ 53) by (apply Z.pow_le_mono_r; lia).
  lia.
Qed.

End Exact.

(** ** Shifting a mantissa to the right *)

Section Shr.

Lemma shr_1_shifted (x : shr_record) : 0 <= shr_m x -> shifted 1 x (shr_1 x).
Proof.
  destruct x as [m r s]. cbn [shr_m]. intros Hm. unfold shifted, inexact.
  change (2 ^ 1) with 2. change (2 ^ (1 - 1)) with 1. rewrite Z.div_1_r.
  destruct m as [|p|p]; [| | lia]; cbn [shr_1 shr_m shr_r shr_s].
  - repeat split; try discriminate.
    intros H. left. exact H.
  - destruct p as [p|p|]; cbn [shr_m shr_r shr_s].
    + split; [rewrite Pos2Z.inj_xI; apply Z.div_unique with 1; lia |].
      split; [| reflexivity].
      intros _. right. rewrite Pos2Z.inj_xI.
      replace (2 * Zpos p + 1) with (1 + Zpos p * 2) by lia.
      rewrite Z.mod_add by lia. discriminate.
    + split; [rewrite Pos2Z.inj_xO; apply Z.div_unique with 0; lia |].
      split; [| discriminate].
      intros H. left. exact H.
    + split; [reflexivity |]. split; [| reflexivity].
      intros _. right. discriminate.
Qed.

Lemma shifted_nonneg (k : Z) (x y : shr_record) :
  0 <= k -> 0 <= shr_m x -> shifted k x y -> 0 <= shr_m y.
Proof.
  intros Hk Hx (Hm & _). rewrite Hm. apply Z.div_pos; [exact Hx |].
  apply Z.pow_pos_nonneg; lia.
Qed.

Lemma shifted_compose (a b : Z) (x y z : shr_record) :
  1 <= a -> 1 <= b -> 0 <= shr_m x ->
  shifted a x y -> shifted b y z -> shifted (a + b) x z.
Proof.
  intros Ha Hb Hx (Hm1 & Hi1 & Hr1) (Hm2 & Hi2 & Hr2).
  assert (Hpa : 0 < 2 ^ a) by (apply Z.pow_pos_nonneg; lia).
  assert (Hpb : 0 < 2 ^ b) by (apply Z.pow_pos_nonneg; lia).
  unfold shifted. split; [| split].
  - rewrite Hm2, Hm1, Z.pow_add_r by lia. now rewrite Z.div_div by lia.
  - intros Hz. rewrite Z.pow_add_r by lia.
    rewrite Z.rem_mul_r by lia.
    assert (0 <= shr_m x mod 2 ^ a) by (apply Z.mod_pos_bound; lia).
    assert (0 <= (shr_m x / 2 ^ a) mod 2 ^ b) by (apply Z.mod_pos_bound; lia).
    destruct (Hi2 Hz) as [Hy | Hy].
    + destruct (Hi1 Hy) as [H1 | H1]; [now left | right]. nia.
    + right. rewrite Hm1 in Hy. nia.
  - intros Hz. specialize (Hr2 Hz). rewrite Hm1 in Hr2.
    assert (Hpb1 : 0 < 2 ^ (b - 1)) by (apply Z.pow_pos_nonneg; lia).
    rewrite Z.div_div in Hr2 by lia.
    rewrite <- Z.pow_add_r in Hr2 by lia.
    now replace (a + b - 1) with (a + (b - 1)) by lia.
Qed.

Lemma iter_shr_1_shifted (n : positive) :
  forall x, 0 <= shr_m x -> shifted (Zpos n) x (iter_pos shr_1 n x).
Proof.
  induction n as [n IH | n IH |]; intros x Hx; cbn [iter_pos].
  - pose proof (shr_1_shifted x Hx) as H1.
    pose proof (shifted_nonneg 1 _ _ ltac:(lia) Hx H1) as Hx1.
    pose proof (IH _ Hx1) as H2.
    pose proof (shifted_nonneg (Zpos n) _ _ ltac:(lia) Hx1 H2) as Hx2.
    pose proof (IH _ Hx2) as H3.
    pose proof (shifted_compose 1 (Zpos n) _ _ _ ltac:(lia) ltac:(lia) Hx H1 H2) as H12.
    pose proof (shifted_compose (1 + Zpos n) (Zpos n) _ _ _ ltac:(lia) ltac:(lia)
                  Hx H12 H3) as H123.
    now replace (Zpos n~1) with (1 + Zpos n + Zpos n) by lia.
  - pose proof (IH _ Hx) as H1.
    pose proof (shifted_nonneg (Zpos n) _ _ ltac:(lia) Hx H1) as Hx1.
    pose proof (IH _ Hx1) as H2.
    pose proof (shifted_compose (Zpos n) (Zpos n) _ _ _ ltac:(lia) ltac:(lia)
                  Hx H1 H2) as H12.
    now replace (Zpos n~0) with (Zpos n + Zpos n) by lia.
  - now apply shr_1_shifted.
Qed.

(** Rounding to nearest moves the mantissa up by at most one, and only
    when the round bit is set. *)
Lemma round_nearest_even_cases (mrs : shr_record) :
  round_nearest_even (shr_m mrs) (loc_of_shr_record mrs) = shr_m mrs
  \/ (round_nearest_even (shr_m mrs) (loc_of_shr_record mrs) = shr_m mrs + 1
      /\ shr_r mrs = true).
Proof.
  destruct mrs as [m [|] [|]]; cbn [shr_m shr_r loc_of_shr_record round_nearest_even];
    auto.
  destruct (Z.even m); auto.
Qed.

Lemma loc_of_record_of_loc (m : Z) (l : location) :
  loc_of_shr_record (shr_record_of_loc m l) = l.
Proof. destruct l as [|[| |]]; reflexivity. Qed.

Lemma shr_m_record_of_loc (m : Z) (l : location) :
  shr_m (shr_record_of_loc m l) = m.
Proof. destruct l as [|[| |]]; reflexivity. Qed.

Lemma inexact_record_of_loc (m : Z) (l : location) :
  inexact (shr_record_of_loc m l) = true -> l <> loc_Exact.
Proof. destruct l as [|[| |]]; cbn; congruence. Qed.

Lemma shr_r_inexact (mrs : shr_record) : shr_r mrs = true -> inexact mrs = true.
Proof. unfold inexact. now intros ->. Qed.

End Shr.

(** ** Values as scaled integers *)

Section Scaled.

Lemma pow2_pos (q : Z) : 0 <= q -> 0 < 2 ^ q.
Proof. intros. apply Z.pow_pos_nonneg; lia. Qed.

Lemma sv_shift (m e d : Z) :
  0 <= d -> -4096 <= e - d -> sv (m * 2 ^ d) (e - d) = sv m e.
Proof.
  intros Hd He. unfold sv.
  replace (e + 4096) with (d + (e - d + 4096)) by lia.
  rewrite (Z.pow_add_r 2 d (e - d + 4096)) by lia. ring.
Qed.

Lemma sv_le (m m' e : Z) : -4096 <= e -> m <= m' -> sv m e <= sv m' e.
Proof.
  intros He Hm. unfold sv. pose proof (pow2_pos (e + 4096) ltac:(lia)). nia.
Qed.

Lemma sv_lt (m m' e : Z) : -4096 <= e -> m < m' -> sv m e < sv m' e.
Proof.
  intros He Hm. unfold sv. pose proof (pow2_pos (e + 4096) ltac:(lia)). nia.
Qed.

Lemma sv_lt_inv (m m' e : Z) : -4096 <= e -> sv m e < sv m' e -> m < m'.
Proof.
  intros He Hm. unfold sv in Hm. pose proof (pow2_pos (e + 4096) ltac:(lia)). nia.
Qed.

Lemma sv_le_inv (m m' e : Z) : -4096 <= e -> sv m e <= sv m' e -> m <= m'.
Proof.
  intros He Hm. unfold sv in Hm. pose proof (pow2_pos (e + 4096) ltac:(lia)). nia.
Qed.

(** An integer bound on the grid of a non-positive exponent. *)
Lemma sv_bound_grid (b g : Z) :
  -4096 <= g <= 0 -> sv b 0 = sv (b * 2 ^ (- g)) g.
Proof.
  intros Hg. rewrite <- (sv_shift b 0 (- g)) by lia. f_equal. lia.
Qed.

(** Dropping [n] low bits: the value does not grow, and it shrinks when
    a dropped bit is set. *)
Lemma sv_div (m e n : Z) :
  0 <= m -> 0 <= n -> -4096 <= e ->
  sv (m / 2 ^ n) (e + n) <= sv m e
  /\ (m mod 2 ^ n <> 0 -> sv (m / 2 ^ n) (e + n) < sv m e).
Proof.
  intros Hm Hn He.
  pose proof (pow2_pos n Hn) as Hp.
  pose proof (Z.div_mod m (2 ^ n) ltac:(lia)) as Hdm.
  pose proof (Z.mod_pos_bound m (2 ^ n) Hp) as Hmod.
  rewrite <- (sv_shift (m / 2 ^ n) (e + n) n) by lia.
  replace (e + n - n) with e by lia.
  split.
  - apply sv_le; [lia | nia].
  - intros Hne. apply sv_lt; [lia | nia].
Qed.

Lemma Zdigits2_bounds (m : Z) :
  0 < m -> 2 ^ (Zdigits2 m - 1) <= m < 2 ^ Zdigits2 m.
Proof.
  destruct m as [|p|p]; try lia. intros _. apply digits2_pos_bounds.
Qed.

Lemma Zdigits2_nonneg (m : Z) : 0 <= Zdigits2 m.
Proof. destruct m; simpl; lia. Qed.

(** A value below [2^53] has its digits below position 53. *)
Lemma digits_of_bounded (m e b : Z) :
  0 < m -> -4096 <= e -> 0 < b < 2 ^ 53 -> sv m e <= sv b 0 ->
  Zdigits2 m + e <= 53.
Proof.
  intros Hm He Hb Hle.
  pose proof (Zdigits2_bounds m Hm) as [Hlo _].
  pose proof (Zdigits2_nonneg m) as Hd.
  destruct (Z.le_gt_cases (Zdigits2 m + e) 53) as [H | H]; [exact H | exfalso].
  assert (Hd1 : 1 <= Zdigits2 m).
  { destruct (Z.eq_dec (Zdigits2 m) 0) as [H0 | H0]; [| lia].
    destruct m; simpl in H0; lia. }
  assert (H1 : sv (2 ^ (Zdigits2 m - 1)) e <= sv m e) by (apply sv_le; lia).
  assert (H2 : sv b 0 < sv (2 ^ 53) 0) by (apply sv_lt; lia).
  unfold sv in H1, H2, Hle.
  rewrite <- Z.pow_add_r in H1, H2 by lia.
  assert (H3 : 2 ^ (53 + (0 + 4096)) <= 2 ^ (Zdigits2 m - 1 + (e + 4096)))
    by (apply Z.pow_le_mono_r; lia).
  revert H1 H2 Hle H3.
  generalize (2 ^ (53 + (0 + 4096))) (2 ^ (Zdigits2 m - 1 + (e + 4096)))
    (b * 2 ^ (0 + 4096)) (m * 2 ^ (e + 4096)).
  intros. lia.
Qed.

End Scaled.

(** ** Bounds that rounding preserves *)

Section Rounding.

Lemma shr_fexp_cases (m e : Z) (loc : location) :
  0 <= m ->
  exists mrs' e',
    shr_fexp prec emax m e loc = (mrs', e')
    /\ ((fexp prec emax (Zdigits2 m + e) - e <= 0
         /\ mrs' = shr_record_of_loc m loc /\ e' = e)
        \/ (0 < fexp prec emax (Zdigits2 m + e) - e
            /\ shifted (fexp prec emax (Zdigits2 m + e) - e)
                 (shr_record_of_loc m loc) mrs'
            /\ e' = fexp prec emax (Zdigits2 m + e))).
Proof.
  intros Hm. unfold shr_fexp, shr.
  destruct (fexp prec emax (Zdigits2 m + e) - e) as [|p|p] eqn:Hn.
  - eexists _, _. split; [reflexivity |]. left. repeat split; lia.
  - eexists _, _. split; [reflexivity |]. right.
    split; [lia |]. split; [| lia].
    apply iter_shr_1_shifted. now rewrite shr_m_record_of_loc.
  - eexists _, _. split; [reflexivity |]. left. repeat split; lia.
Qed.

(** The shift that follows the rounding only drops bits. *)
Lemma shr_fexp_exact_le (m e : Z) :
  0 <= m -> -4096 <= e ->
  exists mrs' e',
    shr_fexp prec emax m e loc_Exact = (mrs', e')
    /\ 0 <= shr_m mrs' /\ -4096 <= e' /\ sv (shr_m mrs') e' <= sv m e.
Proof.
  intros Hm He.
  destruct (shr_fexp_cases m e loc_Exact Hm) as (mrs' & e' & Heq & Hc).
  exists mrs', e'. split; [exact Heq |].
  destruct Hc as [(Hn & -> & ->) | (Hn & (Hsm & _) & ->)].
  - cbn [shr_record_of_loc shr_m]. repeat split; lia.
  - cbn [shr_record_of_loc shr_m] in Hsm. rewrite Hsm.
    set (n := fexp prec emax (Zdigits2 m + e) - e) in *.
    assert (Hp : 0 < 2 ^ n) by (apply pow2_pos; lia).
    split; [apply Z.div_pos; lia |]. split; [lia |].
    replace (fexp prec emax (Zdigits2 m + e)) with (e + n) by lia.
    apply sv_div; lia.
Qed.

(** The first shift and the rounding keep a value within an integer
    bound. *)
Lemma round_le (m e : Z) (loc : location) (b : Z) :
  0 <= m -> -4096 <= e <= 0 -> 0 < b < 2 ^ 53 ->
  sv m e <= sv b 0 -> (loc <> loc_Exact -> sv m e < sv b 0) ->
  exists mrs' e',
    shr_fexp prec emax m e loc = (mrs', e')
    /\ 0 <= round_nearest_even (shr_m mrs') (loc_of_shr_record mrs')
    /\ -4096 <= e'
    /\ sv (round_nearest_even (shr_m mrs') (loc_of_shr_record mrs')) e' <= sv b 0.
Proof.
  intros Hm He Hb Hle Hlt.
  destruct (shr_fexp_cases m e loc Hm) as (mrs' & e' & Heq & Hc).
  exists mrs', e'. split; [exact Heq |].
  (* the exponent after the shift is not positive *)
  assert (Hg : fexp prec emax (Zdigits2 m + e) <= 0).
  { rewrite fexp_eq. destruct (Z.eq_dec m 0) as [-> | Hm0].
    - simpl. lia.
    - pose proof (digits_of_bounded m e b ltac:(lia) ltac:(lia) Hb Hle). lia. }
  assert (Hg' : -1074 <= fexp prec emax (Zdigits2 m + e)) by (rewrite fexp_eq; lia).
  assert (Hm1 : 0 <= shr_m mrs' /\ -4096 <= e' <= 0
                /\ sv (shr_m mrs') e' <= sv b 0
                /\ (inexact mrs' = true -> sv (shr_m mrs') e' < sv b 0)).
  { destruct Hc as [(Hn & -> & ->) | (Hn & (Hsm & Hin & _) & ->)].
    - rewrite shr_m_record_of_loc. repeat split; try lia.
      intros Hi. apply Hlt. now apply inexact_record_of_loc in Hi.
    - rewrite shr_m_record_of_loc in Hsm, Hin.
      set (n := fexp prec emax (Zdigits2 m + e) - e) in *.
      assert (Hp : 0 < 2 ^ n) by (apply pow2_pos; lia).
      pose proof (sv_div m e n Hm ltac:(lia) ltac:(lia)) as [Hd1 Hd2].
      replace (fexp prec emax (Zdigits2 m + e)) with (e + n) in * by lia.
      rewrite Hsm.
      split; [apply Z.div_pos; lia |]. split; [lia |]. split; [lia |].
      intros Hi. destruct (Hin Hi) as [Hi' | Hi'].
      + apply inexact_record_of_loc in Hi'. specialize (Hlt Hi'). lia.
      + specialize (Hd2 Hi'). lia. }
  destruct Hm1 as (Hm1 & He' & Hle1 & Hlt1).
  destruct (round_nearest_even_cases mrs') as [-> | [-> Hr]].
  - repeat split; lia.
  - apply shr_r_inexact in Hr. specialize (Hlt1 Hr).
    rewrite (sv_bound_grid b e') in * by lia.
    apply sv_lt_inv in Hlt1; [| lia].
    repeat split; try lia.
    apply sv_le; lia.
Qed.

Lemma finite_not_huge (m : positive) (e b : Z) :
  -4096 <= e -> 0 < b < 2 ^ 53 -> sv (Zpos m) e <= sv b 0 -> e <= 971.
Proof.
  intros He Hb Hle.
  destruct (Z.le_gt_cases e 971) as [H | H]; [exact H | exfalso].
  assert (H1 : sv 1 e <= sv (Zpos m) e) by (apply sv_le; lia).
  assert (H2 : sv b 0 < sv (2 ^ 53) 0) by (apply sv_lt; lia).
  unfold sv in H1, H2, Hle. rewrite <- Z.pow_add_r in H2 by lia.
  assert (H3 : 2 ^ (53 + (0 + 4096)) <= 2 ^ (e + 4096))
    by (apply Z.pow_le_mono_r; lia).
  rewrite Z.mul_1_l in H1.
  revert H1 H2 Hle H3.
  generalize (2 ^ (53 + (0 + 4096))) (2 ^ (e + 4096))
    (b * 2 ^ (0 + 4096)).
  intros. nia.
Qed.

(** Rounding a non-negative value that an integer bounds gives a
    float that the integer bounds. *)
Lemma binary_round_aux_at_most (s : bool) (m e : Z) (loc : location) (b : Z) :
  0 <= m -> -4096 <= e <= 0 -> 0 < b < 2 ^ 53 ->
  sv m e <= sv b 0 -> (loc <> loc_Exact -> sv m e < sv b 0) ->
  at_most s b (binary_round_aux prec emax s m e loc).
Proof.
  intros Hm He Hb Hle Hlt.
  destruct (round_le m e loc b Hm He Hb Hle Hlt)
    as (mrs' & e' & Heq1 & Hm2 & He' & Hle2).
  destruct (shr_fexp_exact_le _ e' Hm2 He') as (mrs'' & e'' & Heq2 & Hm3 & He'' & Hle3).
  unfold binary_round_aux. rewrite Heq1, Heq2.
  destruct (shr_m mrs'') as [|m3|m3] eqn:Hm3eq; [left; now eexists | | lia].
  right. exists m3, e''.
  assert (Hle4 : sv (Zpos m3) e'' <= sv b 0) by lia.
  pose proof (finite_not_huge m3 e'' b He'' Hb Hle4) as Hsmall.
  replace (emax - prec) with 971 by reflexivity.
  destruct (Z.leb_spec e'' 971); [| lia].
  repeat split; assumption.
Qed.

End Rounding.

Section Nearest.

(** Rounding to nearest a value that stays a relative [2^-53] under an
    integer gives a float under that integer. *)
Lemma round_lt (m e b : Z) :
  0 < m -> -4096 <= e <= 0 -> 0 < b < 2 ^ 53 ->
  sv m e * 2 ^ 53 <= sv b 0 * (2 ^ 53 - 1) ->
  exists mrs' e',
    shr_fexp prec emax m e loc_Exact = (mrs', e')
    /\ 0 <= round_nearest_even (shr_m mrs') (loc_of_shr_record mrs')
    /\ -4096 <= e'
    /\ sv (round_nearest_even (shr_m mrs') (loc_of_shr_record mrs')) e' < sv b 0.
Proof.
  intros Hm He Hb Hrel.
  assert (HB : 0 < sv b 0).
  { unfold sv. apply Z.mul_pos_pos; [lia | apply pow2_pos; lia]. }
  assert (Hlt : sv m e < sv b 0) by lia.
  destruct (shr_fexp_cases m e loc_Exact ltac:(lia)) as (mrs' & e' & Heq & Hc).
  exists mrs', e'. split; [exact Heq |].
  pose proof (digits_of_bounded m e b Hm ltac:(lia) Hb ltac:(lia)) as HD.
  pose proof (fexp_eq (Zdigits2 m + e)) as Hg.
  destruct Hc as [(Hn & -> & ->) | (Hn & (Hsm & _ & Hr) & ->)].
  - cbn [shr_record_of_loc shr_m loc_of_shr_record round_nearest_even].
    repeat split; lia.
  - cbn [shr_record_of_loc shr_m] in Hsm, Hr.
    remember (fexp prec emax (Zdigits2 m + e)) as g eqn:Hgdef. clear Hgdef.
    remember (g - e) as n eqn:Hndef.
    assert (Hge : g = e + n) by lia. clear Hndef.
    assert (Hp : 0 < 2 ^ n) by (apply pow2_pos; lia).
    assert (Hp1 : 0 < 2 ^ (n - 1)) by (apply pow2_pos; lia).
    assert (Hpn : 2 ^ n = 2 * 2 ^ (n - 1)).
    { replace n with (1 + (n - 1)) at 1 by lia. rewrite Z.pow_add_r by lia. reflexivity. }
    pose proof (sv_div m e n ltac:(lia) ltac:(lia) ltac:(lia)) as [Hd1 _].
    rewrite <- Hge in Hd1.
    assert (Hm1 : 0 <= m / 2 ^ n) by (apply Z.div_pos; lia).
    destruct (round_nearest_even_cases mrs') as [-> | [-> Hrb]].
    + rewrite Hsm. repeat split; lia.
    + rewrite Hsm. split; [lia |]. split; [lia |].
      specialize (Hr Hrb).
      (* the dropped bits are at least half a unit *)
      set (h := m / 2 ^ (n - 1)) in *.
      assert (Hh2 : m / 2 ^ n = h / 2).
      { unfold h. rewrite Hpn, (Z.mul_comm 2), Z.div_div by lia. reflexivity. }
      assert (Hodd : h = 2 * (h / 2) + 1).
      { rewrite (Z.div_mod h 2) at 1 by lia.
        rewrite Zmod_odd, Hr. lia. }
      assert (Hmh : h * 2 ^ (n - 1) <= m).
      { unfold h. rewrite Z.mul_comm. apply Z.mul_div_le. lia. }
      destruct (Z.lt_ge_cases (sv (m / 2 ^ n + 1) g) (sv b 0)) as [Hok | Hbad];
        [exact Hok | exfalso].
      (* otherwise the bound is below a unit in the last place *)
      assert (HA : 0 < 2 ^ (e + 4096)) by (apply pow2_pos; lia).
      assert (Hsvg : sv (m / 2 ^ n + 1) g = (h / 2 + 1) * (2 * 2 ^ (n - 1)) * 2 ^ (e + 4096)).
      { unfold sv. rewrite Hh2, Hge.
        replace (e + n + 4096) with (n + (e + 4096)) by lia.
        rewrite (Z.pow_add_r 2 n (e + 4096)), Hpn by lia. ring. }
      assert (Hsm' : sv m e = m * 2 ^ (e + 4096)) by reflexivity.
      assert (Hsmall : sv b 0 <= 2 ^ (n - 1) * 2 ^ (e + 4096) * 2 ^ 53).
      { rewrite Hsvg in Hbad. rewrite Hsm' in Hrel.
        set (A := 2 ^ (e + 4096)) in *. set (P := 2 ^ (n - 1)) in *.
        set (B := sv b 0) in *.
        assert (Hma : (2 * (h / 2) + 1) * P * A <= m * A) by nia.
        assert (HmB : B - P * A <= m * A) by nia.
        assert ((B - P * A) * 2 ^ 53 <= m * A * 2 ^ 53) by nia.
        nia. }
      rewrite <- !Z.pow_add_r in Hsmall by lia.
      destruct (Z.max_spec (Zdigits2 m + e - 53) (-1074)) as [[Hcase Hmax] | [Hcase Hmax]].
      * (* subnormal grid *)
        assert (g = -1074) by lia.
        assert (Hx : 2 ^ (n - 1 + (e + 4096) + 53) < 2 ^ (0 + 4096))
          by (apply Z.pow_lt_mono_r; lia).
        pose proof (sv_le 1 b 0 ltac:(lia) ltac:(lia)) as H1b.
        unfold sv at 1 in H1b. rewrite Z.mul_1_l in H1b.
        revert Hx H1b Hsmall.
        generalize (2 ^ (0 + 4096)) (2 ^ (n - 1 + (e + 4096) + 53)) (sv b 0).
        intros. lia.
      * (* normal grid *)
        assert (Hgd : g = Zdigits2 m + e - 53) by lia.
        pose proof (Zdigits2_bounds m Hm) as [Hlo _].
        assert (Hd1' : 1 <= Zdigits2 m).
        { destruct m; simpl in *; lia. }
        assert (Heqp : 2 ^ (n - 1 + (e + 4096) + 53)
                       = 2 ^ (Zdigits2 m - 1) * 2 ^ (e + 4096)).
        { rewrite <- Z.pow_add_r by lia. f_equal. lia. }
        rewrite Heqp in Hsmall. rewrite Hsm' in Hlt. nia.
Qed.

Lemma binary_round_aux_below (s : bool) (m e b : Z) :
  0 < m -> -4096 <= e <= 0 -> 0 < b < 2 ^ 53 ->
  sv m e * 2 ^ 53 <= sv b 0 * (2 ^ 53 - 1) ->
  below s b (binary_round_aux prec emax s m e loc_Exact).
Proof.
  intros Hm He Hb Hrel.
  destruct (round_lt m e b Hm He Hb Hrel)
    as (mrs' & e' & Heq1 & Hm2 & He' & Hlt2).
  destruct (shr_fexp_exact_le _ e' Hm2 He') as (mrs'' & e'' & Heq2 & Hm3 & He'' & Hle3).
  unfold binary_round_aux. rewrite Heq1, Heq2.
  destruct (shr_m mrs'') as [|m3|m3] eqn:Hm3eq; [left; now eexists | | lia].
  right. exists m3, e''.
  assert (Hle4 : sv (Zpos m3) e'' <= sv b 0) by lia.
  pose proof (finite_not_huge m3 e'' b He'' Hb Hle4) as Hsmall.
  replace (emax - prec) with 971 by reflexivity.
  destruct (Z.leb_spec e'' 971); [| lia].
  repeat split; try assumption. lia.
Qed.

End Nearest.

(** ** Bounds on the results of the operations *)

Section Operations.

Lemma sv_add (a b e : Z) : sv (a + b) e = sv a e + sv b e.
Proof. unfold sv. ring. Qed.

Lemma sv_sub (a b e : Z) : sv (a - b) e = sv a e - sv b e.
Proof. unfold sv. ring. Qed.

Lemma sv_0 (e : Z) : sv 0 e = 0.
Proof. reflexivity. Qed.

Lemma sv_pos (m e : Z) : 0 < m -> -4096 <= e -> 0 < sv m e.
Proof.
  intros Hm He. unfold sv. apply Z.mul_pos_pos; [exact Hm | apply pow2_pos; lia].
Qed.

(** The mantissa that [shl_align] produces for a smaller exponent. *)
Lemma shl_align_fst (m : positive) (e e' : Z) :
  e' <= e -> -4096 <= e' ->
  sv (Zpos (fst (shl_align m e e'))) e' = sv (Zpos m) e.
Proof.
  intros Hle He'. unfold shl_align.
  destruct (e' - e) as [|p|p] eqn:Hsub; try lia.
  - cbn [fst]. f_equal. lia.
  - cbn [fst]. rewrite iter_xO_value.
    rewrite <- (sv_shift (Zpos m) e (Zpos p)) by lia. f_equal. lia.
Qed.

Lemma shl_align_snd (m : positive) (e e' : Z) :
  e' <= e -> snd (shl_align m e e') = e'.
Proof.
  intros Hle. unfold shl_align.
  destruct (e' - e) as [|p|p] eqn:Hsub; cbn [snd]; lia.
Qed.

Lemma binary_round_at_most (s : bool) (m : positive) (e b : Z) :
  -1074 <= e <= 0 -> 0 < b < 2 ^ 53 -> sv (Zpos m) e <= sv b 0 ->
  at_most s b (binary_round prec emax s m e).
Proof.
  intros He Hb Hle. unfold binary_round.
  pose proof (fexp_eq (Zpos (digits2_pos m) + e)) as Hg.
  remember (fexp prec emax (Zpos (digits2_pos m) + e)) as g eqn:Hgdef. clear Hgdef.
  destruct (Z.le_gt_cases g e) as [Hge | Hge].
  - pose proof (shl_align_fst m e g Hge ltac:(lia)) as Hv.
    pose proof (shl_align_snd m e g Hge) as Hs.
    destruct (shl_align m e g) as [mz ez]. cbn [fst snd] in Hv, Hs. subst ez.
    apply binary_round_aux_at_most; try lia. congruence.
  - assert (Hsa : shl_align m e g = (m, e)).
    { unfold shl_align. destruct (g - e) eqn:Hsub; try lia; reflexivity. }
    rewrite Hsa. apply binary_round_aux_at_most; try lia. congruence.
Qed.

Lemma binary_normalize_at_most (z e b : Z) :
  0 <= z -> -1074 <= e <= 0 -> 0 < b < 2 ^ 53 -> sv z e <= sv b 0 ->
  at_most false b (binary_normalize prec emax z e false).
Proof.
  intros Hz He Hb Hle. destruct z as [|p|p]; [| | lia]; cbn [binary_normalize].
  - left. now eexists.
  - now apply binary_round_at_most.
Qed.

(** The difference of two non-negative floats, the greater first. *)
Lemma SFsub_at_most (mx my : positive) (ex ey b : Z) :
  -1074 <= ex <= 0 -> -1074 <= ey <= 0 -> 0 < b < 2 ^ 53 ->
  sv (Zpos my) ey <= sv (Zpos mx) ex -> sv (Zpos mx) ex <= sv b 0 ->
  at_most false b
    (SFsub prec emax (S754_finite false mx ex) (S754_finite false my ey)).
Proof.
  intros Hex Hey Hb Hyx Hxb. cbn [SFsub cond_Zopp].
  pose proof (shl_align_fst mx ex (Z.min ex ey) ltac:(lia) ltac:(lia)) as Hx.
  pose proof (shl_align_fst my ey (Z.min ex ey) ltac:(lia) ltac:(lia)) as Hy.
  apply binary_normalize_at_most; try lia.
  - apply (sv_le_inv _ _ (Z.min ex ey)); [lia |]. rewrite sv_sub, sv_0. lia.
  - rewrite sv_sub.
    pose proof (sv_pos (Zpos (fst (shl_align my ey (Z.min ex ey)))) (Z.min ex ey)
                  ltac:(lia) ltac:(lia)). lia.
Qed.

(** The sum of a negative float and of a greater non-negative one. *)
Lemma SFadd_neg_at_most (mx my : positive) (ex ey b : Z) :
  -1074 <= ex <= 0 -> -1074 <= ey <= 0 -> 0 < b < 2 ^ 53 ->
  sv (Zpos mx) ex <= sv (Zpos my) ey -> sv (Zpos my) ey <= sv b 0 ->
  at_most false b
    (SFadd prec emax (S754_finite true mx ex) (S754_finite false my ey)).
Proof.
  intros Hex Hey Hb Hxy Hyb. cbn [SFadd cond_Zopp].
  pose proof (shl_align_fst mx ex (Z.min ex ey) ltac:(lia) ltac:(lia)) as Hx.
  pose proof (shl_align_fst my ey (Z.min ex ey) ltac:(lia) ltac:(lia)) as Hy.
  apply binary_normalize_at_most; try lia.
  - apply (sv_le_inv _ _ (Z.min ex ey)); [lia |]. rewrite sv_add, sv_0.
    change (Z.neg (fst (shl_align mx ex (Z.min ex ey))))
      with (- Zpos (fst (shl_align mx ex (Z.min ex ey)))).
    replace (sv (- Zpos (fst (shl_align mx ex (Z.min ex ey)))) (Z.min ex ey))
      with (- sv (Zpos (fst (shl_align mx ex (Z.min ex ey)))) (Z.min ex ey))
      by (unfold sv; ring).
    lia.
  - rewrite sv_add.
    change (Z.neg (fst (shl_align mx ex (Z.min ex ey))))
      with (- Zpos (fst (shl_align mx ex (Z.min ex ey)))).
    replace (sv (- Zpos (fst (shl_align mx ex (Z.min ex ey)))) (Z.min ex ey))
      with (- sv (Zpos (fst (shl_align mx ex (Z.min ex ey)))) (Z.min ex ey))
      by (unfold sv; ring).
    pose proof (sv_pos (Zpos (fst (shl_align mx ex (Z.min ex ey)))) (Z.min ex ey)
                  ltac:(lia) ltac:(lia)). lia.
Qed.

(** The sum of two non-negative floats. *)
Lemma SFadd_at_most (mx my : positive) (ex ey bx by_ : Z) :
  -1074 <= ex <= 0 -> -1074 <= ey <= 0 -> 0 < bx -> 0 < by_ -> bx + by_ < 2 ^ 53 ->
  sv (Zpos mx) ex <= sv bx 0 -> sv (Zpos my) ey <= sv by_ 0 ->
  at_most false (bx + by_)
    (SFadd prec emax (S754_finite false mx ex) (S754_finite false my ey)).
Proof.
  intros Hex Hey Hbx Hby Hb Hx' Hy'. cbn [SFadd cond_Zopp].
  pose proof (shl_align_fst mx ex (Z.min ex ey) ltac:(lia) ltac:(lia)) as Hx.
  pose proof (shl_align_fst my ey (Z.min ex ey) ltac:(lia) ltac:(lia)) as Hy.
  apply binary_normalize_at_most; try lia.
  rewrite !sv_add. lia.
Qed.

(** The arithmetic of the product, on the scaled values: [k] is the
    scale, [px], [py] and [pxy] the powers of the exponents. *)
Lemma product_below (k pxy px py mx my b g : Z) :
  0 < k -> 0 < my -> 0 < py ->
  pxy * k = px * py ->
  mx * px * g <= 1 * k * (g - 1) ->
  my * py = b * k ->
  mx * my * pxy * g <= b * k * (g - 1).
Proof.
  intros Hk Hmy Hpy Hpow Hx Hy.
  apply (Zmult_le_reg_r _ _ k); [lia |].
  assert (H0 : 0 <= my * py) by nia.
  pose proof (Z.mul_le_mono_nonneg_r _ _ (my * py) H0 Hx) as H1.
  assert (H2 : mx * my * pxy * g * k = mx * px * g * (my * py)).
  { transitivity (mx * my * g * (pxy * k)); [ring |]. rewrite Hpow. ring. }
  assert (H3 : b * k * (g - 1) * k = 1 * k * (g - 1) * (my * py)).
  { rewrite Hy. ring. }
  rewrite H2, H3. exact H1.
Qed.

(** The product of a float below one by a constant. *)
Lemma SFmul_below (mx my : positive) (ex ey b : Z) :
  -1074 <= ex -> -1074 <= ey -> ex + ey <= 0 -> 0 < b < 2 ^ 53 ->
  sv (Zpos mx) ex * 2 ^ 53 <= sv 1 0 * (2 ^ 53 - 1) ->
  sv (Zpos my) ey = sv b 0 ->
  below false b
    (SFmul prec emax (S754_finite false mx ex) (S754_finite false my ey)).
Proof.
  intros Hex Hey Hsum Hb Hx Hy. cbn [SFmul xorb].
  apply binary_round_aux_below; try lia.
  rewrite Pos2Z.inj_mul. unfold sv in *.
  apply (product_below (2 ^ (0 + 4096)) (2 ^ (ex + ey + 4096))
           (2 ^ (ex + 4096)) (2 ^ (ey + 4096))).
  - apply pow2_pos; lia.
  - lia.
  - apply pow2_pos; lia.
  - rewrite <- !Z.pow_add_r by lia. f_equal. lia.
  - exact Hx.
  - exact Hy.
Qed.

End Operations.

Section Division.

Lemma new_location_exact (nb_steps k : Z) :
  new_location nb_steps k <> loc_Exact -> k <> 0.
Proof.
  intros H ->. apply H. unfold new_location, new_location_even, new_location_odd.
  now destruct (Z.even nb_steps).
Qed.

Lemma digits_of_at_least (m e c : Z) :
  0 < m -> -4096 <= e -> 0 < c -> sv m e = sv c 0 -> 1 <= Zdigits2 m + e.
Proof.
  intros Hm He Hc Heq.
  pose proof (Zdigits2_bounds m Hm) as [_ Hhi].
  pose proof (Zdigits2_nonneg m) as Hd.
  destruct (Z.le_gt_cases 1 (Zdigits2 m + e)) as [H | H]; [exact H | exfalso].
  assert (H1 : sv m e < sv (2 ^ Zdigits2 m) e) by (apply sv_lt; lia).
  assert (H2 : sv 1 0 <= sv c 0) by (apply sv_le; lia).
  unfold sv in H1, H2, Heq. rewrite <- Z.pow_add_r in H1 by lia.
  assert (H3 : 2 ^ (Zdigits2 m + (e + 4096)) <= 2 ^ (0 + 4096))
    by (apply Z.pow_le_mono_r; lia).
  revert H1 H2 Heq H3.
  generalize (2 ^ (Zdigits2 m + (e + 4096))) (m * 2 ^ (e + 4096)) (2 ^ (0 + 4096)).
  intros. nia.
Qed.

(** The arithmetic of the quotient, on the scaled values: [k] is the
    scale, [pe], [pex] and [pey] the powers of the exponents, [sh] the
    power of the shift of the dividend. *)
Lemma quotient_at_most (k pe pex pey sh mx my q r b c : Z) :
  0 < k -> 0 < pe -> 0 < pey -> 0 < c ->
  sh * (pe * pey) = pex * k ->
  mx * sh = my * q + r -> 0 <= r ->
  my * pey = c * k ->
  mx * pex <= b * c * k ->
  q * pe <= b * k /\ (0 < r -> q * pe < b * k).
Proof.
  intros Hk Hpe Hpey Hc Hpow Hqr Hr Hy Hx.
  assert (Hck : 0 < c * k) by nia.
  assert (Hmain : q * pe * (c * k) + r * (pe * pey) = mx * pex * k).
  { rewrite <- Hy.
    transitivity ((my * q + r) * (pe * pey)); [ring |].
    rewrite <- Hqr.
    transitivity (mx * (sh * (pe * pey))); [ring |].
    rewrite Hpow. ring. }
  assert (Hpp : 0 < pe * pey) by nia.
  assert (Hxk : mx * pex * k <= b * k * (c * k)).
  { transitivity (b * c * k * k); [| apply Z.eq_le_incl; ring].
    apply Z.mul_le_mono_nonneg_r; lia. }
  split.
  - apply (Zmult_le_reg_r _ _ (c * k)); [lia |].
    assert (0 <= r * (pe * pey)) by nia. lia.
  - intros Hr0. apply (Zmult_lt_reg_r _ _ (c * k)); [lia |].
    assert (0 < r * (pe * pey)) by nia. lia.
Qed.

(** The quotient of a float that [b * c] bounds by the float [c]. *)
Lemma SFdiv_at_most (mx my : positive) (ex ey b c : Z) :
  -1074 <= ex <= 971 -> -1074 <= ey <= 971 ->
  0 < b -> 0 < c -> b * c < 2 ^ 53 ->
  sv (Zpos mx) ex <= sv (b * c) 0 -> sv (Zpos my) ey = sv c 0 ->
  at_most false b
    (SFdiv prec emax (S754_finite false mx ex) (S754_finite false my ey)).
Proof.
  intros Hex Hey Hb Hc Hbc Hx Hy. cbn [SFdiv xorb]. unfold SFdiv_core_binary.
  pose proof (digits_of_bounded (Zpos mx) ex (b * c) ltac:(lia) ltac:(lia)
                ltac:(nia) Hx) as Hdx.
  pose proof (digits_of_at_least (Zpos my) ey c ltac:(lia) ltac:(lia) Hc Hy) as Hdy.
  pose proof (fexp_eq (Zdigits2 (Zpos mx) + ex - (Zdigits2 (Zpos my) + ey))) as Hg.
  remember (fexp prec emax (Zdigits2 (Zpos mx) + ex - (Zdigits2 (Zpos my) + ey)))
    as g eqn:Hgdef. clear Hgdef.
  remember (Z.min g (ex - ey)) as e' eqn:He'.
  assert (He'r : -4096 <= e' <= 0) by lia.
  remember (ex - ey - e') as s eqn:Hs.
  assert (Hs0 : 0 <= s) by lia.
  assert (Hm' : match s with
                | Zpos _ => Z.shiftl (Zpos mx) s
                | 0 => Zpos mx
                | Zneg _ => 0
                end = Zpos mx * 2 ^ s).
  { destruct s as [|p|p]; [simpl; lia | | lia].
    now rewrite Z.shiftl_mul_pow2 by lia. }
  rewrite Hm'.
  pose proof (Z_div_mod (Zpos mx * 2 ^ s) (Zpos my) ltac:(lia)) as Hdiv.
  destruct (Z.div_eucl (Zpos mx * 2 ^ s) (Zpos my)) as [q r].
  destruct Hdiv as [Hqr Hr].
  assert (Hps : 0 < 2 ^ s) by (apply pow2_pos; lia).
  assert (Hq : 0 <= q) by nia.
  assert (Hbound : sv q e' <= sv b 0 /\ (0 < r -> sv q e' < sv b 0)).
  { unfold sv in *.
    apply (quotient_at_most (2 ^ (0 + 4096)) (2 ^ (e' + 4096)) (2 ^ (ex + 4096))
             (2 ^ (ey + 4096)) (2 ^ s) (Zpos mx) (Zpos my) q r b c).
    - apply pow2_pos; lia.
    - apply pow2_pos; lia.
    - apply pow2_pos; lia.
    - exact Hc.
    - rewrite <- !Z.pow_add_r by lia. f_equal. lia.
    - exact Hqr.
    - lia.
    - exact Hy.
    - exact Hx. }
  destruct Hbound as [Hle Hlt].
  apply binary_round_aux_at_most; try lia.
  intros Hloc. apply new_location_exact in Hloc. apply Hlt. lia.
Qed.

End Division.

Section PrimBounds.

Lemma at_most_weaken (s : bool) (b b' : Z) (x : spec_float) :
  b <= b' -> at_most s b x -> at_most s b' x.
Proof.
  intros Hb [Hz | (m & e & -> & He & Hv)]; [now left | right].
  exists m, e. repeat split; try assumption.
  pose proof (sv_le b b' 0 ltac:(lia) Hb). lia.
Qed.

Lemma below_at_most (s : bool) (b : Z) (x : spec_float) :
  below s b x -> at_most s b x.
Proof.
  intros [Hz | (m & e & -> & He & Hv)]; [now left | right].
  exists m, e. repeat split; try assumption. lia.
Qed.

(** A representable value that an integer below [2^53] bounds has a
    non-positive exponent. *)
Lemma valid_bounded_exp (s : bool) (m : positive) (e b : Z) :
  valid_binary (S754_finite s m e) = true -> 0 < b < 2 ^ 53 ->
  sv (Zpos m) e <= sv b 0 -> -1074 <= e <= 0.
Proof.
  intros Hv Hb Hle.
  cbn [SpecFloat.valid_binary bounded canonical_mantissa] in Hv.
  apply andb_prop in Hv as [Hc _]. apply Z.eqb_eq in Hc. rewrite fexp_eq in Hc.
  pose proof (digits_of_bounded (Zpos m) e b ltac:(lia)) as Hd.
  cbn [Zdigits2] in Hd.
  destruct (Z.le_gt_cases (-4096) e) as [He | He]; [| lia].
  specialize (Hd He Hb Hle). lia.
Qed.

Lemma prim_finite_valid (x : float) (s : bool) (m : positive) (e : Z) :
  Prim2SF x = S754_finite s m e ->
  Zpos (digits2_pos m) <= 53 /\ -1074 <= e <= 971.
Proof.
  intros H. apply (valid_finite s). rewrite <- H. apply Prim2SF_valid.
Qed.

Lemma prim_bounded_exp (x : float) (s : bool) (m : positive) (e b : Z) :
  Prim2SF x = S754_finite s m e -> 0 < b < 2 ^ 53 ->
  sv (Zpos m) e <= sv b 0 -> -1074 <= e <= 0.
Proof.
  intros H. apply (valid_bounded_exp s). rewrite <- H. apply Prim2SF_valid.
Qed.

(** [int(x)] of a bounded non-negative float. *)
Lemma to_Z_at_most (x : float) (b n : Z) :
  0 < b -> at_most false b (Prim2SF x) -> PyFloat.to_Z x = Ok n -> 0 <= n <= b.
Proof.
  unfold PyFloat.to_Z. intros Hb [[sz Hz] | (m & e & Hx & He & Hv)].
  - rewrite Hz. intros [= <-]. lia.
  - rewrite Hx. intros [= <-]. destruct e as [|p|p].
    + rewrite Z.shiftl_0_r. split; [lia |]. now apply (sv_le_inv _ _ 0).
    + rewrite Z.shiftl_mul_pow2 by lia. split; [nia |].
      apply (sv_le_inv _ _ 0); [lia |].
      rewrite <- (sv_shift (Zpos m) (Zpos p) (Zpos p)) in Hv by lia.
      now rewrite Z.sub_diag in Hv.
    + rewrite Z.shiftr_div_pow2 by lia. split; [apply Z.div_pos; lia |].
      pose proof (sv_div (Zpos m) (Zneg p) (Zpos p) ltac:(lia) ltac:(lia) He) as [Hd _].
      replace (Zneg p + Zpos p) with 0 in Hd by lia.
      apply (sv_le_inv _ _ 0); lia.
Qed.

Lemma to_Z_below (x : float) (b n : Z) :
  0 < b -> below false b (Prim2SF x) -> PyFloat.to_Z x = Ok n -> 0 <= n < b.
Proof.
  unfold PyFloat.to_Z. intros Hb [[sz Hz] | (m & e & Hx & He & Hv)].
  - rewrite Hz. intros [= <-]. lia.
  - rewrite Hx. intros [= <-]. destruct e as [|p|p].
    + rewrite Z.shiftl_0_r. split; [lia |]. now apply (sv_lt_inv _ _ 0).
    + rewrite Z.shiftl_mul_pow2 by lia. split; [nia |].
      apply (sv_lt_inv _ _ 0); [lia |].
      rewrite <- (sv_shift (Zpos m) (Zpos p) (Zpos p)) in Hv by lia.
      now rewrite Z.sub_diag in Hv.
    + rewrite Z.shiftr_div_pow2 by lia. split; [apply Z.div_pos; lia |].
      pose proof (sv_div (Zpos m) (Zneg p) (Zpos p) ltac:(lia) ltac:(lia) He) as [Hd _].
      replace (Zneg p + Zpos p) with 0 in Hd by lia.
      apply (sv_lt_inv _ _ 0); lia.
Qed.

Lemma to_Z_nan (x : float) (n : Z) :
  Prim2SF x = S754_nan -> PyFloat.to_Z x = Ok n -> False.
Proof. unfold PyFloat.to_Z. intros ->. discriminate. Qed.

(** ** The remainder of [fmod] by a positive integer constant *)

Lemma fmod_cases (x y : float) (my : positive) (ey b : Z) :
  Prim2SF y = S754_finite false my ey -> sv (Zpos my) ey = sv b 0 ->
  (Prim2SF (PyFloat.fmod x y) = S754_nan
   /\ (Prim2SF x = S754_nan \/ exists s, Prim2SF x = S754_infinity s))
  \/ (exists sz, Prim2SF (PyFloat.fmod x y) = S754_zero sz)
  \/ (exists s m e r' e',
        Prim2SF x = S754_finite s m e
        /\ Prim2SF (PyFloat.fmod x y) = S754_finite s r' e'
        /\ -1074 <= e' <= 971
        /\ sv (Zpos r') e' < sv b 0
        /\ sv (Zpos r') e' <= sv (Zpos m) e).
Proof.
  intros Hy Hb. unfold PyFloat.fmod. rewrite Hy.
  destruct (Prim2SF x) as [sx | sx | | sx mx ex] eqn:Hx.
  - right. left. exists sx. exact Hx.
  - left. split; [reflexivity | right; now exists sx].
  - left. split; [reflexivity | now left].
  - right.
    pose proof (prim_finite_valid x sx mx ex Hx) as [Hdx Hex].
    pose proof (prim_finite_valid y false my ey Hy) as [Hdy Hey].
    apply digits_53_lt in Hdx. apply digits_53_lt in Hdy.
    remember (Z.min ex ey) as e eqn:He.
    rewrite !Z.shiftl_mul_pow2 by lia.
    assert (HA : 0 < Zpos mx * 2 ^ (ex - e)).
    { apply Z.mul_pos_pos; [lia | apply pow2_pos; lia]. }
    assert (HB : 0 < Zpos my * 2 ^ (ey - e)).
    { apply Z.mul_pos_pos; [lia | apply pow2_pos; lia]. }
    pose proof (Z.rem_bound_pos (Zpos mx * 2 ^ (ex - e)) (Zpos my * 2 ^ (ey - e))
                  ltac:(lia) HB) as Hr.
    assert (Hra : Z.rem (Zpos mx * 2 ^ (ex - e)) (Zpos my * 2 ^ (ey - e))
                  <= Zpos mx * 2 ^ (ex - e)).
    { rewrite Z.rem_mod_nonneg by lia. apply Z.mod_le; lia. }
    remember (Z.rem (Zpos mx * 2 ^ (ex - e)) (Zpos my * 2 ^ (ey - e))) as r eqn:Hrdef.
    clear Hrdef.
    destruct (Z.eqb_spec r 0) as [Hr0 | Hr0].
    + left. destruct sx; [now exists true | now exists false].
    + right. destruct r as [|rp|rp]; try lia.
      assert (Hrp : Zpos rp < 2 ^ 53).
      { destruct (Z.le_ge_cases ex ey) as [Hle | Hle].
        - replace (ex - e) with 0 in Hra by lia. simpl in Hra. lia.
        - replace (ey - e) with 0 in Hr by lia. simpl in Hr. lia. }
      destruct (binary_normalize_exact sx rp e (digits_le_53 rp Hrp) ltac:(lia))
        as (r' & e' & Hn & Hvalid & He' & Hval).
      replace (if sx then - Zpos rp else Zpos rp)
        with (if sx then Zneg rp else Zpos rp) by now destruct sx.
      rewrite Hn, Prim2SF_SF2Prim by exact Hvalid.
      pose proof (valid_finite sx r' e' Hvalid) as [_ He'r].
      exists sx, mx, ex, r', e'. split; [reflexivity |]. split; [reflexivity |].
      split; [exact He'r |].
      assert (Hsv : sv (Zpos r') e' = sv (Zpos rp) e).
      { rewrite Hval. replace e' with (e - (e - e')) at 2 by lia.
        apply sv_shift; lia. }
      rewrite Hsv. split.
      * rewrite <- Hb, <- (sv_shift (Zpos my) ey (ey - e)) by lia.
        replace (ey - (ey - e)) with e by lia. apply sv_lt; lia.
      * rewrite <- (sv_shift (Zpos mx) ex (ex - e)) by lia.
        replace (ex - (ex - e)) with e by lia. apply sv_le; lia.
Qed.

(** ** Comparisons with zero *)

Lemma eqb_zero_finite (x : float) (s : bool) (m : positive) (e : Z) :
  Prim2SF x = S754_finite s m e -> (x =? 0)%float = false.
Proof. intros H. rewrite FloatAxioms.eqb_spec, H. now destruct s. Qed.

Lemma eqb_zero_zero (x : float) (sz : bool) :
  Prim2SF x = S754_zero sz -> (x =? 0)%float = true.
Proof. intros H. now rewrite FloatAxioms.eqb_spec, H. Qed.

Lemma eqb_zero_nan (x : float) :
  Prim2SF x = S754_nan -> (x =? 0)%float = false.
Proof. intros H. now rewrite FloatAxioms.eqb_spec, H. Qed.

Lemma ltb_zero_finite (x : float) (s : bool) (m : positive) (e : Z) :
  Prim2SF x = S754_finite s m e -> (x <? 0)%float = s.
Proof. intros H. rewrite FloatAxioms.ltb_spec, H. now destruct s. Qed.

Lemma ltb_zero_nan (x : float) :
  Prim2SF x = S754_nan -> (x <? 0)%float = false.
Proof. intros H. now rewrite FloatAxioms.ltb_spec, H. Qed.

Lemma signed_zero_is_zero (c : bool) :
  exists sz, Prim2SF (if c then neg_zero else zero) = S754_zero sz.
Proof. destruct c; [now exists true | now exists false]. Qed.

(** ** The remainder of [divmod] by a positive integer constant *)

Lemma divmod_remainder (x y fd r : float) (my : positive) (ey b : Z) :
  Prim2SF y = S754_finite false my ey -> sv (Zpos my) ey = sv b 0 ->
  0 < b < 2 ^ 53 ->
  PyFloat.divmod x y = Ok (fd, r) ->
  Prim2SF r = S754_nan \/ at_most false b (Prim2SF r).
Proof.
  intros Hy Hb Hbr. unfold PyFloat.divmod.
  rewrite (eqb_zero_finite y false my ey Hy), (ltb_zero_finite y false my ey Hy).
  destruct (fmod_cases x y my ey b Hy Hb)
    as [[Hnan _] | [[sz Hz] | (s & m & e & r' & e' & Hx & Hm & He' & Hlt & Hle)]].
  - rewrite (eqb_zero_nan _ Hnan), (ltb_zero_nan _ Hnan). cbn [negb andb xorb].
    intros [= _ <-]. now left.
  - rewrite (eqb_zero_zero _ sz Hz). cbn [negb andb].
    intros [= _ <-]. right. left. apply signed_zero_is_zero.
  - rewrite (eqb_zero_finite _ s r' e' Hm), (ltb_zero_finite _ s r' e' Hm).
    cbn [negb andb xorb]. intros [= _ <-]. right. destruct s.
    + rewrite FloatAxioms.add_spec, Hm, Hy.
      pose proof (prim_finite_valid y false my ey Hy) as [_ Hey].
      assert (Hey0 : -1074 <= ey <= 0).
      { apply (prim_bounded_exp y false my ey b Hy Hbr). lia. }
      assert (He'0 : -1074 <= e' <= 0).
      { apply (prim_bounded_exp _ true r' e' b Hm Hbr). lia. }
      apply SFadd_neg_at_most; try assumption; lia.
    + rewrite Hm. right. exists r', e'. split; [reflexivity |]. split; lia.
Qed.

Lemma divmod_nan_remainder (x y fd r : float) (my : positive) (ey b : Z) :
  Prim2SF y = S754_finite false my ey -> sv (Zpos my) ey = sv b 0 ->
  Prim2SF x = S754_nan ->
  PyFloat.divmod x y = Ok (fd, r) ->
  Prim2SF r = S754_nan.
Proof.
  intros Hy Hb Hx. unfold PyFloat.divmod.
  rewrite (eqb_zero_finite y false my ey Hy), (ltb_zero_finite y false my ey Hy).
  assert (Hnan : Prim2SF (PyFloat.fmod x y) = S754_nan).
  { unfold PyFloat.fmod. now rewrite Hx. }
  rewrite (eqb_zero_nan _ Hnan), (ltb_zero_nan _ Hnan). cbn [negb andb xorb].
  now intros [= _ <-].
Qed.

(** ** The quotient of [divmod] on a bounded non-negative float *)

Lemma of_Z_at_most (n q : Z) :
  0 < n <= q -> q < 2 ^ 53 -> at_most false q (Prim2SF (PyFloat.of_Z n)).
Proof.
  intros Hn Hq. unfold PyFloat.of_Z. destruct n as [|np|np]; try lia.
  destruct (binary_normalize_exact false np 0 (digits_le_53 np ltac:(lia)) ltac:(lia))
    as (r' & e' & Hnorm & Hvalid & He' & Hval).
  cbn [negb] in Hnorm. change (if false then Zneg np else Zpos np) with (Zpos np) in Hnorm.
  rewrite Hnorm, Prim2SF_SF2Prim by exact Hvalid.
  pose proof (valid_finite false r' e' Hvalid) as [_ He'r].
  right. exists r', e'. split; [reflexivity |]. split; [lia |].
  rewrite Hval. replace e' with (0 - (0 - e')) at 2 by lia.
  rewrite sv_shift by lia. apply sv_le; lia.
Qed.

Lemma floor_at_most (d : float) (q : Z) :
  0 < q < 2 ^ 53 -> at_most false q (Prim2SF d) ->
  at_most false q (Prim2SF (PyFloat.floor d)).
Proof.
  intros Hq Hd.
  pose proof (to_Z_at_most d q) as Hto.
  unfold PyFloat.floor. unfold PyFloat.to_Z in Hto.
  destruct Hd as [[sz Hz] | (m & e & Hx & He & Hv)].
  - rewrite Hz. left. now exists sz.
  - rewrite Hx in *. cbn [PyFloat.floor_Z].
    assert (Hat : at_most false q (S754_finite false m e)).
    { right. exists m, e. now repeat split. }
    specialize (Hto _ ltac:(lia) Hat eq_refl).
    change (match e with
            | Z.neg p => Z.shiftr (Z.pos m) (Z.pos p)
            | _ => Z.shiftl (Z.pos m) e
            end) with (PyFloat.floor_Z false m e) in Hto.
    destruct (Z.eqb_spec (PyFloat.floor_Z false m e) 0) as [H0 | H0].
    + left. now exists false.
    + apply of_Z_at_most; lia.
Qed.

Lemma one_is_finite :
  Prim2SF 1%float = S754_finite false 4503599627370496 (-52).
Proof. reflexivity. Qed.

Lemma succ_at_most (f : float) (q : Z) :
  0 < q -> q + 1 < 2 ^ 53 -> at_most false q (Prim2SF f) ->
  at_most false (q + 1) (Prim2SF (f + 1)%float).
Proof.
  intros Hq Hq1 Hf. rewrite FloatAxioms.add_spec, one_is_finite.
  assert (H1 : sv 4503599627370496 (-52) = sv 1 0).
  { rewrite <- (sv_shift 1 0 52) by lia. reflexivity. }
  destruct Hf as [[sz Hz] | (m & e & Hx & He & Hv)].
  - rewrite Hz. cbn [SFadd]. right. exists 4503599627370496%positive, (-52).
    split; [reflexivity |]. split; [lia |]. rewrite H1. apply sv_le; lia.
  - rewrite Hx.
    assert (He0 : -1074 <= e <= 0).
    { apply (prim_bounded_exp f false m e q Hx); [lia | exact Hv]. }
    apply SFadd_at_most; lia.
Qed.

Lemma floordiv_at_most (d : float) (c : bool) (q : Z) :
  0 < q -> q + 1 < 2 ^ 53 -> at_most false q (Prim2SF d) ->
  at_most false (q + 1)
    (Prim2SF (if negb (d =? 0)%float
              then (let f := PyFloat.floor d in
                    if (0.5 <? d - f)%float then (f + 1)%float else f)
              else (if c then neg_zero else zero))).
Proof.
  intros Hq Hq1 Hd. destruct (negb (d =? 0)%float).
  - cbv zeta. pose proof (floor_at_most d q ltac:(lia) Hd) as Hf.
    destruct (0.5 <? d - PyFloat.floor d)%float.
    + now apply succ_at_most.
    + apply (at_most_weaken false q); [lia | exact Hf].
  - left. apply signed_zero_is_zero.
Qed.

Lemma divmod_nonneg (x y fd r : float) (my : positive) (ey b q : Z) :
  Prim2SF y = S754_finite false my ey -> sv (Zpos my) ey = sv b 0 ->
  0 < b -> 0 < q -> q * b < 2 ^ 53 -> q + 1 < 2 ^ 53 ->
  at_most false (q * b) (Prim2SF x) ->
  PyFloat.divmod x y = Ok (fd, r) ->
  below false b (Prim2SF r) /\ at_most false (q + 1) (Prim2SF fd).
Proof.
  intros Hy Hb Hb0 Hq0 Hqb Hqr Hx. unfold PyFloat.divmod.
  assert (Hbr : 0 < b < 2 ^ 53) by nia.
  pose proof (prim_finite_valid y false my ey Hy) as [_ Hey].
  assert (Hey0 : -1074 <= ey <= 0).
  { apply (prim_bounded_exp y false my ey b Hy Hbr). lia. }
  rewrite (eqb_zero_finite y false my ey Hy), (ltb_zero_finite y false my ey Hy).
  remember (PyFloat.fmod x y) as mod0 eqn:Hmod0.
  assert (Hdiv0 : (Prim2SF mod0 = S754_nan -> False) ->
                  at_most false q (Prim2SF ((x - mod0) / y)%float)
                  /\ ((exists sz, Prim2SF mod0 = S754_zero sz)
                      \/ exists m e, Prim2SF mod0 = S754_finite false m e
                                     /\ -1074 <= e /\ sv (Zpos m) e < sv b 0)).
  { intros Hnn. rewrite FloatAxioms.div_spec, FloatAxioms.sub_spec, Hy.
    destruct (fmod_cases x y my ey b Hy Hb)
      as [[Hnan _] | [[sz Hz] | (s & m & e & r' & e' & Hxx & Hm & He' & Hlt & Hle)]];
      rewrite <- Hmod0 in *.
    - now destruct Hnn.
    - split; [| left; now exists sz]. rewrite Hz.
      destruct Hx as [[sx Hx] | (mx & ex & Hx & Hex & Hvx)]; rewrite Hx.
      + left. destruct sx, sz; cbn; eauto.
      + cbn [SFsub].
        pose proof (prim_finite_valid x false mx ex Hx) as [_ Hexr].
        apply (SFdiv_at_most mx my ex ey q b); lia.
    - destruct Hx as [[sx Hx] | (mx & ex & Hx & Hex & Hvx)];
        rewrite Hx in Hxx; [discriminate |].
      injection Hxx as <- <- <-.
      split; [| right; exists r', e'; repeat split; try lia; exact Hm].
      rewrite Hx, Hm.
      assert (Hex0 : -1074 <= ex <= 0).
      { apply (prim_bounded_exp x false mx ex (q * b) Hx); [lia | exact Hvx]. }
      assert (He'0 : -1074 <= e' <= 0).
      { apply (prim_bounded_exp _ false r' e' b Hm Hbr). lia. }
      pose proof (SFsub_at_most mx r' ex e' (q * b) Hex0 He'0 ltac:(lia) Hle Hvx) as Hsub.
      rewrite <- Hx, <- Hm, <- FloatAxioms.sub_spec in Hsub |- *.
      destruct Hsub as [[sz Hz] | (md & ed & Hd & Hed & Hvd)]; rewrite Hz || rewrite Hd.
      + left. destruct sz; cbn; eauto.
      + pose proof (prim_finite_valid _ false md ed Hd) as [_ Hedr].
        apply (SFdiv_at_most md my ed ey q b); lia. }
  destruct (Prim2SF mod0) as [sz | sz | | s m e] eqn:Hm.
  - destruct Hdiv0 as [Hdiv _]; [discriminate |].
    rewrite (eqb_zero_zero _ sz Hm). cbn [negb andb].
    intros [= <- <-]. split.
    + left. apply signed_zero_is_zero.
    + now apply floordiv_at_most.
  - destruct Hdiv0 as [_ [[sz' H] | (m & e & H & _)]]; discriminate.
  - exfalso.
    destruct (fmod_cases x y my ey b Hy Hb)
      as [[_ [Hn | [s Hn]]] | [[sz Hz] | (s & m & e & r' & e' & _ & Hm' & _)]];
      rewrite <- ?Hmod0 in *; try congruence;
      destruct Hx as [[sx Hx] | (mx & ex & Hx & _)]; congruence.
  - destruct Hdiv0 as [Hdiv [[sz' H] | (m' & e' & [= -> -> ->] & He' & Hlt)]];
      [discriminate | discriminate |].
    rewrite (eqb_zero_finite _ false m' e' Hm), (ltb_zero_finite _ false m' e' Hm).
    cbn [negb andb xorb]. intros [= <- <-]. split.
    + rewrite Hm. right. exists m', e'. split; [reflexivity |]. split; lia.
    + now apply floordiv_at_most.
Qed.

(** ** The fraction of a second and the milliseconds *)

Lemma sv_one_finite : sv 4503599627370496 (-52) = sv 1 0.
Proof. rewrite <- (sv_shift 1 0 52) by lia. reflexivity. Qed.

Lemma rem_one_below (sec frac : float) (b : Z) :
  below false b (Prim2SF sec) -> PyFloat.rem sec 1 = Ok frac ->
  below false 1 (Prim2SF frac).
Proof.
  intros Hsec. unfold PyFloat.rem.
  rewrite (eqb_zero_finite 1 false _ _ one_is_finite),
    (ltb_zero_finite 1 false _ _ one_is_finite).
  destruct (fmod_cases sec 1 _ _ 1 one_is_finite sv_one_finite)
    as [[_ Hbad] | [[sz Hz] | (s & m & e & r' & e' & Hx & Hm & He' & Hlt & Hle)]].
  - exfalso. destruct Hsec as [[sz Hs] | (m & e & Hs & _)];
      destruct Hbad as [Hn | [s Hn]]; congruence.
  - rewrite (eqb_zero_zero _ sz Hz). cbn [negb]. intros [= <-].
    left. now exists false.
  - assert (Hs : s = false).
    { destruct Hsec as [[sz Hs] | (m0 & e0 & Hs & _)]; congruence. }
    subst s.
    rewrite (eqb_zero_finite _ false r' e' Hm), (ltb_zero_finite _ false r' e' Hm).
    cbn [negb xorb]. intros [= <-]. rewrite Hm.
    right. exists r', e'. split; [reflexivity |]. split; lia.
Qed.

(** A representable value below 1 is at most [1 - 2^-53]. *)
Lemma below_one_gap (x : float) (m : positive) (e : Z) :
  Prim2SF x = S754_finite false m e -> sv (Zpos m) e < sv 1 0 ->
  sv (Zpos m) e * 2 ^ 53 <= sv 1 0 * (2 ^ 53 - 1).
Proof.
  intros Hx Hlt.
  pose proof (prim_finite_valid x false m e Hx) as [Hd He].
  apply digits_53_lt in Hd.
  assert (He0 : -1074 <= e <= 0).
  { apply (prim_bounded_exp x false m e 1 Hx); lia. }
  unfold sv in *. rewrite Z.mul_1_l in *.
  assert (HP : 0 < 2 ^ (e + 4096)) by (apply pow2_pos; lia).
  assert (HT : 0 < 2 ^ (- e)) by (apply pow2_pos; lia).
  assert (HK : 2 ^ (0 + 4096) = 2 ^ (e + 4096) * 2 ^ (- e)).
  { rewrite <- Z.pow_add_r by lia. f_equal. lia. }
  rewrite HK in *.
  remember (2 ^ (e + 4096)) as P eqn:HPdef. remember (2 ^ (- e)) as T eqn:HTdef.
  clear HPdef HTdef HK.
  assert (Hm : Zpos m < T) by nia.
  assert (H53 : 0 < 2 ^ 53) by (apply pow2_pos; lia).
  remember (2 ^ 53) as B eqn:HBdef. clear HBdef.
  assert (Hgoal : Zpos m * B <= T * (B - 1)).
  { destruct (Z.le_gt_cases B T) as [HBT | HBT]; nia. }
  nia.
Qed.

Lemma thousand_is_finite :
  Prim2SF 1000%float = S754_finite false 8796093022208000 (-43).
Proof. reflexivity. Qed.

Lemma sv_thousand_finite : sv 8796093022208000 (-43) = sv 1000 0.
Proof. rewrite <- (sv_shift 1000 0 43) by lia. reflexivity. Qed.

Lemma milliseconds_below (frac : float) :
  below false 1 (Prim2SF frac) ->
  below false 1000 (Prim2SF (frac * 1000)%float).
Proof.
  intros Hf. rewrite FloatAxioms.mul_spec, thousand_is_finite.
  destruct Hf as [[sz Hz] | (m & e & Hx & He & Hlt)].
  - rewrite Hz. left. destruct sz; [now exists true | now exists false].
  - pose proof (below_one_gap frac m e Hx Hlt) as Hgap.
    assert (He0 : -1074 <= e <= 0).
    { apply (prim_bounded_exp frac false m e 1 Hx); lia. }
    rewrite Hx. apply SFmul_below; try lia. exact sv_thousand_finite.
Qed.

(** ** The fields of a timestamp *)

Lemma hour_is_finite :
  Prim2SF 3600%float = S754_finite false 7916483719987200 (-41).
Proof. reflexivity. Qed.

Lemma sv_hour_finite : sv 7916483719987200 (-41) = sv 3600 0.
Proof. rewrite <- (sv_shift 3600 0 41) by lia. reflexivity. Qed.

Lemma minute_is_finite :
  Prim2SF 60%float = S754_finite false 8444249301319680 (-47).
Proof. reflexivity. Qed.

Lemma sv_minute_finite : sv 8444249301319680 (-47) = sv 60 0.
Proof. rewrite <- (sv_shift 60 0 47) by lia. reflexivity. Qed.

Theorem timestamp_fields_ranges (x : float) (h m s ms : Z) :
  timestamp_fields x = Ok (h, m, s, ms) ->
  0 <= m <= 61 /\ 0 <= s <= 59 /\ 0 <= ms <= 999.
Proof.
  unfold timestamp_fields.
  destruct (Timedelta.of_seconds x) as [td |]; cbn [bind]; [| discriminate].
  destruct (Timedelta.total_seconds td) as [total |]; cbn [bind]; [| discriminate].
  destruct (PyFloat.divmod total 3600) as [[hours remainder] |] eqn:Hhr;
    cbn [bind]; [| discriminate].
  destruct (PyFloat.divmod remainder 60) as [[minutes seconds] |] eqn:Hms;
    cbn [bind]; [| discriminate].
  destruct (PyFloat.rem seconds 1) as [frac |] eqn:Hfrac; cbn [bind]; [| discriminate].
  destruct (PyFloat.to_Z (frac * 1000)) as [ms' |] eqn:Hmsz; cbn [bind]; [| discriminate].
  destruct (PyFloat.to_Z hours) as [h' |] eqn:Hhz; cbn [bind]; [| discriminate].
  destruct (PyFloat.to_Z minutes) as [m' |] eqn:Hmz; cbn [bind]; [| discriminate].
  destruct (PyFloat.to_Z seconds) as [s' |] eqn:Hsz; cbn [bind]; [| discriminate].
  intros [= <- <- <- <-].
  destruct (divmod_remainder total 3600 hours remainder _ _ 3600
              hour_is_finite sv_hour_finite ltac:(lia) Hhr) as [Hnan | Hrem].
  - exfalso.
    pose proof (divmod_nan_remainder remainder 60 minutes seconds _ _ 60
                  minute_is_finite sv_minute_finite Hnan Hms) as Hsnan.
    exact (to_Z_nan seconds s' Hsnan Hsz).
  - destruct (divmod_nonneg remainder 60 minutes seconds _ _ 60 60
                minute_is_finite sv_minute_finite ltac:(lia) ltac:(lia)
                ltac:(lia) ltac:(lia) Hrem Hms) as [Hsec Hmin].
    pose proof (rem_one_below seconds frac 60 Hsec Hfrac) as Hf.
    pose proof (milliseconds_below frac Hf) as Hmil.
    pose proof (to_Z_at_most minutes 61 m' ltac:(lia) Hmin Hmz).
    pose proof (to_Z_below seconds 60 s' ltac:(lia) Hsec Hsz).
    pose proof (to_Z_below (frac * 1000)%float 1000 ms' ltac:(lia) Hmil Hmsz).
    lia.
Qed.

End PrimBounds.

Section ClockFields.

Lemma format_0d_two_digits (n : Z) :
  0 <= n < 100 -> String.length (format_0d 2 n) = 2%nat.
Proof.
  intros Hn. rewrite format_0d_length by lia.
  pose proof (digits_below_1000 n ltac:(lia)) as [_ H2].
  pose proof (digits_of_Z_nonempty n). specialize (H2 ltac:(lia)). lia.
Qed.

Lemma format_0d_three_digits (n : Z) :
  0 <= n < 1000 -> String.length (format_0d 3 n) = 3%nat.
Proof.
  intros Hn. rewrite format_0d_length by lia.
  pose proof (digits_below_1000 n Hn) as [H3 _]. lia.
Qed.

End ClockFields.

Section Microseconds.

Lemma of_seconds_days (x : float) (td : Z) :
  Timedelta.of_seconds x = Ok td ->
  - (Timedelta.max_days * Timedelta.us_per_day) <= td
  < (Timedelta.max_days + 1) * Timedelta.us_per_day.
Proof.
  unfold Timedelta.of_seconds.
  destruct (PyFloat.to_Z x) as [intpart|]; cbn [bind]; [| discriminate].
  match goal with
  | |- bind ?r _ = _ -> _ => destruct r as [us|]; cbn [bind]; [| discriminate]
  end.
  destruct (_ && _)%bool eqn:Hdays; [| discriminate].
  intros [= <-]. apply andb_prop in Hdays as [Hlow Hhigh].
  apply Z.leb_le in Hlow, Hhigh.
  assert (Hd : 0 < Timedelta.us_per_day) by reflexivity.
  pose proof (Z.div_mod us Timedelta.us_per_day ltac:(lia)) as Hdm.
  pose proof (Z.mod_pos_bound us Timedelta.us_per_day Hd) as Hmod.
  revert Hlow Hhigh Hdm Hmod.
  generalize (us / Timedelta.us_per_day), (us mod Timedelta.us_per_day).
  unfold Timedelta.max_days, Timedelta.us_per_day, Timedelta.us_per_second.
  intros q r. lia.
Qed.

(** The result depends on the argument only through its microseconds. *)
Lemma format_timestamp_of_microseconds (x y : float) (td : Z) :
  Timedelta.of_seconds x = Ok td -> Timedelta.of_seconds y = Ok td ->
  format_timestamp y = format_timestamp x.
Proof.
  intros Hx Hy. unfold format_timestamp, timestamp_fields. now rewrite Hx, Hy.
Qed.

Lemma format_timestamp_microseconds (x : float) (s : string) :
  format_timestamp x = Ok s -> exists td, Timedelta.of_seconds x = Ok td.
Proof.
  unfold format_timestamp, timestamp_fields.
  destruct (Timedelta.of_seconds x) as [td|]; cbn [bind]; [| discriminate].
  intros _. now exists td.
Qed.

End Microseconds.

(** C3, as amended. [format_timestamp] first converts the value to a
    [timedelta], which is a whole number of microseconds (the nearest
    one, a tie to the even one) of at most 999999999 days in magnitude,
    and the result depends on the value only through these
    microseconds.  Whenever it returns, the result is [h:m:s.ms] with
    the minutes and the seconds printed with exactly two digits and the
    milliseconds with exactly three; the hour field is padded with zeros
    to two digits and printed with all its digits from 100 hours on.
    The millisecond field is not the floor of the fractional seconds of
    the value times 1000: 0.9999994 gives [00:00:00.999] and 0.9999996
    gives [00:00:01.000], 59.9999996 gives [00:01:00.000]; 0.5, 1.5 and
    2.5 microseconds are 0, 2 and 2 microseconds.  The value
    86399999999999 is rendered, with 23999999999 hours; 86400000000000
    (a billion days) and 1e14 raise [OverflowError].
    [format_timestamp(0.0)] is [00:00:00.000], [format_timestamp(125.5)]
    is [00:02:05.500], [format_timestamp(3661.001)] is [01:01:01.001]
    and [format_timestamp(360000.0)] is [100:00:00.000]. *)
Theorem format_timestamp_rendering :
  (forall x s, format_timestamp x = Ok s ->
     exists td h m sec ms,
       Timedelta.of_seconds x = Ok td
       /\ - (Timedelta.max_days * Timedelta.us_per_day) <= td
          < (Timedelta.max_days + 1) * Timedelta.us_per_day
       /\ (forall y, Timedelta.of_seconds y = Ok td -> format_timestamp y = Ok s)
       /\ timestamp_fields x = Ok (h, m, sec, ms)
       /\ 0 <= m <= 61 /\ 0 <= sec <= 59 /\ 0 <= ms <= 999
       /\ s = format_0d 2 h ++ ":" ++ format_0d 2 m ++ ":" ++ format_0d 2 sec
                ++ "." ++ format_0d 3 ms
       /\ String.length (format_0d 2 m) = 2%nat
       /\ String.length (format_0d 2 sec) = 2%nat
       /\ String.length (format_0d 3 ms) = 3%nat
       /\ all_chars is_digit (format_0d 2 m) = true
       /\ all_chars is_digit (format_0d 2 sec) = true
       /\ all_chars is_digit (format_0d 3 ms) = true
       /\ String.length s = (String.length (format_0d 2 h) + 10)%nat)
  /\ (forall width n, 0 <= n ->
        all_chars is_digit (format_0d width n) = true
        /\ value_of_digits (format_0d width n) = Some (Z.to_N n)
        /\ (width <= String.length (format_0d width n))%nat)
  /\ (forall n, 0 <= n < 100 -> String.length (format_0d 2 n) = 2%nat)
  /\ (forall n, 0 <= n < 1000 -> String.length (format_0d 3 n) = 3%nat)
  /\ (forall n, 100 <= n -> (3 <= String.length (format_0d 2 n))%nat)
  /\ format_timestamp 0.0 = Ok "00:00:00.000"
  /\ format_timestamp 125.5 = Ok "00:02:05.500"
  /\ format_timestamp 3661.001 = Ok "01:01:01.001"
  /\ format_timestamp 360000.0 = Ok "100:00:00.000"
  /\ Timedelta.of_seconds 0.9999994 = Ok 999999
  /\ format_timestamp 0.9999994 = Ok "00:00:00.999"
  /\ Timedelta.of_seconds 0.9999996 = Ok 1000000
  /\ format_timestamp 0.9999996 = Ok "00:00:01.000"
  /\ format_timestamp 59.9999996 = Ok "00:01:00.000"
  /\ Timedelta.of_seconds 5e-7 = Ok 0
  /\ Timedelta.of_seconds 1.5e-6 = Ok 2
  /\ Timedelta.of_seconds 2.5e-6 = Ok 2
  /\ format_timestamp 86399999999999.0 = Ok "23999999999:59:59.000"
  /\ format_timestamp 86400000000000.0 = Raise OverflowError
  /\ format_timestamp 1e14 = Raise OverflowError.
Proof.
  split.
  { intros x s H.
    destruct (format_timestamp_microseconds x s H) as [td Htd].
    destruct (format_timestamp_fields x s H) as (h & m & sec & ms & Hf & ->).
    destruct (timestamp_fields_ranges x h m sec ms Hf) as (Hm & Hs & Hms).
    exists td, h, m, sec, ms.
    pose proof (format_0d_two_digits m ltac:(lia)) as Lm.
    pose proof (format_0d_two_digits sec ltac:(lia)) as Ls.
    pose proof (format_0d_three_digits ms ltac:(lia)) as Lms.
    split; [exact Htd |]. split; [exact (of_seconds_days x td Htd) |].
    split.
    { intros y Hy. now rewrite (format_timestamp_of_microseconds x y td Htd Hy). }
    split; [exact Hf |].
    split; [exact Hm |]. split; [exact Hs |]. split; [exact Hms |].
    split; [reflexivity |].
    split; [exact Lm |]. split; [exact Ls |]. split; [exact Lms |].
    split; [apply format_0d_digits; lia |].
    split; [apply format_0d_digits; lia |].
    split; [apply format_0d_digits; lia |].
    rewrite !length_app, Lm, Ls, Lms. simpl. lia. }
  split.
  { intros width n Hn. split; [now apply format_0d_digits |].
    split; [now apply format_0d_value |].
    rewrite format_0d_length by exact Hn. lia. }
  split; [exact format_0d_two_digits |].
  split; [exact format_0d_three_digits |].
  split.
  { intros n Hn. rewrite format_0d_length by lia.
    pose proof (digits_from_100 n Hn). lia. }
  repeat split; vm_compute; reflexivity.
Qed.

(** C3, the claim as stated fails: 0.9999996 seconds are rendered as
    one second and no millisecond, where the floor of the fractional
    seconds times 1000 is 999 and the whole seconds are 0; and a value
    of 1e14 seconds is not rendered at all. *)
Lemma format_timestamp_rounds_first :
  format_timestamp 0.9999996 = Ok "00:00:01.000"
  /\ timestamp_fields 0.9999996 = Ok (0, 0, 1, 0)
  /\ Claimed.timestamp_fields 0.9999996 = Some (0, 0, 0, 999)
  /\ format_timestamp 1e14 = Raise OverflowError.
Proof. repeat split; vm_compute; reflexivity. Qed.

(** C4. The comma timestamp of the SRT renderer is the output of
    [format_timestamp] with its decimal point replaced: both raise
    together, and when [format_timestamp] returns [hms.mmm] the SRT
    timestamp is [hms,mmm] with the same [hms] and the same [mmm],
    neither of which holds a point or a comma.  So the time range line
    of the SRT block of a segment is that of its VTT block with the
    points replaced, and the two blocks raise together. *)
Theorem srt_timestamp_post_processes (x : float) (i : nat) (segment : Segment) :
  match format_timestamp x with
  | Ok vtt_ts =>
      TranscriptionFormatter.srt_timestamp x = Ok (replace "." "," vtt_ts)
      /\ exists hms mmm,
           vtt_ts = hms ++ "." ++ mmm
           /\ TranscriptionFormatter.srt_timestamp x = Ok (hms ++ "," ++ mmm)
           /\ all_chars (fun c => negb (Ascii.eqb c ".") && negb (Ascii.eqb c ","))
                hms = true
           /\ all_chars (fun c => negb (Ascii.eqb c ".") && negb (Ascii.eqb c ","))
                mmm = true
  | Raise e => TranscriptionFormatter.srt_timestamp x = Raise e
  end
  /\ match Rendering.vtt_block segment with
     | Ok lines =>
         exists range text,
           lines = [range; text; EmptyString]
           /\ Rendering.srt_block (i, segment)
              = Ok [str_of_Z (Z.of_nat i); replace "." "," range; text; EmptyString]
     | Raise e => Rendering.srt_block (i, segment) = Raise e
     end.
Proof.
  split; [| apply srt_block_of_vtt_block].
  destruct (format_timestamp x) as [ts|e] eqn:H.
  - split; [unfold TranscriptionFormatter.srt_timestamp; now rewrite H |].
    destruct (format_timestamp_parts x ts H) as (hms & mmm & -> & Hh & Hm).
    exists hms, mmm. repeat split; try assumption.
    now apply srt_timestamp_of_parts.
  - unfold TranscriptionFormatter.srt_timestamp. now rewrite H.
Qed.

(** ** Loops that append to a list *)

Section Loops.

Context {A B : Type}.

Lemma bind_assoc {X Y W : Type} (r : Result X) (f : X -> Result Y)
  (g : Y -> Result W) :
  bind (bind r f) g = bind r (fun x => bind (f x) g).
Proof. now destruct r. Qed.

Lemma bind_ext {X Y : Type} (r : Result X) (f g : X -> Result Y) :
  (forall x, f x = g x) -> bind r f = bind r g.
Proof. intros H. destruct r; simpl; [apply H | reflexivity]. Qed.

(** A loop whose body appends a block for the items it emits, and
    leaves the list alone for the others, builds the concatenation of
    the blocks of the emitted items. *)
Lemma for_each_blocks (emit : A -> bool) (block : A -> Result (list B))
  (step : list B -> A -> Result (list B)) :
  (forall acc x,
      step acc x
      = if emit x then bind (block x) (fun b => Ok (extend acc b)) else Ok acc) ->
  forall xs acc,
    for_each step xs acc
    = bind (mapM block (filter emit xs))
        (fun blocks => Ok (extend acc (List.concat blocks))).
Proof.
  intros Hstep xs. induction xs as [|x xs IH]; intros acc; simpl.
  - unfold extend. now rewrite app_nil_r.
  - rewrite Hstep. destruct (emit x); simpl.
    + destruct (block x) as [b|e]; simpl; [| reflexivity].
      rewrite IH. destruct (mapM block (filter emit xs)); simpl; [| reflexivity].
      unfold extend. now rewrite app_assoc.
    + apply IH.
Qed.

Lemma filter_all {X : Type} (xs : list X) : filter (fun _ => true) xs = xs.
Proof. induction xs as [|x xs IH]; simpl; [reflexivity | now rewrite IH]. Qed.

Lemma mapM_map {X : Type} (g : X -> A) (f : A -> Result B) (xs : list X) :
  mapM f (map g xs) = mapM (fun x => f (g x)) xs.
Proof. induction xs as [|x xs IH]; simpl; [reflexivity | now rewrite IH]. Qed.

Lemma mapM_ext (f g : A -> Result B) (xs : list A) :
  (forall x, f x = g x) -> mapM f xs = mapM g xs.
Proof.
  intros H. induction xs as [|x xs IH]; simpl; [reflexivity | now rewrite H, IH].
Qed.

Lemma mapM_singletons (f : A -> Result B) (xs : list A) :
  bind (mapM (fun x => bind (f x) (fun y => Ok [y])) xs)
    (fun blocks => Ok (List.concat blocks))
  = mapM f xs.
Proof.
  induction xs as [|x xs IH]; simpl; [reflexivity |].
  destruct (f x) as [y|e]; simpl; [| reflexivity].
  rewrite <- IH.
  now destruct (mapM (fun x => bind (f x) (fun y => Ok [y])) xs).
Qed.

Lemma mapM_Forall2 (f : A -> Result B) (xs : list A) (ys : list B) :
  mapM f xs = Ok ys <-> Forall2 (fun x y => f x = Ok y) xs ys.
Proof.
  revert ys. induction xs as [|x xs IH]; intros ys; simpl.
  - split; [intros [= <-]; constructor | intros H; now inversion H].
  - destruct (f x) as [y|e] eqn:Hx; simpl.
    + destruct (mapM f xs) as [ys'|e] eqn:Hxs; simpl.
      * split.
        -- intros [= <-]. constructor; [exact Hx |]. now apply IH.
        -- intros H. inversion H as [|? y' ? ys'' Hy Hrest]; subst.
           apply IH in Hrest. congruence.
      * split; [discriminate |].
        intros H. inversion H as [|? y' ? ys'' Hy Hrest]; subst.
        apply IH in Hrest. discriminate.
    + split; [discriminate |].
      intros H. inversion H; subst; congruence.
Qed.

Lemma mapM_returns (f : A -> Result B) (xs : list A) :
  Forall (fun x => returns (f x)) xs -> returns (mapM f xs).
Proof.
  induction 1 as [|x xs [y Hy] _ [ys Hys]]; simpl.
  - now exists [].
  - rewrite Hy, Hys. simpl. now exists (y :: ys).
Qed.

End Loops.

(** ** The segment renderers *)

Section SegmentRenderers.

Import TranscriptionFormatter Rendering.

Lemma srt_step_blocks (acc : list string) (entry : nat * Segment) :
  srt_step acc entry
  = if has_text (snd entry)
    then bind (srt_block entry) (fun b => Ok (extend acc b))
    else Ok acc.
Proof.
  destruct entry as [i segment]. unfold srt_step, has_text, srt_block, stripped_text.
  simpl. destruct (is_empty _); simpl; [reflexivity |].
  destruct (srt_timestamp _); simpl; [| reflexivity].
  now destruct (srt_timestamp _).
Qed.

Lemma segment_step_blocks (acc : list string) (entry : nat * Segment) :
  segment_step acc entry
  = if has_text (snd entry)
    then bind (segment_block entry) (fun b => Ok (extend acc b))
    else Ok acc.
Proof.
  destruct entry as [i segment].
  unfold segment_step, has_text, segment_block, stripped_text.
  simpl. destruct (is_empty _); simpl; [reflexivity |].
  destruct (format_timestamp _); simpl; [| reflexivity].
  now destruct (format_timestamp _).
Qed.

Lemma vtt_step_blocks (acc : list string) (segment : Segment) :
  vtt_step acc segment
  = if has_text segment
    then bind (vtt_block segment) (fun b => Ok (extend acc b))
    else Ok acc.
Proof.
  unfold vtt_step, has_text, vtt_block, stripped_text.
  destruct (is_empty _); simpl; [reflexivity |].
  destruct (format_timestamp _); simpl; [| reflexivity].
  now destruct (format_timestamp _).
Qed.

Lemma format_srt_subtitles_blocks (d : TranscriptionData) :
  get (segments d) [] <> [] ->
  format_srt_subtitles d
  = bind (mapM srt_block (emitted_segments (get (segments d) [])))
      (fun blocks => Ok (join nl (List.concat blocks))).
Proof.
  intros Hne. unfold format_srt_subtitles.
  destruct (get (segments d) []) as [|s segs] eqn:Hs; [congruence |].
  cbn [is_nil].
  rewrite (for_each_blocks (fun e => has_text (snd e)) srt_block srt_step srt_step_blocks).
  fold (emitted_segments (s :: segs)).
  now destruct (mapM srt_block (emitted_segments (s :: segs))).
Qed.

Lemma format_segment_timestamps_blocks (d : TranscriptionData) :
  get (segments d) [] <> [] ->
  format_segment_timestamps d
  = bind (mapM segment_block (emitted_segments (get (segments d) [])))
      (fun blocks => Ok (join nl (extend segment_header (List.concat blocks)))).
Proof.
  intros Hne. unfold format_segment_timestamps.
  destruct (get (segments d) []) as [|s segs] eqn:Hs; [congruence |].
  cbn [is_nil].
  rewrite (for_each_blocks (fun e => has_text (snd e)) segment_block segment_step
             segment_step_blocks).
  fold (emitted_segments (s :: segs)).
  now destruct (mapM segment_block (emitted_segments (s :: segs))).
Qed.

Lemma format_vtt_subtitles_blocks (d : TranscriptionData) :
  get (segments d) [] <> [] ->
  format_vtt_subtitles d
  = bind (mapM vtt_block (filter has_text (get (segments d) [])))
      (fun blocks => Ok (join nl (extend ["WEBVTT"; EmptyString] (List.concat blocks)))).
Proof.
  intros Hne. unfold format_vtt_subtitles.
  destruct (get (segments d) []) as [|s segs] eqn:Hs; [congruence |].
  cbn [is_nil].
  rewrite (for_each_blocks has_text vtt_block vtt_step vtt_step_blocks).
  now destruct (mapM vtt_block (filter has_text (s :: segs))).
Qed.

(** The emitted segments of a list enumerated from [k]. *)
Lemma emitted_from_position (segs : list Segment) :
  forall (k n i : nat) (seg : Segment),
    nth_error
      (filter (fun e => has_text (snd e)) (combine (seq k (List.length segs)) segs)) n
    = Some (i, seg) ->
    (k <= i)%nat
    /\ nth_error segs (i - k) = Some seg
    /\ has_text seg = true
    /\ (i - k = n + count_skipped (firstn (i - k) segs))%nat.
Proof.
  induction segs as [|s segs IH]; intros k n i seg; simpl.
  - destruct n; discriminate.
  - destruct (has_text s) eqn:Hs; simpl.
    + destruct n as [|n]; simpl.
      * intros [= <- <-]. rewrite Nat.sub_diag. simpl. auto.
      * intros H. apply IH in H as (Hk & Hnth & Ht & Hpos).
        replace (i - k)%nat with (S (i - S k)) by lia. simpl.
        unfold count_skipped in *. simpl. rewrite Hs. simpl.
        repeat split; auto; lia.
    + intros H. apply IH in H as (Hk & Hnth & Ht & Hpos).
      replace (i - k)%nat with (S (i - S k)) by lia. simpl.
      unfold count_skipped in *. simpl. rewrite Hs. simpl.
      repeat split; auto; lia.
Qed.

Lemma emitted_position (segs : list Segment) (n i : nat) (seg : Segment) :
  nth_error (emitted_segments segs) n = Some (i, seg) ->
  (1 <= i)%nat
  /\ nth_error segs (i - 1) = Some seg
  /\ has_text seg = true
  /\ (i = n + 1 + count_skipped (firstn (i - 1) segs))%nat.
Proof.
  intros H. apply emitted_from_position in H as (Hk & Hnth & Ht & Hpos).
  repeat split; auto; lia.
Qed.

(** Every segment with text is emitted, with its position. *)
Lemma emitted_from_complete (segs : list Segment) :
  forall (k j : nat) (seg : Segment),
    nth_error segs j = Some seg -> has_text seg = true ->
    In ((k + j)%nat, seg)
      (filter (fun e => has_text (snd e)) (combine (seq k (List.length segs)) segs)).
Proof.
  induction segs as [|s segs IH]; intros k j seg; simpl.
  - destruct j; discriminate.
  - destruct j as [|j]; simpl.
    + intros [= ->] Ht. rewrite Ht. left. f_equal. lia.
    + intros Hnth Ht. specialize (IH (S k) j seg Hnth Ht).
      replace (k + S j)%nat with (S k + j)%nat by lia.
      destruct (has_text s); [right |]; exact IH.
Qed.

Lemma emitted_in (segs : list Segment) (entry : nat * Segment) :
  In entry (emitted_segments segs) -> In (snd entry) segs.
Proof.
  destruct entry as [i seg]. unfold emitted_segments. intros Hin.
  apply filter_In in Hin as [Hin _]. now apply in_combine_r in Hin.
Qed.

Lemma srt_timestamp_returns (x : float) :
  accepted x -> returns (srt_timestamp x).
Proof. intros [ts H]. unfold srt_timestamp. rewrite H. now eexists. Qed.

Lemma segment_block_returns (entry : nat * Segment) :
  segment_times_accepted (snd entry) -> returns (segment_block entry).
Proof.
  intros [Hs He].
  apply accepted_default in Hs as [s Hs]. apply accepted_default in He as [e He].
  unfold segment_block. rewrite Hs, He. cbn [bind]. now eexists.
Qed.

Lemma srt_block_returns (entry : nat * Segment) :
  segment_times_accepted (snd entry) -> returns (srt_block entry).
Proof.
  intros [Hs He].
  apply accepted_default, srt_timestamp_returns in Hs as [s Hs].
  apply accepted_default, srt_timestamp_returns in He as [e He].
  unfold srt_block. rewrite Hs, He. cbn [bind]. now eexists.
Qed.

Lemma vtt_block_returns (segment : Segment) :
  segment_times_accepted segment -> returns (vtt_block segment).
Proof.
  intros [Hs He].
  apply accepted_default in Hs as [s Hs]. apply accepted_default in He as [e He].
  unfold vtt_block. rewrite Hs, He. cbn [bind]. now eexists.
Qed.

Lemma bind_returns {X Y : Type} (r : Result X) (f : X -> Y) :
  returns r -> returns (bind r (fun x => Ok (f x))).
Proof. intros [x ->]. cbn [bind]. now eexists. Qed.

Lemma format_segment_timestamps_returns (d : TranscriptionData) :
  Forall segment_times_accepted (get (segments d) []) ->
  returns (format_segment_timestamps d).
Proof.
  intros Hall. destruct (get (segments d) []) as [|s segs] eqn:Hs.
  - unfold format_segment_timestamps. rewrite Hs. now eexists.
  - rewrite format_segment_timestamps_blocks by congruence. rewrite Hs.
    apply bind_returns, mapM_returns, Forall_forall. intros entry Hin.
    apply segment_block_returns. rewrite Forall_forall in Hall.
    now apply Hall, emitted_in.
Qed.

Lemma format_srt_subtitles_returns (d : TranscriptionData) :
  Forall segment_times_accepted (get (segments d) []) ->
  returns (format_srt_subtitles d).
Proof.
  intros Hall. destruct (get (segments d) []) as [|s segs] eqn:Hs.
  - unfold format_srt_subtitles. rewrite Hs. now eexists.
  - rewrite format_srt_subtitles_blocks by congruence. rewrite Hs.
    apply bind_returns, mapM_returns, Forall_forall. intros entry Hin.
    apply srt_block_returns. rewrite Forall_forall in Hall.
    now apply Hall, emitted_in.
Qed.

Lemma format_vtt_subtitles_returns (d : TranscriptionData) :
  Forall segment_times_accepted (get (segments d) []) ->
  returns (format_vtt_subtitles d).
Proof.
  intros Hall. destruct (get (segments d) []) as [|s segs] eqn:Hs.
  - unfold format_vtt_subtitles. rewrite Hs. now eexists.
  - rewrite format_vtt_subtitles_blocks by congruence. rewrite Hs.
    apply bind_returns, mapM_returns, Forall_forall. intros seg Hin.
    apply vtt_block_returns. rewrite Forall_forall in Hall.
    apply Hall. now apply filter_In in Hin as [Hin _].
Qed.

End SegmentRenderers.

(** ** The word renderer *)

Section WordRenderer.

Import TranscriptionFormatter Rendering.

Lemma word_step_blocks (acc : list string) (w : WordData) :
  word_step acc w
  = if has_word w
    then bind (bind (word_entry w) (fun e => Ok [e])) (fun b => Ok (extend acc b))
    else Ok acc.
Proof.
  unfold word_step, has_word, word_entry.
  destruct (is_empty _); simpl; [reflexivity |].
  destruct (format_timestamp _); simpl; [| reflexivity].
  now destruct (format_timestamp _).
Qed.

Lemma word_entries_of_group (group : list WordData) :
  for_each word_step group [] = mapM word_entry (filter has_word group).
Proof.
  rewrite (for_each_blocks has_word (fun w => bind (word_entry w) (fun e => Ok [e]))
             word_step word_step_blocks).
  rewrite <- (mapM_singletons word_entry (filter has_word group)). reflexivity.
Qed.

Lemma line_step_blocks (words : list WordData) (acc : list string) (i : nat) :
  line_step words acc i
  = bind (group_lines (slice words i (i + words_per_line)))
      (fun ls => Ok (extend acc ls)).
Proof.
  unfold line_step, group_lines. rewrite word_entries_of_group.
  destruct (mapM word_entry _) as [entries|e]; simpl; [| reflexivity].
  destruct entries; simpl; [| reflexivity].
  unfold extend. now rewrite app_nil_r.
Qed.

Lemma format_word_timestamps_groups (d : TranscriptionData) :
  get (words d) [] <> [] ->
  format_word_timestamps d
  = bind (mapM group_lines (word_groups (get (words d) [])))
      (fun ls => Ok (join nl (extend word_header (List.concat ls)))).
Proof.
  intros Hne. unfold format_word_timestamps.
  destruct (get (words d) []) as [|w ws] eqn:Hw; [congruence |].
  cbn [is_nil].
  rewrite (for_each_blocks (fun _ => true)
             (fun i => group_lines (slice (w :: ws) i (i + words_per_line)))
             (line_step (w :: ws))).
  - rewrite filter_all. unfold word_groups. rewrite mapM_map.
    now destruct (mapM _ _).
  - intros acc i. apply line_step_blocks.
Qed.

Lemma slice_chunk {X : Type} (xs : list X) (i n : nat) :
  slice xs i (i + n) = firstn n (skipn i xs).
Proof. unfold slice. f_equal. lia. Qed.

Lemma chunks_concat {X : Type} (c : nat) :
  forall xs : list X,
    (List.length xs <= 8 * c)%nat ->
    List.concat (map (fun k => firstn 8 (skipn (k * 8) xs)) (seq 0 c)) = xs.
Proof.
  induction c as [|c IH]; intros xs Hlen.
  - destruct xs; [reflexivity | simpl in Hlen; lia].
  - cbn [seq map List.concat]. rewrite <- seq_shift, map_map.
    rewrite (map_ext _ (fun k => firstn 8 (skipn (k * 8) (skipn 8 xs)))).
    + rewrite IH.
      * apply firstn_skipn.
      * rewrite length_skipn. lia.
    + intros k. rewrite skipn_skipn. f_equal. f_equal. lia.
Qed.

Lemma chunk_count_covers (n : nat) : (n <= 8 * ((n + 8 - 1) / 8))%nat.
Proof.
  pose proof (Nat.div_mod_eq (n + 8 - 1) 8).
  pose proof (Nat.mod_upper_bound (n + 8 - 1) 8). lia.
Qed.

Lemma chunk_count_tight (n k : nat) :
  (k < (n + 8 - 1) / 8)%nat -> (8 * k < n)%nat.
Proof.
  pose proof (Nat.div_mod_eq (n + 8 - 1) 8).
  pose proof (Nat.mod_upper_bound (n + 8 - 1) 8). lia.
Qed.

Lemma word_groups_concat (words : list WordData) :
  List.concat (word_groups words) = words.
Proof.
  unfold word_groups, range_step, words_per_line. rewrite map_map.
  rewrite (map_ext _ (fun k => firstn 8 (skipn (k * 8) words))).
  - apply chunks_concat, chunk_count_covers.
  - intros k. apply slice_chunk.
Qed.

Lemma word_groups_nth (words : list WordData) (k : nat) (g : list WordData) :
  nth_error (word_groups words) k = Some g ->
  g = firstn 8 (skipn (8 * k) words)
  /\ (1 <= List.length g <= 8)%nat
  /\ ((S k < List.length (word_groups words))%nat -> List.length g = 8%nat).
Proof.
  unfold word_groups, range_step, words_per_line. rewrite map_map.
  rewrite length_map, length_seq.
  intros H. rewrite nth_error_map in H.
  destruct (nth_error (seq 0 _) k) as [k'|] eqn:Hk; [| discriminate].
  injection H as <-.
  assert (Hlt : (k < (List.length words + 8 - 1) / 8)%nat).
  { assert (Hs : nth_error (seq 0 ((List.length words + 8 - 1) / 8)) k <> None)
      by congruence.
    apply nth_error_Some in Hs. now rewrite length_seq in Hs. }
  rewrite nth_error_seq in Hk.
  destruct (Nat.ltb_spec k ((List.length words + 8 - 1) / 8)); [| lia].
  injection Hk as <-. cbn [Nat.add].
  rewrite slice_chunk, (Nat.mul_comm k 8).
  split; [reflexivity |].
  rewrite length_firstn, length_skipn.
  pose proof (chunk_count_tight (List.length words) k Hlt).
  split; [lia |].
  intros Hnext. pose proof (chunk_count_tight (List.length words) (S k) Hnext). lia.
Qed.

Lemma format_word_timestamps_returns (d : TranscriptionData) :
  Forall word_times_accepted (get (words d) []) ->
  returns (format_word_timestamps d).
Proof.
  intros Hall. destruct (get (words d) []) as [|w ws] eqn:Hw.
  - unfold format_word_timestamps. rewrite Hw. now eexists.
  - rewrite format_word_timestamps_groups by congruence. rewrite Hw.
    apply bind_returns, mapM_returns, Forall_forall. intros g Hg.
    unfold group_lines.
    apply (bind_returns _
             (fun entries =>
                if is_nil entries then [] else [join " | " entries; EmptyString])).
    apply mapM_returns, Forall_forall. intros x Hx.
    apply filter_In in Hx as [Hx _].
    assert (Hin : In x (w :: ws)).
    { rewrite <- (word_groups_concat (w :: ws)). apply in_concat. now exists g. }
    rewrite Forall_forall in Hall. destruct (Hall x Hin) as [Hs He].
    apply accepted_default in Hs as [s Hs]. apply accepted_default in He as [e He].
    unfold word_entry. rewrite Hs, He. cbn [bind]. now eexists.
Qed.

End WordRenderer.

(** ** Substrings of joined lines *)

Section Contains.

Lemma contains_refl (s : string) : contains s s.
Proof. exists EmptyString, EmptyString. simpl. now rewrite string_app_nil_r. Qed.

Lemma contains_trans (a b c : string) : contains a b -> contains b c -> contains a c.
Proof.
  intros (p1 & q1 & ->) (p2 & q2 & ->).
  exists (p2 ++ p1), (q1 ++ q2). now rewrite !string_app_assoc.
Qed.

Lemma contains_app_l (a b c : string) : contains a b -> contains a (b ++ c).
Proof.
  intros (p & q & ->). exists p, (q ++ c). now rewrite !string_app_assoc.
Qed.

Lemma contains_app_r (a b c : string) : contains a c -> contains a (b ++ c).
Proof.
  intros (p & q & ->). exists (b ++ p), q. now rewrite !string_app_assoc.
Qed.

Lemma contains_join (sep x : string) (lines : list string) :
  In x lines -> contains x (join sep lines).
Proof.
  unfold join. induction lines as [|y lines IH]; [intros [] |].
  intros [-> | Hin]; simpl.
  - destruct lines; [apply contains_refl | apply contains_app_l, contains_refl].
  - destruct lines as [|z lines]; [destruct Hin |].
    apply contains_app_r, contains_app_r, IH, Hin.
Qed.

Lemma Forall2_In_l {X Y : Type} (R : X -> Y -> Prop) (xs : list X) (ys : list Y)
  (x : X) :
  Forall2 R xs ys -> In x xs -> exists y, In y ys /\ R x y.
Proof.
  induction 1 as [|x' y' xs ys Hxy _ IH]; [intros [] |].
  intros [<- | Hin].
  - exists y'. split; [now left | exact Hxy].
  - destruct (IH Hin) as (y & Hy & HR). exists y. split; [now right | exact HR].
Qed.

End Contains.

(** C1, as amended. For a non-empty segment list the SRT rendering is
    the blocks of the segments whose stripped text is not empty, in
    order, each block headed by the 1-based position of its segment in
    the whole segment list: the n-th emitted block (n counted from 0
    below) carries the number n + 1 plus the number of skipped segments
    that precede it, so a skipped segment does consume a number. *)
Theorem srt_numbers_are_positions (d : TranscriptionData) :
  get (segments d) [] <> [] ->
  TranscriptionFormatter.format_srt_subtitles d
  = bind (mapM Rendering.srt_block
            (Rendering.emitted_segments (get (segments d) [])))
      (fun blocks => Ok (join nl (List.concat blocks)))
  /\ forall (n i : nat) (seg : Segment),
       nth_error (Rendering.emitted_segments (get (segments d) [])) n = Some (i, seg) ->
       nth_error (get (segments d) []) (i - 1) = Some seg
       /\ Rendering.has_text seg = true
       /\ (i = n + 1
               + Rendering.count_skipped (firstn (i - 1) (get (segments d) [])))%nat.
Proof.
  intros Hne. split; [now apply format_srt_subtitles_blocks |].
  intros n i seg H. apply emitted_position in H as (_ & Hnth & Ht & Hpos).
  repeat split; assumption.
Qed.

Lemma srt_numbers_are_positions_witness :
  get (segments Samples.blank_then_hello) [] <> []
  /\ TranscriptionFormatter.format_srt_subtitles Samples.blank_then_hello
     = bind (mapM Rendering.srt_block
               (Rendering.emitted_segments
                  (get (segments Samples.blank_then_hello) [])))
         (fun blocks => Ok (join nl (List.concat blocks))).
Proof.
  assert (H : get (segments Samples.blank_then_hello) [] <> [])
    by (simpl; discriminate).
  split; [exact H |].
  exact (proj1 (srt_numbers_are_positions Samples.blank_then_hello H)).
Defined.

(** C1, the claim as stated fails: with a blank segment before it, the
    first emitted block carries the number 2. *)
Lemma srt_block_after_blank_is_numbered_2 :
  TranscriptionFormatter.format_srt_subtitles Samples.blank_then_hello
  = Ok (join nl ["2"; "00:00:00,500 --> 00:00:01,500"; "Hello"; EmptyString])
  /\ Rendering.emitted_segments (get (segments Samples.blank_then_hello) [])
     = [(2%nat, {| seg_start := Some 0.5%float; seg_end := Some 1.5%float;
                   seg_text := Some "Hello" |})].
Proof. split; vm_compute; reflexivity. Qed.

(** C6. With an empty (or missing) word list [format_word_timestamps]
    returns its sentinel, and with an empty (or missing) segment list
    [format_segment_timestamps], the SRT and the VTT renderers return
    theirs; none raises, no sentinel is the empty string, and the
    subtitle exports are the bytes of the sentinels. *)
Theorem empty_lists_give_sentinels (d : TranscriptionData) :
  (get (words d) [] = [] ->
   TranscriptionFormatter.format_word_timestamps d
   = Ok "No word-level timestamps available.")
  /\ (get (segments d) [] = [] ->
      TranscriptionFormatter.format_segment_timestamps d
      = Ok "No segment-level timestamps available."
      /\ TranscriptionFormatter.format_srt_subtitles d
         = Ok "No segments available for SRT format."
      /\ TranscriptionFormatter.format_vtt_subtitles d
         = Ok "No segments available for VTT format."
      /\ DocumentExporter.create_subtitle_download d "srt"
         = (Some (encode_utf8 "No segments available for SRT format."), [])
      /\ DocumentExporter.create_subtitle_download d "vtt"
         = (Some (encode_utf8 "No segments available for VTT format."), []))
  /\ is_empty "No word-level timestamps available." = false
  /\ is_empty "No segment-level timestamps available." = false
  /\ is_empty "No segments available for SRT format." = false
  /\ is_empty "No segments available for VTT format." = false
  /\ encode_utf8 "No segments available for SRT format." <> []
  /\ encode_utf8 "No segments available for VTT format." <> [].
Proof.
  split; [| split].
  - intros H. unfold TranscriptionFormatter.format_word_timestamps. now rewrite H.
  - intros H.
    unfold DocumentExporter.create_subtitle_download,
      TranscriptionFormatter.format_segment_timestamps,
      TranscriptionFormatter.format_srt_subtitles,
      TranscriptionFormatter.format_vtt_subtitles.
    rewrite H. repeat split; reflexivity.
  - repeat split; try reflexivity; discriminate.
Qed.

(** C8. For a non-empty segment list [format_segment_timestamps] is
    the header lines followed by one block per segment with non-empty
    stripped text, in order: [Segment] with the position padded with
    zeros to three digits, the [Time:] range of the two timestamps, the
    [Text:] line and a rule of 40 dashes, all joined by newlines.  It
    returns whenever the timestamps of the segments can be formatted;
    positions up to 999 are printed with exactly three digits; and what
    it returns contains the header text and the stripped text of every
    emitted segment. *)
Theorem segment_timestamps_blocks (d : TranscriptionData) :
  get (segments d) [] <> [] ->
  TranscriptionFormatter.format_segment_timestamps d
  = bind (mapM Rendering.segment_block
            (Rendering.emitted_segments (get (segments d) [])))
      (fun blocks =>
         Ok (join nl
               (extend ["SEGMENT-LEVEL TIMESTAMPS"; repeat_char "=" 50; EmptyString]
                  (List.concat blocks))))
  /\ (Forall segment_times_accepted (get (segments d) []) ->
      returns (TranscriptionFormatter.format_segment_timestamps d))
  /\ (forall i : nat, (i <= 999)%nat ->
        String.length (format_0d 3 (Z.of_nat i)) = 3%nat
        /\ all_chars is_digit (format_0d 3 (Z.of_nat i)) = true
        /\ value_of_digits (format_0d 3 (Z.of_nat i)) = Some (N.of_nat i))
  /\ (forall out, TranscriptionFormatter.format_segment_timestamps d = Ok out ->
        contains "SEGMENT-LEVEL TIMESTAMPS" out
        /\ forall seg, In seg (get (segments d) []) ->
             Rendering.has_text seg = true ->
             contains (Rendering.stripped_text seg) out).
Proof.
  intros Hne.
  pose proof (format_segment_timestamps_blocks d Hne) as Heq.
  split; [exact Heq |]. split; [| split].
  - apply format_segment_timestamps_returns.
  - intros i Hi.
    assert (Hz : 0 <= Z.of_nat i < 1000) by lia.
    split; [| split].
    + rewrite format_0d_length by lia.
      pose proof (digits_below_1000 _ Hz) as [H3 _]. lia.
    + apply format_0d_digits. lia.
    + rewrite format_0d_value by lia. f_equal. lia.
  - intros out Hout. rewrite Heq in Hout.
    destruct (mapM Rendering.segment_block _) as [blocks|e] eqn:Hb;
      [| discriminate]. cbn [bind] in Hout. injection Hout as <-.
    split.
    + apply (contains_join nl "SEGMENT-LEVEL TIMESTAMPS"
               (extend TranscriptionFormatter.segment_header (List.concat blocks))).
      now left.
    + intros seg Hin Ht.
      apply In_nth_error in Hin as [j Hj].
      pose proof (emitted_from_complete _ 1 j seg Hj Ht) as Hem.
      apply mapM_Forall2 in Hb.
      destruct (Forall2_In_l _ _ _ _ Hb Hem) as (block & Hblock & Hsb).
      unfold Rendering.segment_block in Hsb. simpl in Hsb.
      destruct (format_timestamp _) as [s|]; [| discriminate]. simpl in Hsb.
      destruct (format_timestamp _) as [e|]; [| discriminate]. simpl in Hsb.
      injection Hsb as <-.
      apply contains_trans with ("Text: " ++ Rendering.stripped_text seg).
      * apply contains_app_r, contains_refl.
      * apply (contains_join nl _
                 (extend TranscriptionFormatter.segment_header (List.concat blocks))).
        unfold extend. apply in_or_app. right.
        apply in_concat. eexists. split; [exact Hblock |].
        simpl. auto.
Qed.

Lemma segment_timestamps_blocks_witness :
  get (segments Samples.sample_data) [] <> []
  /\ returns (TranscriptionFormatter.format_segment_timestamps Samples.sample_data).
Proof.
  assert (H : get (segments Samples.sample_data) [] <> [])
    by (simpl; discriminate).
  split; [exact H |].
  apply (proj1 (proj2 (segment_timestamps_blocks Samples.sample_data H))).
  repeat constructor; simpl; eexists; vm_compute; reflexivity.
Defined.

(** C7, as amended. For a non-empty word list [format_word_timestamps]
    is a header of four lines (the banner, a rule of 50 equal signs, the
    line [Each word shown with individual timestamps] and a blank line)
    followed, for every group of 8 consecutive words (the last group may
    be shorter), by the entries of the words of the group whose stripped
    text is not empty, each rendered as the quoted word and
    [[start-end]] and joined with [ | ], and by a blank line; a group
    with no such word adds nothing; all lines are joined by newlines.
    Skipped words count toward the groups: the groups are cut from the
    word list as it is. *)
Theorem word_timestamps_rendering (d : TranscriptionData) :
  get (words d) [] <> [] ->
  TranscriptionFormatter.format_word_timestamps d
  = bind (mapM Rendering.group_lines (Rendering.word_groups (get (words d) [])))
      (fun ls =>
         Ok (join nl
               (extend
                  ["WORD-LEVEL TIMESTAMPS"; repeat_char "=" 50;
                   "Each word shown with individual timestamps"; EmptyString]
                  (List.concat ls))))
  /\ List.concat (Rendering.word_groups (get (words d) [])) = get (words d) []
  /\ (forall (k : nat) (g : list WordData),
        nth_error (Rendering.word_groups (get (words d) [])) k = Some g ->
        g = firstn 8 (skipn (8 * k) (get (words d) []))
        /\ (1 <= List.length g <= 8)%nat
        /\ ((S k < List.length (Rendering.word_groups (get (words d) [])))%nat ->
            List.length g = 8%nat))
  /\ (Forall word_times_accepted (get (words d) []) ->
      returns (TranscriptionFormatter.format_word_timestamps d)).
Proof.
  intros Hne.
  pose proof (format_word_timestamps_groups d Hne) as Heq.
  split; [exact Heq |]. split; [apply word_groups_concat |].
  split; [apply word_groups_nth |].
  apply format_word_timestamps_returns.
Qed.

Lemma word_timestamps_rendering_witness :
  get (words Samples.sample_data) [] <> []
  /\ returns (TranscriptionFormatter.format_word_timestamps Samples.sample_data).
Proof.
  assert (H : get (words Samples.sample_data) [] <> [])
    by (simpl; discriminate).
  split; [exact H |].
  apply (proj2 (proj2 (proj2 (word_timestamps_rendering Samples.sample_data H)))).
  repeat constructor; simpl; eexists; vm_compute; reflexivity.
Defined.

(** C7, the claim as stated fails: on the sample of the test suite the
    header has four lines, not two, and the output ends with a newline
    after its only group; it is not the two-line banner followed by the
    groups. *)
Lemma word_header_has_four_lines :
  TranscriptionFormatter.format_word_timestamps Samples.sample_data
  = Ok (join nl
          ["WORD-LEVEL TIMESTAMPS"; repeat_char "=" 50;
           "Each word shown with individual timestamps"; EmptyString;
           dquote ++ "Hello" ++ dquote ++ " [00:00:00.000-00:00:00.500] | "
             ++ dquote ++ "world" ++ dquote ++ " [00:00:00.600-00:00:01.000] | "
             ++ dquote ++ "test" ++ dquote ++ " [00:00:01.100-00:00:01.500]";
           EmptyString])
  /\ TranscriptionFormatter.format_word_timestamps Samples.sample_data
     <> Ok (Claimed.word_rendering
              [dquote ++ "Hello" ++ dquote ++ " [00:00:00.000-00:00:00.500] | "
                 ++ dquote ++ "world" ++ dquote ++ " [00:00:00.600-00:00:01.000] | "
                 ++ dquote ++ "test" ++ dquote ++ " [00:00:01.100-00:00:01.500]"]).
Proof.
  split; [vm_compute; reflexivity |].
  intros H. vm_compute in H. discriminate H.
Qed.

(** ** File names *)

Section Filenames.

Import DocumentExporter.

Lemma filter_chars_all (keep : ascii -> bool) (s : string) :
  all_chars keep (filter_chars keep s) = true.
Proof.
  induction s as [|c s IH]; simpl; [reflexivity |].
  destruct (keep c) eqn:Hc; simpl; [now rewrite Hc |]; exact IH.
Qed.

Lemma replace_all_chars (p q : ascii -> bool) (old new : ascii) (s : string) :
  (forall c, p c = true -> q (if Ascii.eqb c old then new else c) = true) ->
  all_chars p s = true -> all_chars q (replace old new s) = true.
Proof.
  intros Hpq. induction s as [|c s IH]; simpl; [reflexivity |].
  intros H. apply andb_prop in H as [Hc Hs]. now rewrite (Hpq c Hc), IH.
Qed.

Lemma app_not_empty_r (a b : string) : is_empty b = false -> is_empty (a ++ b) = false.
Proof. destruct a; simpl; auto. Qed.

End Filenames.

(** C2, as amended. [get_filename] takes the default base name when
    [base_name] is empty, keeps of the base name only its alphanumerics,
    spaces, hyphens and underscores, replaces the spaces by underscores,
    and returns [<clean_base>_<format_type>.<file_format>].  The clean
    base holds only alphanumerics, hyphens and underscores; the result
    is never empty and the function never fails.  The default is used
    only for a [base_name] that is empty to begin with: when
    sanitization removes every character the clean base is empty and
    the result is [_<format_type>.<file_format>].  The alphanumerics
    are those of [str.isalnum], letters with accents included: the
    base name [Caf] followed by U+00E9 is kept whole. *)
Theorem get_filename_sanitizes (base_name format_type file_format : string) :
  DocumentExporter.get_filename base_name format_type file_format
  = replace " " "_"
      (filter_chars
         (fun c => isalnum c || Ascii.eqb c " " || Ascii.eqb c "-" || Ascii.eqb c "_")
         (if is_empty base_name then config.DEFAULT_FILENAME_PREFIX else base_name))
    ++ "_" ++ format_type ++ "." ++ file_format
  /\ all_chars (fun c => isalnum c || Ascii.eqb c "-" || Ascii.eqb c "_")
       (replace " " "_"
          (filter_chars
             (fun c => isalnum c || Ascii.eqb c " " || Ascii.eqb c "-" || Ascii.eqb c "_")
             (if is_empty base_name then config.DEFAULT_FILENAME_PREFIX else base_name)))
     = true
  /\ is_empty (DocumentExporter.get_filename base_name format_type file_format) = false
  /\ DocumentExporter.get_filename EmptyString format_type file_format
     = "transcription_" ++ format_type ++ "." ++ file_format
  /\ (is_empty base_name = false ->
      filter_chars
        (fun c => isalnum c || Ascii.eqb c " " || Ascii.eqb c "-" || Ascii.eqb c "_")
        base_name = EmptyString ->
      DocumentExporter.get_filename base_name format_type file_format
      = "_" ++ format_type ++ "." ++ file_format)
  /\ DocumentExporter.get_filename "test file" "plain_text" "txt"
     = "test_file_plain_text.txt"
  /\ DocumentExporter.get_filename ("Caf" ++ String "233" EmptyString)
       "plain_text" "txt"
     = "Caf" ++ String "233" "_plain_text.txt".
Proof.
  split; [reflexivity |]. split; [| split; [| split; [| split; [| split]]]].
  - apply replace_all_chars with (2 := filter_chars_all _ _).
    intros c. destruct (Ascii.eqb c " ") eqn:Hc.
    + intros _. reflexivity.
    + rewrite orb_false_r. trivial.
  - unfold DocumentExporter.get_filename. apply app_not_empty_r. reflexivity.
  - reflexivity.
  - intros Hne Hf. unfold DocumentExporter.get_filename. now rewrite Hne, Hf.
  - reflexivity.
  - reflexivity.
Qed.

(** C2, the claim as stated fails: a base name that sanitization
    empties does not fall back to the default base name. *)
Lemma get_filename_no_fallback_after_cleaning :
  DocumentExporter.get_filename "???" "plain_text" "txt" = "_plain_text.txt"
  /\ DocumentExporter.get_filename "???" "plain_text" "txt"
     <> config.DEFAULT_FILENAME_PREFIX ++ "_plain_text.txt".
Proof. split; [reflexivity | discriminate]. Qed.

(** ** The summary *)

Section Summary.

Import TranscriptionFormatter.

Lemma filter_chars_app (keep : ascii -> bool) (a b : string) :
  filter_chars keep (a ++ b) = filter_chars keep a ++ filter_chars keep b.
Proof.
  induction a as [|c a IH]; simpl; [reflexivity |].
  destruct (keep c); simpl; now rewrite IH.
Qed.

(** Without its commas a grouped number is the number. *)
Lemma group_thousands_digits (ds : string) :
  all_chars is_digit ds = true ->
  filter_chars (fun c => negb (Ascii.eqb c ",")) (group_thousands ds) = ds.
Proof.
  induction ds as [|c ds IH]; simpl; [reflexivity |].
  intros H. apply andb_prop in H as [Hc Hds].
  assert (Hcomma : Ascii.eqb c "," = false).
  { destruct c as [[|] [|] [|] [|] [|] [|] [|] [|]]; try reflexivity;
      discriminate Hc. }
  rewrite Hcomma. cbn [negb]. f_equal.
  rewrite filter_chars_app, IH by exact Hds.
  match goal with |- context [if ?b then _ else _] => destruct b end; reflexivity.
Qed.

Lemma str_of_Z_nonneg (n : Z) : 0 <= n -> str_of_Z n = digits_of_Z n.
Proof. destruct n; [reflexivity | reflexivity | lia]. Qed.

Lemma summary_items_of (d : TranscriptionData) (items : list (string * string)) :
  get_transcription_summary d = Ok items ->
  exists duration_ts wpm,
    format_timestamp (get (duration d) 0%float) = Ok duration_ts
    /\ words_per_minute (get (word_count d) 0) (get (duration d) 0%float) = Ok wpm
    /\ items
       = [("Duration", duration_ts);
          ("Word Count", format_thousands (get (word_count d) 0));
          ("Segments", str_of_Z (get (segment_count d) 0));
          ("Language", upper (get (language d) "unknown"));
          ("Words per Minute", str_of_Z wpm);
          ("Characters",
            format_thousands
              (Z.of_nat (String.length (get (text d) EmptyString))))].
Proof.
  unfold get_transcription_summary.
  destruct (words_per_minute _ _) as [wpm|e]; cbn [bind]; [| discriminate].
  destruct (format_timestamp _) as [ts|e]; cbn [bind]; [| discriminate].
  intros [= <-]. now exists ts, wpm.
Qed.

Lemma summary_returns (d : TranscriptionData) :
  returns (format_timestamp (get (duration d) 0%float)) ->
  returns (words_per_minute (get (word_count d) 0) (get (duration d) 0%float)) ->
  returns (get_transcription_summary d).
Proof.
  intros [ts Hts] [wpm Hwpm]. unfold get_transcription_summary.
  rewrite Hwpm, Hts. cbn [bind]. now eexists.
Qed.

Lemma summary_zero_duration (d : TranscriptionData) :
  duration d = None \/ duration d = Some 0%float ->
  exists items,
    get_transcription_summary d = Ok items
    /\ In ("Duration", "00:00:00.000") items
    /\ In ("Words per Minute", "0") items.
Proof.
  intros Hd.
  assert (Hz : get (duration d) 0%float = 0%float)
    by (destruct Hd as [-> | ->]; reflexivity).
  unfold get_transcription_summary. rewrite Hz.
  replace (words_per_minute (get (word_count d) 0) 0) with (@Ok Z 0)
    by reflexivity.
  replace (format_timestamp 0) with (Ok "00:00:00.000")
    by (vm_compute; reflexivity).
  cbn [bind]. eexists. split; [reflexivity |].
  split; [now left | do 4 right; now left].
Qed.

End Summary.

(** C5, as amended. Whenever [get_transcription_summary] returns, its
    result has exactly the keys Duration, Word Count, Segments,
    Language, Words per Minute, Characters, in that order: the
    formatted timestamp of the duration, the word count and the length
    of the text with a comma before each group of three digits, the
    segment count, the uppercased language, and the words per minute.
    Words per minute is [int(word_count / (duration / 60))] in binary64
    when [duration > 0] and 0 otherwise; with a zero or missing duration
    the function returns, with Duration [00:00:00.000] and Words per
    Minute [0].  On the sample of the test suite Words per Minute is
    120 and Characters is 16. *)
Theorem summary_contents (d : TranscriptionData) :
  (forall items,
      TranscriptionFormatter.get_transcription_summary d = Ok items ->
      exists duration_ts wpm,
        format_timestamp (get (duration d) 0%float) = Ok duration_ts
        /\ TranscriptionFormatter.words_per_minute
             (get (word_count d) 0) (get (duration d) 0%float) = Ok wpm
        /\ items
           = [("Duration", duration_ts);
              ("Word Count", format_thousands (get (word_count d) 0));
              ("Segments", str_of_Z (get (segment_count d) 0));
              ("Language", upper (get (language d) "unknown"));
              ("Words per Minute", str_of_Z wpm);
              ("Characters",
                format_thousands
                  (Z.of_nat (String.length (get (text d) EmptyString))))])
  /\ (forall wc dur, (0 <? dur)%float = false ->
        TranscriptionFormatter.words_per_minute wc dur = Ok 0)
  /\ (forall wc dur a, (0 <? dur)%float = true ->
        TranscriptionFormatter.float_of_int wc = Ok a ->
        (dur / 60 =? 0)%float = false ->
        TranscriptionFormatter.words_per_minute wc dur
        = PyFloat.to_Z (a / (dur / 60))%float)
  /\ (duration d = None \/ duration d = Some 0%float ->
      exists items,
        TranscriptionFormatter.get_transcription_summary d = Ok items
        /\ In ("Duration", "00:00:00.000") items
        /\ In ("Words per Minute", "0") items)
  /\ (forall n, 0 <= n ->
        filter_chars (fun c => negb (Ascii.eqb c ",")) (format_thousands n)
        = str_of_Z n)
  /\ format_thousands 1234567 = "1,234,567"
  /\ TranscriptionFormatter.get_transcription_summary Samples.sample_data
     = Ok [("Duration", "00:00:01.500"); ("Word Count", "3"); ("Segments", "1");
           ("Language", "EN"); ("Words per Minute", "120"); ("Characters", "16")].
Proof.
  split; [apply summary_items_of |].
  split.
  { intros wc dur H. unfold TranscriptionFormatter.words_per_minute. now rewrite H. }
  split.
  { intros wc dur a H Ha Hq. unfold TranscriptionFormatter.words_per_minute.
    rewrite H, Ha. cbn [bind]. now rewrite Hq. }
  split; [apply summary_zero_duration |].
  split.
  { intros n Hn. unfold format_thousands.
    destruct (Z.ltb_spec n 0); [lia |]. cbn [append].
    rewrite group_thousands_digits by apply digits_of_Z_digits.
    symmetry. now apply str_of_Z_nonneg. }
  split; vm_compute; reflexivity.
Qed.

(** C5, the claim as stated fails: with the smallest positive duration
    the guard [duration > 0] passes, [duration / 60] is zero and the
    division raises; and with a duration of 1e14 seconds the duration
    cannot be formatted. *)
Lemma summary_raises :
  TranscriptionFormatter.get_transcription_summary Samples.tiny_duration
  = Raise ZeroDivisionError
  /\ (0 <? 5e-324)%float = true
  /\ (5e-324 / 60 =? 0)%float = true
  /\ TranscriptionFormatter.get_transcription_summary Samples.long_duration
     = Raise OverflowError.
Proof. repeat split; vm_compute; reflexivity. Qed.

(** ** Exports *)

Section Exports.

Import TranscriptionFormatter DocumentExporter.

Lemma try_export_cases (prefix : string) (body : Result (option (list Byte.byte))) :
  match body with
  | Ok payload => try_export prefix body = (payload, [])
  | Raise e => try_export prefix body = (None, [st_error prefix e])
  end.
Proof. now destruct body. Qed.

Lemma create_docx_download_cases (save : Document -> Result (list Byte.byte))
  (d : TranscriptionData) (format_type filename : string) :
  match bind (assemble_docx d format_type) save with
  | Ok payload =>
      create_docx_download save d format_type filename = (Some payload, [])
  | Raise e =>
      create_docx_download save d format_type filename
      = (None, [st_error "Error creating DOCX document: " e])
  end.
Proof.
  unfold create_docx_download.
  destruct (assemble_docx d format_type) as [doc|e]; cbn [bind]; [| reflexivity].
  now destruct (save doc).
Qed.

Lemma long_duration_not_assembled (format_type : string) :
  assemble_docx Samples.long_duration format_type = Raise OverflowError.
Proof.
  unfold assemble_docx, _add_summary_section.
  replace (get_transcription_summary Samples.long_duration)
    with (@Raise (list (string * string)) OverflowError)
    by (vm_compute; reflexivity).
  reflexivity.
Qed.

End Exports.

(** C9. [create_docx_download] returns the bytes that [doc.save]
    produced when the assembly of the document and the serialisation
    both returned, and otherwise reports the exception with [st.error]
    and returns [None]: when the assembly raises, the result is [None]
    whatever the serialiser is, so no partial payload is produced (a
    duration of 1e14 seconds is such a case).  [create_subtitle_download]
    returns the UTF-8 bytes of the whole rendered SRT or VTT string, or
    [None] with the exception reported when the renderer raised, or
    [None] for any other format. *)
Theorem exports_are_all_or_nothing
  (save : Document -> Result (list Byte.byte)) (d : TranscriptionData)
  (format_type filename subtitle_format : string) :
  match bind (DocumentExporter.assemble_docx d format_type) save with
  | Ok payload =>
      DocumentExporter.create_docx_download save d format_type filename
      = (Some payload, [])
  | Raise e =>
      DocumentExporter.create_docx_download save d format_type filename
      = (None, [st_error "Error creating DOCX document: " e])
  end
  /\ (forall e, DocumentExporter.assemble_docx d format_type = Raise e ->
        forall save' : Document -> Result (list Byte.byte),
          DocumentExporter.create_docx_download save' d format_type filename
          = (None, [st_error "Error creating DOCX document: " e]))
  /\ DocumentExporter.create_docx_download save Samples.long_duration format_type
       filename
     = (None, [st_error "Error creating DOCX document: " OverflowError])
  /\ DocumentExporter.create_subtitle_download d "srt"
     = match TranscriptionFormatter.format_srt_subtitles d with
       | Ok content => (Some (encode_utf8 content), [])
       | Raise e => (None, [st_error "Error creating subtitle file: " e])
       end
  /\ DocumentExporter.create_subtitle_download d "vtt"
     = match TranscriptionFormatter.format_vtt_subtitles d with
       | Ok content => (Some (encode_utf8 content), [])
       | Raise e => (None, [st_error "Error creating subtitle file: " e])
       end
  /\ (subtitle_format <> "srt" -> subtitle_format <> "vtt" ->
      DocumentExporter.create_subtitle_download d subtitle_format = (None, [])).
Proof.
  split; [apply create_docx_download_cases |].
  split.
  { intros e He save'.
    pose proof (create_docx_download_cases save' d format_type filename) as H.
    now rewrite He in H. }
  split.
  { pose proof (create_docx_download_cases save Samples.long_duration
                  format_type filename) as H.
    now rewrite long_duration_not_assembled in H. }
  split.
  { unfold DocumentExporter.create_subtitle_download. cbn [String.eqb Ascii.eqb].
    now destruct (TranscriptionFormatter.format_srt_subtitles d). }
  split.
  { unfold DocumentExporter.create_subtitle_download.
    replace (String.eqb "vtt" "srt") with false by reflexivity.
    replace (String.eqb "vtt" "vtt") with true by reflexivity.
    now destruct (TranscriptionFormatter.format_vtt_subtitles d). }
  intros Hs Hv. unfold DocumentExporter.create_subtitle_download.
  apply String.eqb_neq in Hs, Hv. now rewrite Hs, Hv.
Qed.

(** C10, as amended. Absent fields are read with their defaults (the
    empty string for text, the empty list for segments and words, 0 for
    the numbers, [unknown] for the language), and no function raises
    for a missing field: [format_plain_text] always returns; the word,
    segment, SRT and VTT renderers return whenever every start and end
    time that is present can be formatted; the summary returns whenever
    the duration can be formatted and the words per minute computed,
    which is so when the duration is missing.  On the empty dictionary
    [format_plain_text] returns the empty string, the four renderers
    their sentinels, and the summary Duration [00:00:00.000] and Words
    per Minute [0]. *)
Theorem missing_fields_read_as_defaults :
  (forall d, text d = None ->
     TranscriptionFormatter.format_plain_text d = EmptyString)
  /\ (forall d, times_accepted d ->
        returns (TranscriptionFormatter.format_word_timestamps d)
        /\ returns (TranscriptionFormatter.format_segment_timestamps d)
        /\ returns (TranscriptionFormatter.format_srt_subtitles d)
        /\ returns (TranscriptionFormatter.format_vtt_subtitles d))
  /\ (forall d,
        returns (format_timestamp (get (duration d) 0%float)) ->
        returns (TranscriptionFormatter.words_per_minute
                   (get (word_count d) 0) (get (duration d) 0%float)) ->
        returns (TranscriptionFormatter.get_transcription_summary d))
  /\ (forall d, duration d = None ->
        exists items,
          TranscriptionFormatter.get_transcription_summary d = Ok items
          /\ In ("Duration", "00:00:00.000") items
          /\ In ("Words per Minute", "0") items)
  /\ (forall d, words d = None ->
        TranscriptionFormatter.format_word_timestamps d
        = Ok "No word-level timestamps available.")
  /\ (forall d, segments d = None ->
        TranscriptionFormatter.format_segment_timestamps d
        = Ok "No segment-level timestamps available."
        /\ TranscriptionFormatter.format_srt_subtitles d
           = Ok "No segments available for SRT format."
        /\ TranscriptionFormatter.format_vtt_subtitles d
           = Ok "No segments available for VTT format.")
  /\ TranscriptionFormatter.format_plain_text empty_data = EmptyString
  /\ TranscriptionFormatter.get_transcription_summary empty_data
     = Ok [("Duration", "00:00:00.000"); ("Word Count", "0"); ("Segments", "0");
           ("Language", "UNKNOWN"); ("Words per Minute", "0"); ("Characters", "0")].
Proof.
  split.
  { intros d H. unfold TranscriptionFormatter.format_plain_text. now rewrite H. }
  split.
  { intros d [Hsegs Hwords]. repeat split.
    - now apply format_word_timestamps_returns.
    - now apply format_segment_timestamps_returns.
    - now apply format_srt_subtitles_returns.
    - now apply format_vtt_subtitles_returns. }
  split; [exact summary_returns |].
  split.
  { intros d H. apply summary_zero_duration. now left. }
  split.
  { intros d H. unfold TranscriptionFormatter.format_word_timestamps. now rewrite H. }
  split.
  { intros d H.
    unfold TranscriptionFormatter.format_segment_timestamps,
      TranscriptionFormatter.format_srt_subtitles,
      TranscriptionFormatter.format_vtt_subtitles.
    rewrite H. repeat split; reflexivity. }
  split; vm_compute; reflexivity.
Qed.

(** C10, the claim as stated fails: on a dictionary that holds only a
    segment list whose segment starts at 1e14 seconds the segment, SRT
    and VTT renderers raise, and on one that holds only the smallest
    positive duration and a word count the summary raises. *)
Lemma formatters_raise_on_some_values :
  TranscriptionFormatter.format_segment_timestamps Samples.late_segment
  = Raise OverflowError
  /\ TranscriptionFormatter.format_srt_subtitles Samples.late_segment
     = Raise OverflowError
  /\ TranscriptionFormatter.format_vtt_subtitles Samples.late_segment
     = Raise OverflowError
  /\ TranscriptionFormatter.get_transcription_summary Samples.tiny_duration
     = Raise ZeroDivisionError.
Proof. repeat split; vm_compute; reflexivity. Qed.

(** * More of the formatter and of the exporter *)

(** X1. Whenever [format_timestamp] returns, whatever float it was
    given, the second field is in 0..59, the millisecond field in
    0..999 and the minute field is non-negative and at most 61, so the
    minutes and the seconds are printed with exactly two digits and the
    milliseconds with exactly three; only the hour field can be wider
    (or, for a negative input, signed), and the result is ten characters
    longer than its hour field. *)
Theorem timestamp_fields_are_clock_fields (x : float) (s : string) :
  format_timestamp x = Ok s ->
  exists h m sec ms,
    timestamp_fields x = Ok (h, m, sec, ms)
    /\ s = format_0d 2 h ++ ":" ++ format_0d 2 m ++ ":" ++ format_0d 2 sec
             ++ "." ++ format_0d 3 ms
    /\ 0 <= m <= 61 /\ 0 <= sec <= 59 /\ 0 <= ms <= 999
    /\ String.length (format_0d 2 m) = 2%nat
    /\ String.length (format_0d 2 sec) = 2%nat
    /\ String.length (format_0d 3 ms) = 3%nat
    /\ String.length s = (String.length (format_0d 2 h) + 10)%nat.
Proof.
  intros H. destruct (format_timestamp_fields x s H) as (h & m & sec & ms & Hf & ->).
  destruct (timestamp_fields_ranges x h m sec ms Hf) as (Hm & Hs & Hms).
  exists h, m, sec, ms.
  pose proof (format_0d_two_digits m ltac:(lia)) as Lm.
  pose proof (format_0d_two_digits sec ltac:(lia)) as Ls.
  pose proof (format_0d_three_digits ms ltac:(lia)) as Lms.
  repeat split; try assumption; try lia.
  rewrite !length_app, Lm, Ls, Lms. simpl. lia.
Qed.

Lemma timestamp_fields_are_clock_fields_witness :
  format_timestamp 125.5 = Ok "00:02:05.500"
  /\ exists h m sec ms,
       timestamp_fields 125.5 = Ok (h, m, sec, ms)
       /\ "00:02:05.500"
          = format_0d 2 h ++ ":" ++ format_0d 2 m ++ ":" ++ format_0d 2 sec
              ++ "." ++ format_0d 3 ms
       /\ 0 <= m <= 61 /\ 0 <= sec <= 59 /\ 0 <= ms <= 999
       /\ String.length (format_0d 2 m) = 2%nat
       /\ String.length (format_0d 2 sec) = 2%nat
       /\ String.length (format_0d 3 ms) = 3%nat
       /\ String.length "00:02:05.500" = (String.length (format_0d 2 h) + 10)%nat.
Proof.
  assert (H : format_timestamp 125.5 = Ok "00:02:05.500")
    by (vm_compute; reflexivity).
  split; [exact H |].
  exact (timestamp_fields_are_clock_fields 125.5 "00:02:05.500" H).
Defined.

(** X2. The comma timestamp of the SRT output has the same fields as
    the timestamp it is made from: whenever it is produced it is the
    hour field, a colon, two digits of minutes, a colon, two digits of
    seconds, a comma and three digits of milliseconds, and holds no
    point. *)
Theorem srt_timestamp_fields (x : float) (s : string) :
  TranscriptionFormatter.srt_timestamp x = Ok s ->
  exists h m sec ms,
    timestamp_fields x = Ok (h, m, sec, ms)
    /\ s = format_0d 2 h ++ ":" ++ format_0d 2 m ++ ":" ++ format_0d 2 sec
             ++ "," ++ format_0d 3 ms
    /\ String.length (format_0d 2 m) = 2%nat
    /\ String.length (format_0d 2 sec) = 2%nat
    /\ String.length (format_0d 3 ms) = 3%nat
    /\ all_chars (fun c => negb (Ascii.eqb c ".")) s = true.
Proof.
  unfold TranscriptionFormatter.srt_timestamp.
  destruct (format_timestamp x) as [ts|e] eqn:Hts; cbn [bind]; [| discriminate].
  intros [= <-].
  destruct (format_timestamp_fields x ts Hts) as (h & m & sec & ms & Hf & ->).
  destruct (timestamp_fields_ranges x h m sec ms Hf) as (Hm & Hs & Hms).
  exists h, m, sec, ms.
  assert (Hno : forall w n, replace "." "," (format_0d w n) = format_0d w n).
  { intros w n. apply replace_no_separator, format_0d_no_separator. }
  assert (Hdot : forall w n,
             all_chars (fun c => negb (Ascii.eqb c ".")) (format_0d w n) = true).
  { intros w n. apply all_chars_weaken with (2 := format_0d_no_separator w n).
    intros c Hc. now apply andb_prop in Hc as [Hc _]. }
  split; [exact Hf |]. split.
  { rewrite !replace_app, !Hno. reflexivity. }
  split; [apply format_0d_two_digits; lia |].
  split; [apply format_0d_two_digits; lia |].
  split; [apply format_0d_three_digits; lia |].
  rewrite !replace_app, !Hno, !all_chars_app, !Hdot. reflexivity.
Qed.

Lemma srt_timestamp_fields_witness :
  TranscriptionFormatter.srt_timestamp 125.5 = Ok "00:02:05,500"
  /\ exists h m sec ms,
       timestamp_fields 125.5 = Ok (h, m, sec, ms)
       /\ "00:02:05,500"
          = format_0d 2 h ++ ":" ++ format_0d 2 m ++ ":" ++ format_0d 2 sec
              ++ "," ++ format_0d 3 ms.
Proof.
  assert (H : TranscriptionFormatter.srt_timestamp 125.5 = Ok "00:02:05,500")
    by (vm_compute; reflexivity).
  split; [exact H |].
  destruct (srt_timestamp_fields 125.5 "00:02:05,500" H)
    as (h & m & sec & ms & H1 & H2 & _).
  exists h, m, sec, ms. split; [exact H1 | exact H2].
Defined.

Section Raising.

Context {A B : Type}.

(** A list comprehension raises what one of its items raises. *)
Lemma mapM_raises (f : A -> Result B) (xs : list A) (e : exn) :
  mapM f xs = Raise e -> exists x, In x xs /\ f x = Raise e.
Proof.
  induction xs as [|x xs IH]; simpl; [discriminate |].
  destruct (f x) as [y|e'] eqn:Hx; cbn [bind].
  - destruct (mapM f xs) as [ys|e'']; cbn [bind]; [discriminate |].
    intros [= ->]. destruct (IH eq_refl) as (x' & Hin & Hx').
    exists x'. split; [now right | exact Hx'].
  - intros [= ->]. exists x. split; [now left | exact Hx].
Qed.

Lemma mapM_nil_filter (f : A -> Result B) (keep : A -> bool) (xs : list A) :
  Forall (fun x => keep x = false) xs -> mapM f (filter keep xs) = Ok [].
Proof.
  induction 1 as [|x xs Hx _ IH]; simpl; [reflexivity |]. now rewrite Hx.
Qed.

End Raising.

Section VttRenderer.

Import TranscriptionFormatter.

Lemma vtt_block_raises (segment : Segment) (e : exn) :
  Rendering.vtt_block segment = Raise e ->
  format_timestamp (get (seg_start segment) 0%float) = Raise e
  \/ format_timestamp (get (seg_end segment) 0%float) = Raise e.
Proof.
  unfold Rendering.vtt_block.
  destruct (format_timestamp (get (seg_start segment) 0%float)) as [s|e1];
    cbn [bind]; [| intros [= ->]; now left].
  destruct (format_timestamp (get (seg_end segment) 0%float)) as [t|e2];
    cbn [bind]; [discriminate | intros [= ->]; now right].
Qed.

End VttRenderer.

(** X3. For a non-empty segment list the VTT rendering is the line
    [WEBVTT], a blank line, and then, for every segment whose stripped
    text is not empty, in order, three lines: the range of its two
    timestamps, its stripped text and a blank line; the blocks carry no
    number.  It returns whenever the times of the segments can be
    formatted, what it returns starts with the [WEBVTT] line and
    contains the text of every emitted segment, and when it raises, the
    exception is the one [format_timestamp] raised on the start or the
    end of a segment with non-empty text: the times of skipped segments
    are never looked at. *)
Theorem vtt_blocks_in_order (d : TranscriptionData) :
  get (segments d) [] <> [] ->
  TranscriptionFormatter.format_vtt_subtitles d
  = bind (mapM Rendering.vtt_block
            (filter Rendering.has_text (get (segments d) [])))
      (fun blocks =>
         Ok (join nl (extend ["WEBVTT"; EmptyString] (List.concat blocks))))
  /\ (Forall segment_times_accepted (get (segments d) []) ->
      returns (TranscriptionFormatter.format_vtt_subtitles d))
  /\ (forall out, TranscriptionFormatter.format_vtt_subtitles d = Ok out ->
        (exists rest, out = "WEBVTT" ++ nl ++ rest)
        /\ forall seg, In seg (get (segments d) []) ->
             Rendering.has_text seg = true ->
             contains (Rendering.stripped_text seg) out)
  /\ (forall e, TranscriptionFormatter.format_vtt_subtitles d = Raise e ->
        exists seg, In seg (get (segments d) [])
          /\ Rendering.has_text seg = true
          /\ (format_timestamp (get (seg_start seg) 0%float) = Raise e
              \/ format_timestamp (get (seg_end seg) 0%float) = Raise e)).
Proof.
  intros Hne.
  pose proof (format_vtt_subtitles_blocks d Hne) as Heq.
  split; [exact Heq |]. split; [apply format_vtt_subtitles_returns |]. split.
  - intros out Hout. rewrite Heq in Hout.
    destruct (mapM Rendering.vtt_block _) as [blocks|e] eqn:Hb; [| discriminate].
    cbn [bind] in Hout. injection Hout as <-. split.
    + exists (join nl (EmptyString :: List.concat blocks)). reflexivity.
    + intros seg Hin Ht.
      assert (Hf : In seg (filter Rendering.has_text (get (segments d) [])))
        by (apply filter_In; now split).
      apply mapM_Forall2 in Hb.
      destruct (Forall2_In_l _ _ _ _ Hb Hf) as (block & Hblock & Hsb).
      unfold Rendering.vtt_block in Hsb.
      destruct (format_timestamp _) as [s|]; [| discriminate]. cbn [bind] in Hsb.
      destruct (format_timestamp _) as [t|]; [| discriminate]. cbn [bind] in Hsb.
      injection Hsb as <-.
      apply (contains_join nl _ (extend ["WEBVTT"; EmptyString] (List.concat blocks))).
      unfold extend. apply in_or_app. right.
      apply in_concat. eexists. split; [exact Hblock |]. simpl. auto.
  - intros e He. rewrite Heq in He.
    destruct (mapM Rendering.vtt_block _) as [blocks|e'] eqn:Hb; [discriminate |].
    cbn [bind] in He. injection He as ->.
    destruct (mapM_raises _ _ _ Hb) as (seg & Hin & Hraise).
    apply filter_In in Hin as [Hin Ht].
    exists seg. split; [exact Hin |]. split; [exact Ht |].
    now apply vtt_block_raises.
Qed.

Lemma vtt_blocks_in_order_witness :
  get (segments Samples.blank_then_hello) [] <> []
  /\ TranscriptionFormatter.format_vtt_subtitles Samples.blank_then_hello
     = bind (mapM Rendering.vtt_block
               (filter Rendering.has_text
                  (get (segments Samples.blank_then_hello) [])))
         (fun blocks =>
            Ok (join nl (extend ["WEBVTT"; EmptyString] (List.concat blocks)))).
Proof.
  assert (H : get (segments Samples.blank_then_hello) [] <> [])
    by (simpl; discriminate).
  split; [exact H |].
  exact (proj1 (vtt_blocks_in_order Samples.blank_then_hello H)).
Defined.


Section DocumentLibrary.

Import TranscriptionFormatter.

Lemma xml_compatible_all_chars (s : string) :
  xml_compatible s = all_chars xml_char s.
Proof. induction s as [|c s IH]; simpl; [reflexivity | now rewrite IH]. Qed.

Lemma xml_compatible_app (a b : string) :
  xml_compatible (a ++ b) = xml_compatible a && xml_compatible b.
Proof. rewrite !xml_compatible_all_chars. apply all_chars_app. Qed.

Lemma digit_or_mark_xml (c : ascii) :
  is_digit c || Ascii.eqb c "-" || Ascii.eqb c "," = true -> xml_char c = true.
Proof.
  destruct c as [[|] [|] [|] [|] [|] [|] [|] [|]]; intros H;
    try reflexivity; discriminate H.
Qed.

Lemma digits_xml (s : string) :
  all_chars is_digit s = true -> xml_compatible s = true.
Proof.
  rewrite xml_compatible_all_chars. apply all_chars_weaken.
  intros c Hc. apply digit_or_mark_xml. now rewrite Hc.
Qed.

Lemma format_0d_xml (width : nat) (n : Z) :
  xml_compatible (format_0d width n) = true.
Proof.
  rewrite xml_compatible_all_chars.
  apply all_chars_weaken with (2 := format_0d_chars width n).
  intros c Hc. apply digit_or_mark_xml. now rewrite Hc.
Qed.

Lemma format_timestamp_xml (x : float) (s : string) :
  format_timestamp x = Ok s -> xml_compatible s = true.
Proof.
  unfold format_timestamp.
  destruct (timestamp_fields x) as [[[[h m] sec] ms]|e]; cbn [bind];
    [| discriminate].
  intros [= <-]. unfold render_timestamp.
  repeat (rewrite ?xml_compatible_app, ?format_0d_xml; cbn [xml_compatible andb]).
  reflexivity.
Qed.

Lemma str_of_Z_xml (n : Z) : xml_compatible (str_of_Z n) = true.
Proof.
  unfold str_of_Z, NilZero.string_of_int, NilZero.string_of_uint.
  destruct (Z.to_int n) as [d|d]; destruct d; try reflexivity;
    try (apply digits_xml; apply uint_digits);
    cbn [xml_compatible]; rewrite digits_xml by apply uint_digits; reflexivity.
Qed.

Lemma group_thousands_xml (ds : string) :
  all_chars is_digit ds = true -> xml_compatible (group_thousands ds) = true.
Proof.
  induction ds as [|c ds IH]; simpl; [reflexivity |].
  intros H. apply andb_prop in H as [Hc Hds].
  rewrite digit_or_mark_xml by now rewrite Hc.
  rewrite xml_compatible_app, IH by exact Hds.
  match goal with |- context [if ?b then _ else _] => destruct b end; reflexivity.
Qed.

Lemma format_thousands_xml (n : Z) : xml_compatible (format_thousands n) = true.
Proof.
  unfold format_thousands.
  rewrite xml_compatible_app, group_thousands_xml by apply digits_of_Z_digits.
  now destruct (n <? 0)%Z.
Qed.

Lemma upper_xml (s : string) : xml_compatible (upper s) = xml_compatible s.
Proof.
  induction s as [|c s IH]; simpl; [reflexivity |]. rewrite IH. f_equal.
  destruct c as [[|] [|] [|] [|] [|] [|] [|] [|]]; reflexivity.
Qed.

Lemma add_text_stored (doc : Document) (text : string) (blocks : list Block) :
  xml_compatible text = true -> add_text doc text blocks = Ok (extend doc blocks).
Proof. unfold add_text. now intros ->. Qed.

(** The table of the summary is stored when the language is. *)
Lemma summary_table (doc : Document) (d : TranscriptionData)
  (summary : list (string * string)) :
  get_transcription_summary d = Ok summary ->
  add_table doc "Table Grid" summary
  = if xml_compatible (get (language d) "unknown")
    then Ok (extend doc [Table "Table Grid" summary])
    else Raise ValueError.
Proof.
  intros H. apply summary_items_of in H as (ts & wpm & Hts & _ & ->).
  unfold add_table. cbn [for_each fst snd].
  change (xml_compatible "Duration") with true.
  change (xml_compatible "Word Count") with true.
  change (xml_compatible "Segments") with true.
  change (xml_compatible "Language") with true.
  change (xml_compatible "Words per Minute") with true.
  change (xml_compatible "Characters") with true.
  rewrite (format_timestamp_xml _ _ Hts), !format_thousands_xml, !str_of_Z_xml,
    upper_xml.
  cbn [andb bind].
  now destruct (xml_compatible (get (language d) "unknown")).
Qed.

End DocumentLibrary.

Section Skipping.

Import TranscriptionFormatter.

Lemma for_each_skips {S A : Type} (step : S -> A -> Result S) (xs : list A) (acc : S) :
  Forall (fun x => step acc x = Ok acc) xs -> for_each step xs acc = Ok acc.
Proof.
  induction 1 as [|x xs Hx _ IH]; simpl; [reflexivity |].
  rewrite Hx. exact IH.
Qed.

Lemma emitted_segments_blank (segs : list Segment) :
  Forall (fun s => Rendering.has_text s = false) segs ->
  Rendering.emitted_segments segs = [].
Proof.
  unfold Rendering.emitted_segments, enumerate1. generalize 1%nat.
  induction segs as [|s segs IH]; intros k H; [reflexivity |].
  inversion H as [|? ? Hs Hrest]; subst. simpl. rewrite Hs. now apply IH.
Qed.

Lemma has_text_false (s : Segment) :
  Rendering.has_text s = false ->
  is_empty (strip (get (seg_text s) EmptyString)) = true.
Proof. unfold Rendering.has_text. now destruct (is_empty _). Qed.

Lemma has_word_false (w : WordData) :
  Rendering.has_word w = false ->
  is_empty (strip (get (w_word w) EmptyString)) = true.
Proof. unfold Rendering.has_word. now destruct (is_empty _). Qed.

Lemma group_lines_blank (g : list WordData) :
  Forall (fun w => Rendering.has_word w = false) g ->
  Rendering.group_lines g = Ok [].
Proof.
  intros H. unfold Rendering.group_lines.
  now rewrite (mapM_nil_filter Rendering.word_entry Rendering.has_word g H).
Qed.

Lemma mapM_all_nil {A B : Type} (f : A -> Result (list B)) (xs : list A) :
  Forall (fun x => f x = Ok []) xs ->
  exists ls, mapM f xs = Ok ls /\ List.concat ls = [].
Proof.
  induction 1 as [|x xs Hx _ (ls & Hls & Hc)]; simpl.
  - now exists [].
  - rewrite Hx, Hls. cbn [bind]. exists ([] :: ls). now split.
Qed.

Lemma Forall_concat {A : Type} (P : A -> Prop) (ls : list (list A)) :
  Forall P (List.concat ls) -> Forall (Forall P) ls.
Proof.
  induction ls as [|l ls IH]; simpl; intros H; constructor.
  - apply Forall_forall. intros x Hx. rewrite Forall_forall in H.
    apply H, in_or_app. now left.
  - apply IH. apply Forall_forall. intros x Hx. rewrite Forall_forall in H.
    apply H, in_or_app. now right.
Qed.

End Skipping.

(** X4. When the segment list is not empty but every segment has a
    blank text, no timestamp is formatted and nothing is raised, whatever
    the times are: the SRT rendering is the empty string (not the
    sentinel of the empty list), so the SRT export is an empty payload;
    the VTT rendering is the line [WEBVTT] and a newline; the segment
    rendering is its three header lines; and the segment section of a
    document is its heading alone.  Likewise a word list of blank words
    gives the four header lines of the word rendering and a word section
    that is its heading alone. *)
Theorem blank_items_render_headers_only (d : TranscriptionData) (doc : Document) :
  (get (segments d) [] <> [] ->
   Forall (fun s => Rendering.has_text s = false) (get (segments d) []) ->
   TranscriptionFormatter.format_srt_subtitles d = Ok EmptyString
   /\ TranscriptionFormatter.format_vtt_subtitles d = Ok ("WEBVTT" ++ nl)
   /\ TranscriptionFormatter.format_segment_timestamps d
      = Ok (join nl ["SEGMENT-LEVEL TIMESTAMPS"; repeat_char "=" 50; EmptyString])
   /\ DocumentExporter.create_subtitle_download d "srt" = (Some [], [])
   /\ DocumentExporter._add_segment_timestamps_section doc d
      = Ok (extend doc [Heading 1 false "Segment-Level Timestamps"]))
  /\ (get (words d) [] <> [] ->
      Forall (fun w => Rendering.has_word w = false) (get (words d) []) ->
      TranscriptionFormatter.format_word_timestamps d
      = Ok (join nl ["WORD-LEVEL TIMESTAMPS"; repeat_char "=" 50;
                     "Each word shown with individual timestamps"; EmptyString])
      /\ DocumentExporter._add_word_timestamps_section doc d
         = Ok (extend doc [Heading 1 false "Word-Level Timestamps"])).
Proof.
  split.
  - intros Hne Hblank.
    assert (Hsrt : TranscriptionFormatter.format_srt_subtitles d = Ok EmptyString).
    { rewrite (format_srt_subtitles_blocks d Hne).
      now rewrite (emitted_segments_blank _ Hblank). }
    split; [exact Hsrt |]. split; [| split; [| split]].
    + rewrite (format_vtt_subtitles_blocks d Hne).
      now rewrite (mapM_nil_filter Rendering.vtt_block Rendering.has_text _ Hblank).
    + rewrite (format_segment_timestamps_blocks d Hne).
      now rewrite (emitted_segments_blank _ Hblank).
    + unfold DocumentExporter.create_subtitle_download. cbn [String.eqb].
      change (String.eqb "srt" "srt") with true. cbv iota.
      now rewrite Hsrt.
    + unfold DocumentExporter._add_segment_timestamps_section, add_heading.
      rewrite add_text_stored by reflexivity. cbn [bind].
      destruct (get (segments d) []) as [|s0 segs] eqn:Hs; [congruence |].
      cbn [is_nil]. apply for_each_skips.
      apply Forall_forall. intros [i s] Hin.
      assert (Hs' : In s (s0 :: segs)).
      { unfold enumerate1 in Hin. now apply in_combine_r in Hin. }
      rewrite Forall_forall in Hblank. specialize (Hblank s Hs').
      unfold DocumentExporter.segment_section_step.
      now rewrite (has_text_false s Hblank).
  - intros Hne Hblank. split.
    + rewrite (format_word_timestamps_groups d Hne).
      assert (Hg : Forall (fun g => Rendering.group_lines g = Ok [])
                     (Rendering.word_groups (get (words d) []))).
      { pose proof (word_groups_concat (get (words d) [])) as Hc.
        rewrite <- Hc in Hblank. apply Forall_concat in Hblank.
        apply Forall_forall. intros g Hin. rewrite Forall_forall in Hblank.
        apply group_lines_blank. now apply Hblank. }
      destruct (mapM_all_nil _ _ Hg) as (ls & -> & Hnil).
      cbn [bind]. now rewrite Hnil.
    + unfold DocumentExporter._add_word_timestamps_section, add_heading.
      rewrite add_text_stored by reflexivity. cbn [bind].
      destruct (get (words d) []) as [|w0 ws] eqn:Hw; [congruence |].
      cbn [is_nil].
      match goal with
      | |- context [for_each ?step ?xs ?acc] => rewrite (for_each_skips step xs acc)
      end.
      * reflexivity.
      * apply Forall_forall. intros w Hin.
        rewrite Forall_forall in Hblank. specialize (Hblank w Hin).
        unfold DocumentExporter.word_section_step.
        now rewrite (has_word_false w Hblank).
Qed.

Section DocxSegments.

Import TranscriptionFormatter.
Import DocxRendering.

Lemma time_range_xml (before start_ts end_ts after : string) :
  xml_compatible before = true -> xml_compatible start_ts = true ->
  xml_compatible end_ts = true -> xml_compatible after = true ->
  xml_compatible
    (before ++ start_ts ++ " " ++ DocumentExporter.arrow ++ " " ++ end_ts ++ after)
  = true.
Proof.
  intros Hb Hs He Ha.
  repeat (rewrite ?xml_compatible_app, ?Hb, ?Hs, ?He, ?Ha;
          cbn [xml_compatible andb]).
  reflexivity.
Qed.

Lemma segment_section_step_blocks (doc : Document) (entry : nat * Segment) :
  DocumentExporter.segment_section_step doc entry
  = if Rendering.has_text (snd entry)
    then bind (segment_blocks entry) (fun b => Ok (extend doc b))
    else Ok doc.
Proof.
  destruct entry as [i segment].
  unfold DocumentExporter.segment_section_step, segment_blocks, Rendering.has_text,
    Rendering.stripped_text. cbn [fst snd].
  destruct (is_empty (strip (get (seg_text segment) EmptyString))); cbn [negb];
    [reflexivity |].
  unfold add_heading.
  rewrite add_text_stored
    by (rewrite xml_compatible_app, format_0d_xml; reflexivity).
  cbn [bind].
  destruct (format_timestamp (get (seg_start segment) 0%float)) as [s|e] eqn:Hs;
    cbn [bind]; [| reflexivity].
  destruct (format_timestamp (get (seg_end segment) 0%float)) as [t|e] eqn:Ht;
    cbn [bind]; [| reflexivity].
  unfold add_run_paragraph.
  rewrite add_text_stored.
  2:{ rewrite <- (string_app_nil_r t).
      apply time_range_xml; try reflexivity;
        eapply format_timestamp_xml; eassumption. }
  cbn [bind]. unfold add_paragraph, add_text.
  destruct (xml_compatible (strip (get (seg_text segment) EmptyString)));
    cbn [bind]; [| reflexivity].
  unfold extend. now rewrite <- !app_assoc.
Qed.

Lemma segment_section_blocks (doc : Document) (d : TranscriptionData) :
  get (segments d) [] <> [] ->
  DocumentExporter._add_segment_timestamps_section doc d
  = bind (mapM segment_blocks (Rendering.emitted_segments (get (segments d) [])))
      (fun blocks =>
         Ok (extend doc
               (Heading 1 false "Segment-Level Timestamps" :: List.concat blocks))).
Proof.
  intros Hne. unfold DocumentExporter._add_segment_timestamps_section, add_heading.
  rewrite add_text_stored by reflexivity. cbn [bind].
  destruct (get (segments d) []) as [|s0 segs] eqn:Hs; [congruence |].
  cbn [is_nil].
  rewrite (for_each_blocks (fun entry => Rendering.has_text (snd entry))
             segment_blocks DocumentExporter.segment_section_step
             segment_section_step_blocks).
  unfold Rendering.emitted_segments.
  destruct (mapM segment_blocks _) as [blocks|e]; cbn [bind]; [| reflexivity].
  unfold extend. now rewrite <- app_assoc.
Qed.

Lemma same_outcome_blocks (entry : nat * Segment) :
  xml_compatible (Rendering.stripped_text (snd entry)) = true ->
  same_outcome (segment_blocks entry) (Rendering.segment_block entry).
Proof.
  intros Htext. unfold segment_blocks, Rendering.segment_block, same_outcome.
  rewrite Htext.
  destruct (format_timestamp (get (seg_start (snd entry)) 0%float)) as [s|e];
    cbn [bind]; [| reflexivity].
  destruct (format_timestamp (get (seg_end (snd entry)) 0%float)) as [t|e];
    cbn [bind]; [exact I | reflexivity].
Qed.

Lemma same_outcome_mapM {A B C : Type} (f : A -> Result B) (g : A -> Result C)
  (xs : list A) :
  Forall (fun x => same_outcome (f x) (g x)) xs ->
  same_outcome (mapM f xs) (mapM g xs).
Proof.
  induction 1 as [|x xs H _ IH]; simpl; [exact I |].
  unfold same_outcome in H.
  destruct (f x) as [y|e], (g x) as [z|e']; cbn [bind]; try contradiction.
  - unfold same_outcome in IH.
    destruct (mapM f xs) as [ys|e], (mapM g xs) as [zs|e']; cbn [bind];
      try contradiction; [exact I | exact IH].
  - exact H.
Qed.

(** A loop whose steps return on the items that [p] accepts and raise
    [e] on the others raises [e] as soon as [p] refuses an item. *)
Lemma mapM_refused {A B : Type} (f : A -> Result B) (p : A -> bool) (e : exn)
  (xs : list A) :
  Forall (fun x => if p x then returns (f x) else f x = Raise e) xs ->
  forallb p xs = false -> mapM f xs = Raise e.
Proof.
  induction 1 as [|x xs H _ IH]; simpl; [discriminate |].
  destruct (p x); cbn [andb].
  - intros Hrest. destruct H as [y ->]. cbn [bind]. now rewrite (IH Hrest).
  - intros _. now rewrite H.
Qed.

Lemma segment_blocks_accepted (entry : nat * Segment) :
  segment_times_accepted (snd entry) ->
  if xml_compatible (Rendering.stripped_text (snd entry))
  then returns (segment_blocks entry)
  else segment_blocks entry = Raise ValueError.
Proof.
  intros [Hs He]. apply accepted_default in Hs as [s Hs].
  apply accepted_default in He as [t Ht].
  unfold segment_blocks. rewrite Hs, Ht. cbn [bind].
  destruct (xml_compatible _); [now eexists | reflexivity].
Qed.

End DocxSegments.

(** X5. For a non-empty segment list the segment section of a document
    keeps the blocks already in the document and adds its heading and
    then, for every segment whose stripped text is not empty, in order,
    four blocks: a level-2 heading [Segment] with the position of the
    segment in the whole list (three digits), the italic time range,
    the stripped text and an empty paragraph.  The heading numbers are
    positions, as in the text rendering.  The document library refuses
    a text with a control character other than tab, newline and
    carriage return: when it accepts every stripped text, the section
    raises exactly when [format_segment_timestamps] does, with the same
    exception; when every time can be formatted, the section returns if
    every stripped text is accepted and raises [ValueError] otherwise,
    while the text rendering returns. *)
Theorem docx_segment_section_blocks (doc : Document) (d : TranscriptionData) :
  get (segments d) [] <> [] ->
  DocumentExporter._add_segment_timestamps_section doc d
  = bind (mapM DocxRendering.segment_blocks
            (Rendering.emitted_segments (get (segments d) [])))
      (fun blocks =>
         Ok (extend doc
               (Heading 1 false "Segment-Level Timestamps" :: List.concat blocks)))
  /\ (forall (n i : nat) (seg : Segment),
        nth_error (Rendering.emitted_segments (get (segments d) [])) n = Some (i, seg) ->
        nth_error (get (segments d) []) (i - 1) = Some seg
        /\ Rendering.has_text seg = true
        /\ (i = n + 1
                + Rendering.count_skipped (firstn (i - 1) (get (segments d) [])))%nat)
  /\ (DocxRendering.texts_storable (get (segments d) []) = true ->
      DocxRendering.same_outcome
        (DocumentExporter._add_segment_timestamps_section doc d)
        (TranscriptionFormatter.format_segment_timestamps d))
  /\ (Forall segment_times_accepted (get (segments d) []) ->
      returns (TranscriptionFormatter.format_segment_timestamps d)
      /\ if DocxRendering.texts_storable (get (segments d) [])
         then returns (DocumentExporter._add_segment_timestamps_section doc d)
         else DocumentExporter._add_segment_timestamps_section doc d
              = Raise ValueError).
Proof.
  intros Hne.
  pose proof (segment_section_blocks doc d Hne) as Heq.
  pose proof (format_segment_timestamps_blocks d Hne) as Htxt.
  assert (Hout : DocxRendering.texts_storable (get (segments d) []) = true ->
                 DocxRendering.same_outcome
                   (DocumentExporter._add_segment_timestamps_section doc d)
                   (TranscriptionFormatter.format_segment_timestamps d)).
  { intros Hst. unfold DocxRendering.texts_storable in Hst.
    rewrite forallb_forall in Hst.
    assert (Hsame : DocxRendering.same_outcome
                      (mapM DocxRendering.segment_blocks
                         (Rendering.emitted_segments (get (segments d) [])))
                      (mapM Rendering.segment_block
                         (Rendering.emitted_segments (get (segments d) [])))).
    { apply same_outcome_mapM, Forall_forall. intros entry Hin.
      apply same_outcome_blocks, Hst, Hin. }
    rewrite Heq, Htxt. unfold DocxRendering.same_outcome in *.
    destruct (mapM DocxRendering.segment_blocks _) as [bs|e],
      (mapM Rendering.segment_block _) as [ls|e']; cbn [bind];
      try contradiction; [exact I | exact Hsame]. }
  split; [exact Heq |]. split; [| split; [exact Hout |]].
  - intros n i seg H. apply emitted_position in H as (_ & Hnth & Ht & Hpos).
    repeat split; assumption.
  - intros Hacc.
    pose proof (format_segment_timestamps_returns d Hacc) as Hret.
    split; [exact Hret |].
    destruct (DocxRendering.texts_storable (get (segments d) [])) eqn:Hst.
    + specialize (Hout eq_refl). destruct Hret as [out Hret].
      unfold DocxRendering.same_outcome in Hout. rewrite Hret in Hout.
      destruct (DocumentExporter._add_segment_timestamps_section doc d) as [doc'|e];
        [now exists doc' | contradiction].
    + rewrite Heq.
      rewrite (mapM_refused DocxRendering.segment_blocks
                 (fun entry => xml_compatible (Rendering.stripped_text (snd entry)))
                 ValueError); [reflexivity | | exact Hst].
      apply Forall_forall. intros entry Hin.
      apply segment_blocks_accepted.
      rewrite Forall_forall in Hacc. apply Hacc, emitted_in, Hin.
Qed.

Lemma docx_segment_section_blocks_witness :
  get (segments Samples.control_character) [] <> []
  /\ DocumentExporter._add_segment_timestamps_section [] Samples.control_character
     = Raise ValueError
  /\ returns (TranscriptionFormatter.format_segment_timestamps
                Samples.control_character).
Proof.
  assert (H : get (segments Samples.control_character) [] <> [])
    by (simpl; discriminate).
  assert (Hacc : Forall segment_times_accepted
                   (get (segments Samples.control_character) [])).
  { repeat constructor; eexists; vm_compute; reflexivity. }
  destruct (docx_segment_section_blocks [] Samples.control_character H)
    as (_ & _ & _ & Hcases).
  destruct (Hcases Hacc) as [Hret Hdoc].
  split; [exact H |]. split; [exact Hdoc | exact Hret].
Defined.

Section DocxWords.

Import TranscriptionFormatter.
Import DocxRendering.

Local Open Scope list_scope.

Lemma add_timestamped_paragraph_blocks (doc : Document) (line : list WordData)
  (start_time end_time : float) :
  DocumentExporter._add_timestamped_paragraph doc (map word_text line)
    start_time end_time
  = bind (line_blocks line start_time end_time) (fun b => Ok (extend doc b)).
Proof.
  unfold line_blocks, DocumentExporter._add_timestamped_paragraph.
  destruct (format_timestamp start_time) as [s|e]; cbn [bind]; [| reflexivity].
  destruct (format_timestamp end_time) as [t|e]; cbn [bind]; [| reflexivity].
  unfold add_run_paragraph, add_paragraph, add_text.
  destruct (xml_compatible ("[" ++ _)); cbn [bind]; [| reflexivity].
  destruct (xml_compatible (join _ _)); cbn [bind]; [| reflexivity].
  unfold extend. cbn [List.app]. now rewrite <- !app_assoc.
Qed.

(** The three blocks of a line, and when the document library stores
    them. *)
Lemma line_blocks_cases (line : list WordData) (start_time end_time : float) :
  line_blocks line start_time end_time
  = start_ts <- format_timestamp start_time ;;
    end_ts <- format_timestamp end_time ;;
    if xml_compatible (join " " (map word_text line))
    then
      Ok [RunParagraph true true
            ("[" ++ start_ts ++ " " ++ DocumentExporter.arrow ++ " " ++ end_ts ++ "]");
          Paragraph (join " " (map word_text line));
          BlankParagraph]
    else Raise ValueError.
Proof.
  unfold line_blocks, DocumentExporter._add_timestamped_paragraph.
  destruct (format_timestamp start_time) as [s|e] eqn:Hs; cbn [bind];
    [| reflexivity].
  destruct (format_timestamp end_time) as [t|e] eqn:Ht; cbn [bind];
    [| reflexivity].
  unfold add_run_paragraph. rewrite add_text_stored.
  2:{ apply time_range_xml; try reflexivity;
        eapply format_timestamp_xml; eassumption. }
  cbn [bind]. unfold add_paragraph, add_text.
  destruct (xml_compatible (join _ _)); reflexivity.
Qed.

Lemma line_end_snoc (line : list WordData) (w : WordData) :
  line_end (line ++ [w]) = get (w_end w) 0%float.
Proof. unfold line_end. rewrite map_app. cbn [map]. now rewrite last_last. Qed.

Lemma line_start_snoc (line : list WordData) (w : WordData) :
  line_start (line ++ [w])
  = match start_of line with
    | None => get (w_start w) 0%float
    | Some t => t
    end.
Proof. now destruct line. Qed.

Lemma start_of_snoc (line : list WordData) (w : WordData) :
  start_of (line ++ [w]) = Some (line_start (line ++ [w])).
Proof. now destruct line. Qed.

Lemma word_loop (ws : list WordData) :
  forall (doc : Document) (cur : list WordData)
    (doc' : Document) (cl' : list string) (lst' : option float),
    open_line cur ->
    for_each DocumentExporter.word_section_step ws
      (doc, map word_text cur, start_of cur) = Ok (doc', cl', lst') ->
    exists (lines : list (list WordData)) (blocks : list (list Block))
      (rest : list WordData),
      cur ++ filter Rendering.has_word ws = List.concat lines ++ rest
      /\ Forall closed_line lines
      /\ open_line rest
      /\ Forall2 (fun line b =>
                    line_blocks line (line_start line) (line_end line) = Ok b)
           lines blocks
      /\ doc' = extend doc (List.concat blocks)
      /\ cl' = map word_text rest
      /\ lst' = start_of rest.
Proof.
  induction ws as [|w ws IH]; intros doc cur doc' cl' lst' Hopen Hrun.
  - simpl in Hrun. injection Hrun as <- <- <-.
    exists [], [], cur. simpl. rewrite app_nil_r. unfold extend.
    rewrite app_nil_r.
    split; [reflexivity |]. split; [constructor |]. split; [exact Hopen |].
    split; [constructor |]. repeat split.
  - cbn [for_each] in Hrun.
    unfold DocumentExporter.word_section_step at 1 in Hrun.
    cbn [filter]. unfold Rendering.has_word at 1.
    fold (word_text w) in Hrun |- *.
    destruct (is_empty (word_text w)) eqn:Hw; cbn [negb bind] in Hrun |- *.
    + exact (IH doc cur doc' cl' lst' Hopen Hrun).
    + assert (Hhas : Rendering.has_word w = true).
      { unfold Rendering.has_word. fold (word_text w). now rewrite Hw. }
      destruct Hopen as (Hlen & Hall & Hends).
      unfold extend in Hrun.
      replace (map word_text cur ++ [word_text w])
        with (map word_text (cur ++ [w])) in Hrun by now rewrite map_app.
      rewrite <- (line_start_snoc cur w) in Hrun.
      match type of Hrun with
      | context [if ?c then _ else _] =>
          replace c
            with ((10 <=? List.length (cur ++ [w]))%nat
                  || ends_sentence (word_text w)) in Hrun
            by (unfold ends_sentence; rewrite length_map, !orb_assoc; reflexivity)
      end.
      destruct ((10 <=? List.length (cur ++ [w]))%nat || ends_sentence (word_text w))
        eqn:Hclose.
      * rewrite add_timestamped_paragraph_blocks in Hrun.
        rewrite <- (line_end_snoc cur w) in Hrun.
        destruct (line_blocks (cur ++ [w]) (line_start (cur ++ [w]))
                    (line_end (cur ++ [w]))) as [b|e] eqn:Hb;
          cbn [bind] in Hrun; [| discriminate].
        assert (Hnil : open_line []).
        { repeat split; simpl; try lia; constructor. }
        destruct (IH (extend doc b) [] doc' cl' lst' Hnil Hrun)
          as (lines & blocks & rest & Hcat & Hclosed & Hrest & Hblocks & Hdoc & Hcl & Hlst).
        exists ((cur ++ [w]) :: lines), (b :: blocks), rest.
        split; [| split; [| split; [| split; [| split; [| split]]]]];
          try assumption.
        -- cbn [List.concat]. simpl in Hcat. rewrite <- !app_assoc, <- Hcat.
           reflexivity.
        -- constructor; [| exact Hclosed].
           unfold closed_line. rewrite removelast_last, map_app. cbn [map].
           rewrite last_last.
           rewrite List.length_app in *. cbn [List.length] in *.
           split; [now destruct cur |]. split; [lia |].
           split; [apply Forall_app; split; [exact Hall | now constructor] |].
           split; [exact Hends |].
           apply orb_prop in Hclose as [H10 | He]; [left | now right].
           apply Nat.leb_le in H10. lia.
        -- now constructor.
        -- rewrite Hdoc. unfold extend. cbn [List.concat]. now rewrite app_assoc.
      * apply orb_false_elim in Hclose as [H10 He].
        apply Nat.leb_gt in H10.
        rewrite <- start_of_snoc in Hrun.
        assert (Hopen' : open_line (cur ++ [w])).
        { split; [exact H10 |].
          split; apply Forall_app; split; try assumption; now constructor. }
        destruct (IH doc (cur ++ [w]) doc' cl' lst' Hopen' Hrun)
          as (lines & blocks & rest & Hcat & Hres).
        exists lines, blocks, rest. split; [| exact Hres].
        rewrite <- Hcat, <- app_assoc. reflexivity.
Qed.

End DocxWords.

(** X6. When the word section of a document is added for a non-empty
    word list, the words with non-empty stripped text are cut, in order
    and without loss, into lines: a line is closed by its tenth word or
    by the first word that ends with a full stop, an exclamation mark
    or a question mark, whichever comes first, and is stamped with the
    start of its first word and the end of its last word; the words
    left after the last closed line (fewer than ten, none ending a
    sentence) form a last line, stamped with its start ([0] for a zero
    start) and with the end of the last word of the whole list, skipped
    or not.  Each line adds three blocks after the heading: the bold
    italic time range, the words joined by spaces, an empty
    paragraph; the blocks of a line are added when its two times can be
    formatted and the document library accepts the joined words, and
    the library raises [ValueError] when it refuses them. *)
Theorem docx_word_section_lines (doc doc' : Document) (d : TranscriptionData) :
  get (words d) [] <> [] ->
  DocumentExporter._add_word_timestamps_section doc d = Ok doc' ->
  exists (lines : list (list WordData)) (blocks : list (list Block))
    (rest : list WordData),
    List.app (List.concat lines) rest
    = filter Rendering.has_word (get (words d) [])
    /\ Forall DocxRendering.closed_line lines
    /\ DocxRendering.open_line rest
    /\ Forall2 (fun line b =>
                  DocxRendering.line_blocks line (DocxRendering.line_start line)
                    (DocxRendering.line_end line) = Ok b)
         lines blocks
    /\ match rest with
       | [] =>
           doc' = extend doc
                    (Heading 1 false "Word-Level Timestamps" :: List.concat blocks)
       | _ :: _ =>
           exists b,
             DocxRendering.line_blocks rest
               (DocxRendering.or_zero (DocxRendering.line_start rest))
               (DocxRendering.line_end (get (words d) [])) = Ok b
             /\ doc' = extend doc
                         (Heading 1 false "Word-Level Timestamps"
                            :: List.app (List.concat blocks) b)
       end
    /\ (forall (line : list WordData) (start_time end_time : float),
          DocxRendering.line_blocks line start_time end_time
          = start_ts <- format_timestamp start_time ;;
            end_ts <- format_timestamp end_time ;;
            if xml_compatible (join " " (map DocxRendering.word_text line))
            then
              Ok [RunParagraph true true
                    ("[" ++ start_ts ++ " " ++ DocumentExporter.arrow ++ " "
                       ++ end_ts ++ "]");
                  Paragraph (join " " (map DocxRendering.word_text line));
                  BlankParagraph]
            else Raise ValueError).
Proof.
  intros Hne. unfold DocumentExporter._add_word_timestamps_section, add_heading.
  rewrite add_text_stored by reflexivity. cbn [bind].
  destruct (get (words d) []) as [|w0 ws] eqn:Hw; [congruence |].
  cbn [is_nil].
  destruct (for_each DocumentExporter.word_section_step (w0 :: ws) _)
    as [[[doc1 cl] lst]|e] eqn:Hrun; cbn [bind]; [| discriminate].
  assert (Hnil : DocxRendering.open_line []).
  { repeat split; simpl; try lia; constructor. }
  destruct (word_loop (w0 :: ws) _ [] doc1 cl lst Hnil Hrun)
    as (lines & blocks & rest & Hcat & Hclosed & Hrest & Hblocks & Hdoc & Hcl & Hlst).
  intros Hfinal. exists lines, blocks, rest.
  split; [symmetry; exact Hcat |]. split; [exact Hclosed |].
  split; [exact Hrest |]. split; [exact Hblocks |].
  split; [| exact line_blocks_cases].
  subst cl lst doc1. destruct rest as [|r0 rest].
  - cbn [map is_nil] in Hfinal. injection Hfinal as <-.
    unfold extend. now rewrite <- app_assoc.
  - cbn [map is_nil DocxRendering.start_of] in Hfinal.
    change (DocxRendering.word_text r0 :: map DocxRendering.word_text rest)
      with (map DocxRendering.word_text (r0 :: rest)) in Hfinal.
    rewrite add_timestamped_paragraph_blocks in Hfinal.
    change (if (get (w_start r0) 0 =? 0)%float then 0%float else get (w_start r0) 0%float)
      with (DocxRendering.or_zero (DocxRendering.line_start (r0 :: rest))) in Hfinal.
    change (match last (map Some (w0 :: ws)) None with
            | Some w => get (w_end w) 0%float
            | None => 0%float
            end) with (DocxRendering.line_end (w0 :: ws)) in Hfinal.
    destruct (DocxRendering.line_blocks (r0 :: rest) _ _) as [b|e];
      cbn [bind] in Hfinal; [| discriminate].
    injection Hfinal as <-. exists b. split; [reflexivity |].
    unfold extend. now rewrite <- !app_assoc.
Qed.

Lemma docx_word_section_lines_witness :
  get (words Samples.sample_data) [] <> []
  /\ exists doc',
       DocumentExporter._add_word_timestamps_section [] Samples.sample_data = Ok doc'
       /\ exists (lines : list (list WordData)) (blocks : list (list Block))
            (rest : list WordData),
            List.app (List.concat lines) rest
            = filter Rendering.has_word (get (words Samples.sample_data) [])
            /\ Forall DocxRendering.closed_line lines
            /\ DocxRendering.open_line rest.
Proof.
  assert (Hne : get (words Samples.sample_data) [] <> []) by (simpl; discriminate).
  assert (Hret : exists doc',
             DocumentExporter._add_word_timestamps_section [] Samples.sample_data
             = Ok doc') by (eexists; vm_compute; reflexivity).
  split; [exact Hne |]. destruct Hret as [doc' Hret]. exists doc'.
  split; [exact Hret |].
  destruct (docx_word_section_lines [] doc' Samples.sample_data Hne Hret)
    as (lines & blocks & rest & H1 & H2 & H3 & _).
  exists lines, blocks, rest.
  split; [exact H1 | split; [exact H2 | exact H3]].
Defined.

Section DocxLayout.

Import TranscriptionFormatter.
Import DocxRendering.

Local Open Scope list_scope.

(** Every section keeps the document it is given and starts with its
    heading. *)
Lemma word_section_extends (doc doc' : Document) (d : TranscriptionData) :
  DocumentExporter._add_word_timestamps_section doc d = Ok doc' ->
  exists body, doc' = doc ++ Heading 1 false "Word-Level Timestamps" :: body.
Proof.
  unfold DocumentExporter._add_word_timestamps_section, add_heading.
  rewrite add_text_stored by reflexivity. cbn [bind].
  destruct (get (words d) []) as [|w0 ws] eqn:Hw; cbn [is_nil].
  - unfold add_paragraph. rewrite add_text_stored by reflexivity.
    intros [= <-]. eexists. unfold extend. now rewrite <- app_assoc.
  - destruct (for_each DocumentExporter.word_section_step (w0 :: ws) _)
      as [[[doc1 cl] lst]|e] eqn:Hrun; cbn [bind]; [| discriminate].
    assert (Hnil : open_line []).
    { repeat split; simpl; try lia; constructor. }
    destruct (word_loop (w0 :: ws) _ [] doc1 cl lst Hnil Hrun)
      as (lines & blocks & rest & _ & _ & _ & _ & Hdoc & Hcl & _).
    subst doc1 cl. destruct (is_nil (map word_text rest)).
    + intros [= <-]. eexists. unfold extend. now rewrite <- app_assoc.
    + rewrite add_timestamped_paragraph_blocks.
      destruct (line_blocks rest _ _) as [b|e]; cbn [bind]; [| discriminate].
      intros [= <-]. eexists. unfold extend. now rewrite <- !app_assoc.
Qed.

Lemma segment_section_extends (doc doc' : Document) (d : TranscriptionData) :
  DocumentExporter._add_segment_timestamps_section doc d = Ok doc' ->
  exists body, doc' = doc ++ Heading 1 false "Segment-Level Timestamps" :: body.
Proof.
  destruct (get (segments d) []) as [|s0 segs] eqn:Hs.
  - unfold DocumentExporter._add_segment_timestamps_section, add_heading,
      add_paragraph.
    rewrite Hs, add_text_stored by reflexivity. cbn [bind is_nil].
    rewrite add_text_stored by reflexivity.
    intros [= <-]. eexists. unfold extend. now rewrite <- app_assoc.
  - rewrite segment_section_blocks by (rewrite Hs; discriminate).
    destruct (mapM segment_blocks _) as [blocks|e]; cbn [bind]; [| discriminate].
    intros [= <-]. now eexists.
Qed.

(** The summary section is stored when the summary returns and the
    document library accepts the language. *)
Lemma assemble_docx_summary (d : TranscriptionData) (format_type : string) :
  DocumentExporter.assemble_docx d format_type
  = bind (get_transcription_summary d)
      (fun summary =>
         if xml_compatible (get (language d) "unknown")
         then
           let doc := [Heading 0 true "Audio Transcription Report";
                       Heading 1 false "Summary";
                       Table "Table Grid" summary;
                       PageBreak] in
           if String.eqb format_type "word_timestamps"
           then DocumentExporter._add_word_timestamps_section doc d
           else if String.eqb format_type "segment_timestamps"
           then DocumentExporter._add_segment_timestamps_section doc d
           else DocumentExporter._add_plain_text_section doc d
         else Raise ValueError).
Proof.
  unfold DocumentExporter.assemble_docx.
  rewrite add_text_stored by reflexivity. cbn [bind].
  unfold DocumentExporter._add_summary_section, add_heading.
  rewrite add_text_stored by reflexivity. cbn [bind].
  destruct (get_transcription_summary d) as [summary|e] eqn:Hsum; cbn [bind];
    [| reflexivity].
  rewrite (summary_table _ d summary Hsum).
  destruct (xml_compatible (get (language d) "unknown")); reflexivity.
Qed.

End DocxLayout.

(** X7. The document that [create_docx_download] assembles starts with
    the centred title, the [Summary] heading, the two-column table of
    the summary items and a page break, followed by the section of the
    format type, which starts with its own heading.  A format type other
    than [word_timestamps] and [segment_timestamps] gives the plain text
    document.  When the summary returns, the plain text document is
    assembled if the document library accepts the language and the
    stripped text of the result, and the assembly raises [ValueError]
    if one of them holds a control character other than tab, newline
    and carriage return; when the summary raises, the assembly raises
    the same exception. *)
Theorem assemble_docx_layout (d : TranscriptionData) (format_type : string) :
  (forall doc, DocumentExporter.assemble_docx d format_type = Ok doc ->
     exists summary body,
       TranscriptionFormatter.get_transcription_summary d = Ok summary
       /\ doc = [Heading 0 true "Audio Transcription Report";
                 Heading 1 false "Summary";
                 Table "Table Grid" summary;
                 PageBreak;
                 Heading 1 false
                   (if String.eqb format_type "word_timestamps"
                    then "Word-Level Timestamps"
                    else if String.eqb format_type "segment_timestamps"
                    then "Segment-Level Timestamps"
                    else "Transcription")]
                ++ body)%list
  /\ (format_type <> "word_timestamps" -> format_type <> "segment_timestamps" ->
      DocumentExporter.assemble_docx d format_type
      = DocumentExporter.assemble_docx d "plain_text")
  /\ (forall summary,
        TranscriptionFormatter.get_transcription_summary d = Ok summary ->
        DocumentExporter.assemble_docx d "plain_text"
        = if xml_compatible (get (language d) "unknown")
             && xml_compatible (TranscriptionFormatter.format_plain_text d)
          then
            Ok [Heading 0 true "Audio Transcription Report";
                Heading 1 false "Summary";
                Table "Table Grid" summary;
                PageBreak;
                Heading 1 false "Transcription";
                Paragraph (TranscriptionFormatter.format_plain_text d)]
          else Raise ValueError)
  /\ (forall e, TranscriptionFormatter.get_transcription_summary d = Raise e ->
        DocumentExporter.assemble_docx d format_type = Raise e)
  /\ returns (TranscriptionFormatter.get_transcription_summary
                Samples.control_character)
  /\ DocumentExporter.assemble_docx Samples.control_character "plain_text"
     = Raise ValueError.
Proof.
  rewrite !assemble_docx_summary.
  split; [| split; [| split; [| split; [| split]]]].
  - intros doc.
    destruct (TranscriptionFormatter.get_transcription_summary d) as [summary|e];
      cbn [bind]; [| discriminate].
    destruct (xml_compatible (get (language d) "unknown")); [| discriminate].
    cbv zeta. intros H. exists summary.
    destruct (String.eqb format_type "word_timestamps").
    + apply word_section_extends in H as [body ->]. now exists body.
    + destruct (String.eqb format_type "segment_timestamps").
      * apply segment_section_extends in H as [body ->]. now exists body.
      * unfold DocumentExporter._add_plain_text_section, add_heading,
          add_paragraph in H.
        rewrite add_text_stored in H by reflexivity. cbn [bind] in H.
        unfold add_text in H.
        destruct (xml_compatible (TranscriptionFormatter.format_plain_text d));
          [| discriminate].
        injection H as <-. now eexists.
  - intros Hw Hs.
    apply String.eqb_neq in Hw. apply String.eqb_neq in Hs. now rewrite Hw, Hs.
  - intros summary ->. cbn [bind].
    destruct (xml_compatible (get (language d) "unknown")); [| reflexivity].
    cbn [andb]. change (String.eqb "plain_text" "word_timestamps") with false.
    change (String.eqb "plain_text" "segment_timestamps") with false.
    cbv iota zeta.
    unfold DocumentExporter._add_plain_text_section, add_heading, add_paragraph.
    rewrite add_text_stored by reflexivity. cbn [bind]. unfold add_text.
    destruct (xml_compatible (TranscriptionFormatter.format_plain_text d));
      reflexivity.
  - intros e ->. reflexivity.
  - eexists. vm_compute. reflexivity.
  - vm_compute. reflexivity.
Qed.

Section Truncation.

Lemma take_length (n : nat) (s : string) :
  String.length (take n s) = Nat.min n (String.length s).
Proof.
  revert s. induction n as [|n IH]; intros [|c s]; simpl; try reflexivity.
  now rewrite IH.
Qed.

Lemma take_all (n : nat) (s : string) :
  (String.length s <= n)%nat -> take n s = s.
Proof.
  revert s. induction n as [|n IH]; intros [|c s]; simpl; intros H;
    try reflexivity; try lia.
  rewrite IH by lia. reflexivity.
Qed.

Lemma take_app (n : nat) (a b : string) :
  (n <= String.length a)%nat -> take n (a ++ b) = take n a.
Proof.
  revert a. induction n as [|n IH]; intros [|c a]; simpl; intros H;
    try reflexivity; try lia.
  rewrite IH by lia. reflexivity.
Qed.

Lemma take_take (n : nat) (s : string) : take n (take n s) = take n s.
Proof.
  revert s. induction n as [|n IH]; intros [|c s]; simpl; try reflexivity.
  now rewrite IH.
Qed.

(** A cut at a position inside the text. *)
Lemma truncate_inside (text : string) (n : Z) :
  0 <= n < Z.of_nat (String.length text) ->
  truncate_for_display text (Some n)
  = take (Z.to_nat n) text ++ nl ++ nl ++ "... (truncated for display)".
Proof.
  intros Hn. unfold truncate_for_display, slice_to.
  destruct (Z.leb_spec (Z.of_nat (String.length text)) n); [lia |].
  destruct (Z.ltb_spec n 0); [lia | reflexivity].
Qed.

End Truncation.

(** X8. [truncate_for_display] returns a text of at most [max_length]
    characters unchanged; a longer text is cut to its first [max_length]
    characters and followed by the 29 characters of the marker (two
    newlines and [... (truncated for display)]), so that the result has
    [max_length + 29] characters: it is over the limit, and it is longer
    than the text itself when the text exceeds the limit by fewer than 29
    characters.  A negative [max_length] always cuts, dropping that many
    characters from the end; and a missing [max_length] is 10000. *)
Theorem truncate_for_display_cuts (text : string) (n : Z) :
  (Z.of_nat (String.length text) <= n -> truncate_for_display text (Some n) = text)
  /\ (0 <= n < Z.of_nat (String.length text) ->
      truncate_for_display text (Some n)
      = take (Z.to_nat n) text ++ nl ++ nl ++ "... (truncated for display)"
      /\ Z.of_nat (String.length (truncate_for_display text (Some n))) = n + 29
      /\ take (Z.to_nat n) (truncate_for_display text (Some n))
         = take (Z.to_nat n) text
      /\ (Z.of_nat (String.length text) < n + 29 ->
          (String.length text
           < String.length (truncate_for_display text (Some n)))%nat))
  /\ (n < 0 ->
      truncate_for_display text (Some n)
      = take (String.length text - Z.to_nat (- n)) text
          ++ nl ++ nl ++ "... (truncated for display)")
  /\ truncate_for_display text None = truncate_for_display text (Some 10000).
Proof.
  split; [| split; [| split]].
  - intros H. unfold truncate_for_display.
    destruct (Z.leb_spec (Z.of_nat (String.length text)) n); [reflexivity | lia].
  - intros Hn. rewrite (truncate_inside text n Hn).
    assert (Hlen : String.length (take (Z.to_nat n) text) = Z.to_nat n).
    { rewrite take_length. lia. }
    assert (Htot : Z.of_nat
                     (String.length
                        (take (Z.to_nat n) text ++ nl ++ nl
                           ++ "... (truncated for display)")) = n + 29).
    { rewrite length_app, Hlen. simpl String.length. lia. }
    split; [reflexivity |]. split; [exact Htot |]. split.
    + rewrite take_app by lia. apply take_take.
    + intros H. lia.
  - intros Hn. unfold truncate_for_display, slice_to.
    destruct (Z.leb_spec (Z.of_nat (String.length text)) n); [lia |].
    destruct (Z.ltb_spec n 0); [| lia].
    do 2 f_equal. lia.
  - reflexivity.
Qed.

(** X9. With a non-negative limit [truncate_for_display] is idempotent:
    truncating its own result again, with the same limit, changes
    nothing, although a truncated result is itself over the limit. *)
Theorem truncate_for_display_idempotent (text : string) (n : Z) :
  0 <= n ->
  truncate_for_display (truncate_for_display text (Some n)) (Some n)
  = truncate_for_display text (Some n).
Proof.
  intros Hn.
  destruct (Z.le_gt_cases (Z.of_nat (String.length text)) n) as [Hfit | Hcut].
  - unfold truncate_for_display.
    destruct (Z.leb_spec (Z.of_nat (String.length text)) n); [| lia].
    destruct (Z.leb_spec (Z.of_nat (String.length text)) n); [reflexivity | lia].
  - rewrite (truncate_inside text n) by lia.
    assert (Hlen : String.length (take (Z.to_nat n) text) = Z.to_nat n).
    { rewrite take_length. lia. }
    rewrite truncate_inside.
    + rewrite take_app by lia. now rewrite take_take.
    + rewrite length_app, Hlen. simpl String.length. lia.
Qed.

Lemma truncate_for_display_idempotent_witness :
  0 <= 5
  /\ truncate_for_display (truncate_for_display "Hello world test" (Some 5)) (Some 5)
     = truncate_for_display "Hello world test" (Some 5).
Proof.
  split; [lia |]. apply truncate_for_display_idempotent. lia.
Defined.

Section Cases.

Lemma upper_char_not_lower (c : ascii) : is_lower (upper_char c) = false.
Proof.
  destruct c as [[|] [|] [|] [|] [|] [|] [|] [|]]; reflexivity.
Qed.

Lemma upper_char_idempotent (c : ascii) : upper_char (upper_char c) = upper_char c.
Proof.
  destruct c as [[|] [|] [|] [|] [|] [|] [|] [|]]; reflexivity.
Qed.

Lemma upper_length (s : string) : String.length (upper s) = String.length s.
Proof. induction s as [|c s IH]; simpl; [reflexivity | now rewrite IH]. Qed.

Lemma upper_no_lower (s : string) :
  all_chars (fun c => negb (is_lower c)) (upper s) = true.
Proof.
  induction s as [|c s IH]; simpl; [reflexivity |].
  now rewrite upper_char_not_lower, IH.
Qed.

Lemma upper_idempotent (s : string) : upper (upper s) = upper s.
Proof.
  induction s as [|c s IH]; simpl; [reflexivity |].
  now rewrite upper_char_idempotent, IH.
Qed.

Lemma title_from_length (p : bool) (s : string) :
  String.length (title_from p s) = String.length s.
Proof.
  revert p. induction s as [|c s IH]; intros p; simpl; [reflexivity |].
  now rewrite IH.
Qed.

Lemma cased_after_case (p : bool) (c : ascii) :
  is_cased (if p then lower_char c else upper_char c) = is_cased c.
Proof.
  destruct p; destruct c as [[|] [|] [|] [|] [|] [|] [|] [|]]; reflexivity.
Qed.

Lemma case_idempotent (p : bool) (c : ascii) :
  (if p then lower_char (if p then lower_char c else upper_char c)
   else upper_char (if p then lower_char c else upper_char c))
  = (if p then lower_char c else upper_char c).
Proof.
  destruct p; destruct c as [[|] [|] [|] [|] [|] [|] [|] [|]]; reflexivity.
Qed.

Lemma title_from_idempotent (p : bool) (s : string) :
  title_from p (title_from p s) = title_from p s.
Proof.
  revert p. induction s as [|c s IH]; intros p; simpl; [reflexivity |].
  now rewrite case_idempotent, cased_after_case, IH.
Qed.

(** The characters of a title, one by one. *)
Lemma title_from_get (p : bool) (s : string) (i : nat) :
  String.get i (title_from p s)
  = match String.get i s with
    | None => None
    | Some c =>
        let follows :=
          match i with
          | O => p
          | S j => match String.get j s with
                   | Some b => is_cased b
                   | None => false
                   end
          end in
        Some (if follows then lower_char c else upper_char c)
    end.
Proof.
  revert p i. induction s as [|c s IH]; intros p i; simpl.
  - now destruct i.
  - destruct i as [|i]; [reflexivity |].
    rewrite IH. destruct (String.get i s) as [a|]; [| reflexivity].
    destruct i; reflexivity.
Qed.

Lemma upper_ascii (s : string) : is_ascii s = true -> is_ascii (upper s) = true.
Proof.
  induction s as [|c s IH]; simpl; [reflexivity |].
  intros H. apply andb_prop in H as [Hc Hs]. rewrite (IH Hs), andb_true_r.
  destruct c as [[|] [|] [|] [|] [|] [|] [|] [|]]; try reflexivity;
    discriminate Hc.
Qed.

Lemma title_from_ascii (p : bool) (s : string) :
  is_ascii s = true -> is_ascii (title_from p s) = true.
Proof.
  revert p. induction s as [|c s IH]; intros p; simpl; [reflexivity |].
  intros H. apply andb_prop in H as [Hc Hs]. rewrite (IH _ Hs), andb_true_r.
  destruct p; destruct c as [[|] [|] [|] [|] [|] [|] [|] [|]]; try reflexivity;
    discriminate Hc.
Qed.

Lemma dict_get_other (key default : string) :
  key <> "plain_text" -> key <> "word_timestamps" -> key <> "segment_timestamps" ->
  dict_get DocumentExporter.format_names key default = default.
Proof.
  intros H1 H2 H3. unfold DocumentExporter.format_names. cbn [dict_get].
  rewrite (proj2 (String.eqb_neq _ _)) by congruence.
  rewrite (proj2 (String.eqb_neq _ _)) by congruence.
  rewrite (proj2 (String.eqb_neq _ _)) by congruence.
  reflexivity.
Qed.

End Cases.

(** X10. For a format type and an extension of ASCII characters, the
    label of a download button is the icon, [Download], the name of the
    format and the upper-cased extension in parentheses.  The three
    known format types have fixed names ([plain_text] is [Plain Text],
    not its title-cased form [Plain_Text]); any other format type is
    shown title-cased: same length, each letter lowered when it follows
    a letter and raised otherwise, other characters kept; title-casing
    and upper-casing are idempotent and give ASCII texts, and the
    extension shown holds no lower-case letter. *)
Theorem download_button_label_shape (format_type file_format : string) :
  is_ascii format_type = true -> is_ascii file_format = true ->
  (forall name,
      In (format_type, name) DocumentExporter.format_names ->
      DocumentExporter.get_download_button_label format_type file_format
      = DocumentExporter.label_icon ++ " Download " ++ name
          ++ " (" ++ upper file_format ++ ")")
  /\ (format_type <> "plain_text" -> format_type <> "word_timestamps" ->
      format_type <> "segment_timestamps" ->
      DocumentExporter.get_download_button_label format_type file_format
      = DocumentExporter.label_icon ++ " Download " ++ title format_type
          ++ " (" ++ upper file_format ++ ")")
  /\ String.length (title format_type) = String.length format_type
  /\ (forall i,
        String.get i (title format_type)
        = match String.get i format_type with
          | None => None
          | Some c =>
              let follows :=
                match i with
                | O => false
                | S j => match String.get j format_type with
                         | Some b => is_cased b
                         | None => false
                         end
                end in
              Some (if follows then lower_char c else upper_char c)
          end)
  /\ title (title format_type) = title format_type
  /\ String.length (upper file_format) = String.length file_format
  /\ all_chars (fun c => negb (is_lower c)) (upper file_format) = true
  /\ upper (upper file_format) = upper file_format
  /\ is_ascii (title format_type) = true
  /\ is_ascii (upper file_format) = true
  /\ title "plain_text" = "Plain_Text"
  /\ DocumentExporter.get_download_button_label "subtitles" "srt"
     = DocumentExporter.label_icon ++ " Download Subtitles (SRT)".
Proof.
  intros Hformat Hextension.
  split.
  { intros name Hin. unfold DocumentExporter.get_download_button_label.
    simpl in Hin.
    destruct Hin as [[= <- <-] | [[= <- <-] | [[= <- <-] | []]]]; reflexivity. }
  split.
  { intros H1 H2 H3. unfold DocumentExporter.get_download_button_label.
    now rewrite dict_get_other. }
  split; [apply title_from_length |].
  split; [intros i; apply title_from_get |].
  split; [apply title_from_idempotent |].
  split; [apply upper_length |].
  split; [apply upper_no_lower |].
  split; [apply upper_idempotent |].
  split; [apply title_from_ascii, Hformat |].
  split; [apply upper_ascii, Hextension |].
  split; reflexivity.
Qed.

Lemma download_button_label_shape_witness :
  is_ascii "subtitles" = true /\ is_ascii "srt" = true
  /\ DocumentExporter.get_download_button_label "subtitles" "srt"
     = DocumentExporter.label_icon ++ " Download " ++ title "subtitles"
         ++ " (" ++ upper "srt" ++ ")".
Proof.
  split; [reflexivity |]. split; [reflexivity |].
  apply (download_button_label_shape "subtitles" "srt" eq_refl eq_refl);
    discriminate.
Defined.

Section Stripping.

Lemma lstrip_decomposes (s : string) :
  exists l, s = l ++ lstrip s /\ all_chars isspace l = true.
Proof.
  induction s as [|c s (l & Hl & Hsp)]; simpl.
  - now exists EmptyString.
  - destruct (isspace c) eqn:Hc.
    + exists (String c l). simpl. rewrite Hc, Hsp. split; [now rewrite <- Hl | reflexivity].
    + now exists EmptyString.
Qed.

Lemma lstrip_starts (s : string) : starts_with_space (lstrip s) = false.
Proof.
  induction s as [|c s IH]; simpl; [reflexivity |].
  destruct (isspace c) eqn:Hc; [exact IH | simpl; exact Hc].
Qed.

Lemma rstrip_decomposes (s : string) :
  exists r, s = rstrip s ++ r /\ all_chars isspace r = true.
Proof.
  induction s as [|c s (r & Hr & Hsp)]; simpl.
  - now exists EmptyString.
  - destruct (isspace c && is_empty (rstrip s)) eqn:Hc.
    + apply andb_prop in Hc as [Hc He]. apply is_empty_true in He.
      rewrite He in Hr. simpl in Hr. subst s.
      exists (String c r). simpl. now rewrite Hc, Hsp.
    + exists r. simpl. split; [now rewrite <- Hr | exact Hsp].
Qed.

Lemma rstrip_ends (s : string) : ends_with_space (rstrip s) = false.
Proof.
  induction s as [|c s IH]; simpl; [reflexivity |].
  destruct (isspace c && is_empty (rstrip s)) eqn:Hc; [reflexivity |].
  destruct (rstrip s) as [|c' s'] eqn:Hs.
  - simpl in *. now rewrite andb_true_r in Hc.
  - exact IH.
Qed.

Lemma rstrip_starts (s : string) :
  starts_with_space s = false -> starts_with_space (rstrip s) = false.
Proof.
  destruct s as [|c s]; simpl; [reflexivity |]. intros Hc.
  now rewrite Hc.
Qed.

Lemma lstrip_fixed (s : string) : starts_with_space s = false -> lstrip s = s.
Proof. destruct s as [|c s]; simpl; [reflexivity |]. now intros ->. Qed.

Lemma rstrip_fixed (s : string) : ends_with_space s = false -> rstrip s = s.
Proof.
  induction s as [|c s IH]; simpl; [reflexivity |].
  destruct s as [|c' s'].
  - simpl. now intros ->.
  - intros H. rewrite (IH H). simpl. now rewrite andb_false_r.
Qed.

Lemma strip_decomposes (s : string) :
  exists l r,
    s = l ++ strip s ++ r
    /\ all_chars isspace l = true /\ all_chars isspace r = true.
Proof.
  destruct (lstrip_decomposes s) as (l & Hl & Hsl).
  destruct (rstrip_decomposes (lstrip s)) as (r & Hr & Hsr).
  exists l, r. unfold strip. now rewrite <- Hr, <- Hl.
Qed.

Lemma strip_ends (s : string) :
  starts_with_space (strip s) = false /\ ends_with_space (strip s) = false.
Proof.
  unfold strip. split; [apply rstrip_starts, lstrip_starts | apply rstrip_ends].
Qed.

Lemma strip_idempotent (s : string) : strip (strip s) = strip s.
Proof.
  destruct (strip_ends s) as [Hs He]. unfold strip at 1.
  now rewrite (lstrip_fixed _ Hs), (rstrip_fixed _ He).
Qed.

End Stripping.

(** X11. [format_plain_text] returns the text of the result (the empty
    string when the field is missing) with the whitespace removed from
    its two ends and from nowhere else: the text is some whitespace,
    then the result, then some whitespace; the result neither starts
    nor ends with a whitespace character; a text of whitespace alone
    gives the empty string; and formatting a result whose text is
    already the formatted text changes nothing.  The whitespace is that
    of [str.strip]: the no-break space U+00A0 and the next-line control
    U+0085 are removed like the space. *)
Theorem format_plain_text_trims (d : TranscriptionData) :
  (exists l r,
      get (text d) EmptyString
      = l ++ TranscriptionFormatter.format_plain_text d ++ r
      /\ all_chars isspace l = true /\ all_chars isspace r = true)
  /\ starts_with_space (TranscriptionFormatter.format_plain_text d) = false
  /\ ends_with_space (TranscriptionFormatter.format_plain_text d) = false
  /\ (all_chars isspace (get (text d) EmptyString) = true ->
      TranscriptionFormatter.format_plain_text d = EmptyString)
  /\ strip (TranscriptionFormatter.format_plain_text d)
     = TranscriptionFormatter.format_plain_text d
  /\ strip (String "160" ("Hello" ++ String "133" " ")) = "Hello".
Proof.
  unfold TranscriptionFormatter.format_plain_text.
  split; [apply strip_decomposes |].
  destruct (strip_ends (get (text d) EmptyString)) as [Hs He].
  split; [exact Hs |]. split; [exact He |].
  split; [| split; [apply strip_idempotent | reflexivity]].
  intros Hall.
  destruct (strip_decomposes (get (text d) EmptyString)) as (l & r & Heq & _ & _).
  rewrite Heq, !all_chars_app in Hall.
  apply andb_prop in Hall as [_ Hall]. apply andb_prop in Hall as [Hall _].
  destruct (strip (get (text d) EmptyString)) as [|c s]; [reflexivity |].
  simpl in Hs, Hall. rewrite Hs in Hall. discriminate.
Qed.
